(** * GASpy: the Luigi task graph, the energy referencing and the
    database helpers, embedded from [tasks.py], [gaspy/gasdb.py] and
    [gaspy/defaults.py].

    Python values are a tree of scalars, lists and dictionaries; a
    dictionary is an association list in insertion order.  A Python
    exception is [None] in the [option] monad.  Python floats are exact
    rationals. *)

From Stdlib Require Import QArith Qround Qabs.
From stdpp Require Import base option list gmap strings sorting pretty.
From stdpp Require Import countable relations.

Set Warnings "-register-all,-clear-no-such-hyp".

(** ** Python values *)

Module Py.

Inductive value : Type :=
| VNone
| VBool (b : bool)
| VInt (z : Z)
| VFloat (q : Q)
| VStr (s : string)
| VList (l : list value)
| VDict (d : list (string * value)).

(** A dictionary object: keys in insertion order, no key twice. *)
Definition dict : Type := list (string * value).

Definition keys (d : dict) : list string := d.*1.

(** [d[k]]: [KeyError] when the key is absent. *)
Fixpoint getitem (d : dict) (k : string) : option value :=
  match d with
  | [] => None
  | (k', v) :: d' => if decide (k' = k) then Some v else getitem d' k
  end.

(** [d[k] = v]: an existing key keeps its position, a new key goes last. *)
Fixpoint setitem (d : dict) (k : string) (v : value) : dict :=
  match d with
  | [] => [(k, v)]
  | (k', v') :: d' =>
      if decide (k' = k) then (k, v) :: d' else (k', v') :: setitem d' k v
  end.

(** [del d[k]]: [KeyError] when the key is absent. *)
Fixpoint delitem (d : dict) (k : string) : option dict :=
  match d with
  | [] => None
  | (k', v') :: d' =>
      if decide (k' = k) then Some d' else cons (k', v') <$> delitem d' k
  end.

(** Subscripting a value that is not a dictionary raises [TypeError]. *)
Definition as_dict (v : value) : option dict :=
  match v with VDict d => Some d | _ => None end.

(** Python truthiness, as [if x:] evaluates it. *)
Definition truthy (v : value) : bool :=
  match v with
  | VNone => false
  | VBool b => b
  | VInt z => negb (z =? 0)%Z
  | VFloat q => negb (Qeq_bool q 0)
  | VStr s => negb (bool_decide (s = ""))
  | VList l => negb (bool_decide (l = []))
  | VDict d => negb (bool_decide (d = []))
  end.

End Py.

(** ** The task classes of [tasks.py] and their [requires] methods *)

Module Tasks.
Import Py.

(** One constructor per [luigi.Task] subclass, carrying its Luigi
    parameters.  [SubmitToFW] is instantiated by [tasks.py] with a
    calculation type and a parameter dictionary. *)
Inductive Task : Type :=
| DumpBulkGasToAuxDB
| DumpSurfacesToAuxDB
| UpdateAllDB (writeDB : bool) (max_processes : Z)
| GenerateBulk (parameters : dict)
| GenerateGas (parameters : dict)
| GenerateSurfaces (parameters : dict)
| GenerateSiteMarkers (parameters : dict)
| GenerateAdslabs (parameters : dict)
| CalculateEnergy (parameters : dict)
| FingerprintRelaxedAdslab (parameters : dict)
| FingerprintUnrelaxedAdslabs (parameters : dict)
| DumpToLocalDB (parameters : dict)
| UpdateEnumerations (parameters : dict)
| SubmitToFW (calctype : string) (parameters : dict).

(** [{'bulk': self.parameters['bulk']}] *)
Definition bulk_only (p : dict) : option dict :=
  b ← getitem p "bulk"; Some [("bulk", b)].

(** [p = copy.deepcopy(parameters); p['adsorption']['adsorbates'] = ads] *)
Definition with_adsorbates (p : dict) (ads : value) : option dict :=
  a ← getitem p "adsorption" ≫= as_dict;
  Some (setitem p "adsorption" (VDict (setitem a "adsorbates" ads))).

(** [p = copy.deepcopy(parameters); del p['adsorption']['adsorbates']] *)
Definition without_adsorbates (p : dict) : option dict :=
  a ← getitem p "adsorption" ≫= as_dict;
  a' ← delitem a "adsorbates";
  Some (setitem p "adsorption" (VDict a')).

(** [p = copy.deepcopy({'gas': parameters['gas']}); p['gas']['gasname'] = g] *)
Definition gas_only (p : dict) (gasname : string) : option dict :=
  g ← getitem p "gas" ≫= as_dict;
  Some [("gas", VDict (setitem g "gasname" (VStr gasname)))].

(** ['unrelaxed' in self.parameters and self.parameters['unrelaxed']] *)
Definition unrelaxed (p : dict) : bool :=
  match getitem p "unrelaxed" with
  | Some v => truthy v
  | None => false
  end.

(** One row of the Auxiliary DB as [UpdateAllDB.requires] reads it: the
    FireWorks id, the adsorbate name and the parameter dictionary that
    the default-parameter helpers build from the row. *)
Record aux_row : Type := AuxRow {
  row_fwid : Z;
  row_adsorbate : string;
  row_parameters : dict
}.

Section Requires.

(** What lies outside [tasks.py]: the [requires] method of [SubmitToFW],
    the hex pickle of the empty [Atoms('')] object, and the database
    contents that [DumpSurfacesToAuxDB.requires] and
    [UpdateAllDB.requires] read. *)
Variable SubmitToFW_requires : string → dict → list Task.
Variable blank_atoms_hex : string.
Variable missing_shift_surfaces : list dict.
Variable aux_rows : list aux_row.
Variable local_fwids : list Z.

(** [[OrderedDict(name='', atoms=pickle.dumps(Atoms('')).encode('hex'))]] *)
Definition blank_adsorbates : value :=
  VList [VDict [("name", VStr ""); ("atoms", VStr blank_atoms_hex)]].

(** The loop of [UpdateAllDB.requires] over the enumerated rows. *)
Fixpoint UpdateAllDB_rows (writeDB : bool) (max_processes : Z)
    (i : Z) (rows : list aux_row) : list Task :=
  match rows with
  | [] => []
  | row :: rows' =>
      if (i + 1 =? max_processes)%Z then []
      else
        (if negb (bool_decide (row_fwid row ∈ local_fwids))
            && negb (bool_decide (row_adsorbate row = ""))
            && ((max_processes =? 0)%Z
                || ((0 <? max_processes)%Z && (i <? max_processes)%Z))
         then [if writeDB then DumpToLocalDB (row_parameters row)
               else FingerprintRelaxedAdslab (row_parameters row)]
         else [])
        ++ UpdateAllDB_rows writeDB max_processes (i + 1) rows'
  end.

(** [requires]: the tasks a task depends on, or [None] when building
    them raises (a missing key). A task class without a [requires]
    method inherits Luigi's empty one. *)
Definition requires (t : Task) : option (list Task) :=
  match t with
  | DumpBulkGasToAuxDB => Some []
  | DumpSurfacesToAuxDB => Some (GenerateSurfaces <$> missing_shift_surfaces)
  | UpdateAllDB writeDB max_processes =>
      Some (DumpSurfacesToAuxDB
              :: UpdateAllDB_rows writeDB max_processes 0 aux_rows)
  | GenerateBulk _ => Some []
  | GenerateGas _ => Some []
  | GenerateSurfaces p =>
      b ← bulk_only p;
      Some [if unrelaxed p then GenerateBulk b else SubmitToFW "bulk" b]
  | GenerateSiteMarkers p =>
      bulk ← getitem p "bulk";
      slab ← getitem p "slab";
      if unrelaxed p then
        Some [GenerateSurfaces [("unrelaxed", VBool true); ("bulk", bulk);
                                ("slab", slab)];
              GenerateBulk [("bulk", bulk)]]
      else
        Some [SubmitToFW "slab" [("bulk", bulk); ("slab", slab)];
              SubmitToFW "bulk" [("bulk", bulk)]]
  | GenerateAdslabs p =>
      q ← without_adsorbates p; Some [GenerateSiteMarkers q]
  | CalculateEnergy p =>
      blank ← with_adsorbates p blank_adsorbates;
      co ← gas_only p "CO";
      h2 ← gas_only p "H2";
      h2o ← gas_only p "H2O";
      Some [SubmitToFW "slab+adsorbate" p;
            SubmitToFW "slab+adsorbate" blank;
            SubmitToFW "gas" co; SubmitToFW "gas" h2; SubmitToFW "gas" h2o]
  | FingerprintRelaxedAdslab p =>
      blank ← with_adsorbates p blank_adsorbates;
      Some [CalculateEnergy p; SubmitToFW "slab+adsorbate" blank]
  | FingerprintUnrelaxedAdslabs p =>
      blank ← with_adsorbates p blank_adsorbates;
      Some [GenerateAdslabs p; GenerateAdslabs blank]
  | DumpToLocalDB p =>
      b ← bulk_only p;
      Some [CalculateEnergy p; FingerprintRelaxedAdslab p; SubmitToFW "bulk" b]
  | UpdateEnumerations p => Some [FingerprintUnrelaxedAdslabs p]
  | SubmitToFW calctype p => Some (SubmitToFW_requires calctype p)
  end.

(** [prerequisite a b]: task [b] lists task [a] in its [requires]. *)
Definition prerequisite (a b : Task) : Prop :=
  ∃ l, requires b = Some l ∧ a ∈ l.

End Requires.

(** The position of a task class in the pipeline.  Every [requires]
    method of [tasks.py] returns tasks of a strictly smaller stage. *)
Definition stage (t : Task) : nat :=
  match t with
  | DumpBulkGasToAuxDB => 0
  | GenerateBulk _ => 0
  | GenerateGas _ => 0
  | SubmitToFW calctype _ =>
      if decide (calctype = "bulk") then 1
      else if decide (calctype = "gas") then 1
      else if decide (calctype = "slab") then 3
      else 7
  | GenerateSurfaces _ => 2
  | DumpSurfacesToAuxDB => 3
  | GenerateSiteMarkers _ => 4
  | GenerateAdslabs _ => 5
  | FingerprintUnrelaxedAdslabs _ => 6
  | UpdateEnumerations _ => 7
  | CalculateEnergy _ => 8
  | FingerprintRelaxedAdslab _ => 9
  | DumpToLocalDB _ => 10
  | UpdateAllDB _ _ => 11
  end.

(** The one assumption on the absent [SubmitToFW.requires]: a
    submission only requires tasks of an earlier stage. *)
Definition submission_requires_earlier
    (SubmitToFW_requires : string → dict → list Task) : Prop :=
  ∀ calctype p t,
    t ∈ SubmitToFW_requires calctype p → stage t < stage (SubmitToFW calctype p).

(** Modelled from the spec: [SubmitToFW] is used by [tasks.py] but its
    class is not part of the sources.  The spec stages the pipeline as
    structure generation, then job submission: a submission task
    requires the structure-generation task for its calculation type. *)
Definition SubmitToFW_requires_spec (calctype : string) (p : dict) : list Task :=
  if decide (calctype = "bulk") then [GenerateBulk p]
  else if decide (calctype = "gas") then [GenerateGas p]
  else if decide (calctype = "slab") then [GenerateSurfaces p]
  else [GenerateAdslabs p].

(** A parameter dictionary of the shape the submission scripts build:
    CO on the top side of a (1, 1, 1) slab. *)
Definition sample_parameters : dict :=
  [("bulk", VDict [("mpid", VStr "mp-30")]);
   ("gas", VDict [("gasname", VStr "CO")]);
   ("slab", VDict [("miller", VList [VInt 1; VInt 1; VInt 1]);
                   ("top", VBool true); ("shift", VFloat 0)]);
   ("adsorption",
    VDict [("adsorbates",
            VList [VDict [("name", VStr "CO"); ("atoms", VStr "8002")]])])].

(** *** [output]: the target each task writes *)

Definition LOCAL_DB_PATH : string := "/global/cscratch1/sd/zulissi/GASpy_DB/".

(** [LOCAL_DB_PATH+'/pickles/%s.pkl'%(self.task_id)] *)
Definition pickle_path (task_id : string) : string :=
  LOCAL_DB_PATH +:+ ("/pickles/" +:+ task_id +:+ ".pkl").

Section Output.

(** Luigi computes [task_id] from the task family and the parameters;
    [SubmitToFW.output] is outside [tasks.py]. *)
Variable task_id : Task → string.
Variable SubmitToFW_output : string → dict → option string.

(** [None]: the class defines no [output] and inherits Luigi's empty one. *)
Definition output (t : Task) : option string :=
  match t with
  | DumpBulkGasToAuxDB => None
  | DumpSurfacesToAuxDB => Some (LOCAL_DB_PATH +:+ "/DumpToAuxDB.token")
  | UpdateAllDB _ _ => None
  | SubmitToFW calctype p => SubmitToFW_output calctype p
  | GenerateBulk _ | GenerateGas _ | GenerateSurfaces _
  | GenerateSiteMarkers _ | GenerateAdslabs _ | CalculateEnergy _
  | FingerprintRelaxedAdslab _ | FingerprintUnrelaxedAdslabs _
  | DumpToLocalDB _ | UpdateEnumerations _ => Some (pickle_path (task_id t))
  end.

(** The task classes whose [output] is the pickle named by the task id. *)
Definition parameter_keyed_classes : list (dict → Task) :=
  [GenerateBulk; GenerateGas; GenerateSurfaces; GenerateSiteMarkers;
   GenerateAdslabs; CalculateEnergy; FingerprintRelaxedAdslab;
   FingerprintUnrelaxedAdslabs; DumpToLocalDB; UpdateEnumerations].

(** *** The scheduler *)

(** The files a successful [run] leaves behind: every [run] method of
    [tasks.py] that has an [output] ends by writing that target
    ([with self.output().temporary_path() ...]); none removes a file. *)
Definition written (t : Task) : gset string :=
  match output t with
  | Some f => {[ f ]}
  | None => ∅
  end.

Variable requires : Task → option (list Task).

(** Modelled from the spec: the workflow engine is not part of the
    sources.  The spec describes memoized targets with file-based
    completion tokens: a task is complete when its output file exists
    (a task without output never is; the wrapper task [UpdateAllDB] is
    complete when the tasks it requires have their outputs). *)
Definition has_output (fs : gset string) (t : Task) : bool :=
  match output t with
  | Some f => bool_decide (f ∈ fs)
  | None => false
  end.

Definition requirements_complete (fs : gset string) (t : Task) : bool :=
  match requires t with
  | Some l => forallb (has_output fs) l
  | None => false
  end.

Definition complete (fs : gset string) (t : Task) : bool :=
  match t with
  | UpdateAllDB _ _ => requirements_complete fs t
  | _ => has_output fs t
  end.

(** Modelled from the spec: one scheduler step picks a task that is not
    complete and whose requirements are, and executes its [run]; the run
    either succeeds and leaves its output, or fails and leaves the files
    as they were.  Next to that, [UpdateAllDB.requires] itself calls
    [DumpBulkGasToAuxDB().run()], on every invocation. *)
Inductive step (fs : gset string) : Task → gset string → Prop :=
| step_success t :
    complete fs t = false → requirements_complete fs t = true →
    step fs t (fs ∪ written t)
| step_failure t :
    complete fs t = false → requirements_complete fs t = true →
    step fs t fs
| step_direct : step fs DumpBulkGasToAuxDB fs.

(** [execution fs ts fs']: starting with the files [fs], the scheduler
    runs the tasks [ts] in this order, over any number of pipeline
    invocations, and ends with the files [fs']. *)
Inductive execution : gset string → list Task → gset string → Prop :=
| execution_nil fs : execution fs [] fs
| execution_cons fs t fs1 ts fs2 :
    step fs t fs1 → execution fs1 ts fs2 → execution fs (t :: ts) fs2.

End Output.

(** The task family and the parameters of a task as a tree. *)
Definition leaf : Type := bool + Z + (Z * positive) + string.

Fixpoint value_to_tree (v : value) : gen_tree leaf :=
  match v with
  | VNone => GenNode 0 []
  | VBool b => GenLeaf (inl (inl (inl b)))
  | VInt z => GenLeaf (inl (inl (inr z)))
  | VFloat q => GenLeaf (inl (inr (Qnum q, Qden q)))
  | VStr s => GenLeaf (inr s)
  | VList l => GenNode 1 (value_to_tree <$> l)
  | VDict d =>
      GenNode 2 ((λ '(k, x), GenNode 3 [GenLeaf (inr k); value_to_tree x]) <$> d)
  end.

Definition task_to_tree (t : Task) : gen_tree leaf :=
  let params (p : dict) := value_to_tree (VDict p) in
  match t with
  | DumpBulkGasToAuxDB => GenNode 10 []
  | DumpSurfacesToAuxDB => GenNode 11 []
  | UpdateAllDB writeDB max_processes =>
      GenNode 12 [GenLeaf (inl (inl (inl writeDB)));
                  GenLeaf (inl (inl (inr max_processes)))]
  | GenerateBulk p => GenNode 13 [params p]
  | GenerateGas p => GenNode 14 [params p]
  | GenerateSurfaces p => GenNode 15 [params p]
  | GenerateSiteMarkers p => GenNode 16 [params p]
  | GenerateAdslabs p => GenNode 17 [params p]
  | CalculateEnergy p => GenNode 18 [params p]
  | FingerprintRelaxedAdslab p => GenNode 19 [params p]
  | FingerprintUnrelaxedAdslabs p => GenNode 20 [params p]
  | DumpToLocalDB p => GenNode 21 [params p]
  | UpdateEnumerations p => GenNode 22 [params p]
  | SubmitToFW calctype p => GenNode 23 [GenLeaf (inr calctype); params p]
  end.

(** Modelled from the spec: Luigi's [task_id] is not part of the sources.
    The spec describes the tasks as units of work, each keyed by its
    input parameters, with parameter-keyed outputs: the id spells out
    the task family and every parameter (the tree of the task, numbered,
    in decimal). *)
Definition explicit_task_id (t : Task) : string :=
  pretty (encode (task_to_tree t)).

(** *** [CalculateEnergy.run] *)

(** [np.argmin]: the index of the first smallest entry; it raises on an
    empty sequence. *)
Fixpoint argmin_from (best_i : nat) (best : Q) (i : nat) (l : list Q) : nat :=
  match l with
  | [] => best_i
  | x :: l' =>
      if Qle_bool best x then argmin_from best_i best (S i) l'
      else argmin_from i x (S i) l'
  end.

Definition argmin (l : list Q) : option nat :=
  match l with
  | [] => None
  | x :: l' => Some (argmin_from 0 x 1 l')
  end.

(** [np.min]: it raises on an empty sequence. *)
Definition np_min (l : list Q) : option Q :=
  match l with
  | [] => None
  | x :: l' => Some (foldl (λ m y, if Qle_bool m y then m else y) x l')
  end.

(** [np.sum] of a list of floats. *)
Definition np_sum (l : list Q) : Q := foldl Qplus 0%Q l.

(** [mono_atom_energies]: the per-atom energies as a linear combination
    of the three gas energies; any other symbol is a [KeyError]. *)
Definition mono_atom_energies (CO H2 H2O : Q) (symbol : string) : option Q :=
  if decide (symbol = "H") then Some (H2 / 2)%Q
  else if decide (symbol = "O") then Some (H2O - H2)%Q
  else if decide (symbol = "C") then Some (CO - (H2O - H2))%Q
  else None.

(** [[ads['name'] for ads in parameters['adsorption']['adsorbates']]] *)
Definition adsorbate_names (p : dict) : option (list string) :=
  a ← getitem p "adsorption" ≫= as_dict;
  ads ← getitem a "adsorbates";
  match ads with
  | VList l =>
      mapM (λ ad, d ← as_dict ad; n ← getitem d "name";
                  match n with VStr s => Some s | _ => None end) l
  | _ => None
  end.

(** [parameters['adsorption']['adsorbates']], a list. *)
Definition adsorbates_of (p : dict) : option (list value) :=
  a ← getitem p "adsorption" ≫= as_dict;
  ads ← getitem a "adsorbates";
  match ads with
  | VList l => Some l
  | _ => None
  end.

(** [d[k1][k2]] *)
Definition getitem2 (d : dict) (k1 k2 : string) : option value :=
  d' ← getitem d k1 ≫= as_dict;
  getitem d' k2.

(** [parameters['adsorption']['adsorbates'][0]['adsorption_site']] *)
Definition first_adsorption_site (p : dict) : option value :=
  ads ← adsorbates_of p;
  first ← head ads ≫= as_dict;
  getitem first "adsorption_site".

(** A printed line, as the values put into its format string. *)
Record finished_line : Type := FinishedLine {
  line_name : value;
  line_site : value;
  line_mpid : value;
  line_miller : value;
  line_dE : Q
}.

(** The loop that ends [CalculateEnergy.run], after the pickle is
    written: one line is printed for each adsorbate, and each line reads
    the name of the adsorbate, the site of the first adsorbate, the
    [mpid] of the bulk and the [miller] of the slab.  A key that is
    missing raises [KeyError]. *)
Definition CalculateEnergy_report (p : dict) (dE : Q)
    : option (list finished_line) :=
  ads ← adsorbates_of p;
  mapM (λ ad,
          name ← as_dict ad ≫= (λ d, getitem d "name");
          site ← first_adsorption_site p;
          mpid ← getitem2 p "bulk" "mpid";
          miller ← getitem2 p "slab" "miller";
          Some (FinishedLine name site mpid miller dE)) ads.

Section CalculateEnergy.

(** The documents stored in the pickles, with the potential energy that
    [mongo_doc_atoms(doc).get_potential_energy()] reads off them, and
    [ads_dict(name).get_chemical_symbols()], the chemical symbols of the
    named adsorbate ([None]: no such adsorbate). *)
Variable doc : Type.
Variable get_potential_energy : doc → Q.
Variable ads_dict : string → option (list string).

(** What [run] pickles: the adsorption energy set on the chosen
    structure, and the entries that went into it. *)
Record energy_result : Type := EnergyResult {
  dE : Q;
  result_slab_ads : doc;
  result_slab : doc;
  result_gas : doc * doc * doc
}.

(** The loop [for ads in adsorbates: gas_energy += np.sum(...)]. *)
Fixpoint gas_energy_loop (mono : string → option Q) (names : list string)
    (gas_energy : Q) : option Q :=
  match names with
  | [] => Some gas_energy
  | name :: names' =>
      symbols ← ads_dict name;
      es ← mapM mono symbols;
      gas_energy_loop mono names' (gas_energy + np_sum es)%Q
  end.

(** [run] up to the pickle it writes; the result is the dictionary that
    is pickled.  [inputs] holds the unpickled content of the five
    required targets, in the order of [CalculateEnergy.requires].  The
    loop of prints that follows the pickle is [CalculateEnergy_report],
    and [CalculateEnergy_run_to_end] is the whole of [run]. *)
Definition CalculateEnergy_run (p : dict) (inputs : list (list doc))
    : option energy_result :=
  co ← inputs !! 2%nat ≫= head;
  h2 ← inputs !! 3%nat ≫= head;
  h2o ← inputs !! 4%nat ≫= head;
  let CO := get_potential_energy co in
  let H2 := get_potential_energy h2 in
  let H2O := get_potential_energy h2o in
  slab_ads ← inputs !! 0%nat;
  lowest_energy_slab ← argmin (get_potential_energy <$> slab_ads);
  best_ads ← slab_ads !! lowest_energy_slab;
  let slab_ads_energy := get_potential_energy best_ads in
  slab_blank ← inputs !! 1%nat;
  lowest_energy_blank ← argmin (get_potential_energy <$> slab_blank);
  slab_blank_energy ← np_min (get_potential_energy <$> slab_blank);
  names ← adsorbate_names p;
  gas_energy ← gas_energy_loop (mono_atom_energies CO H2 H2O) names 0%Q;
  best_blank ← slab_blank !! lowest_energy_blank;
  Some {| dE := (slab_ads_energy - slab_blank_energy - gas_energy)%Q;
          result_slab_ads := best_ads;
          result_slab := best_blank;
          result_gas := (co, h2, h2o) |}.

(** The whole of [run]: the pickle is written, then the lines are
    printed.  [None]: an exception leaves [run], before the pickle or
    after it.  The loads, [mongo_doc_atoms], [get_forces] and the dump
    are taken to succeed. *)
Definition CalculateEnergy_run_to_end (p : dict) (inputs : list (list doc))
    : option (energy_result * list finished_line) :=
  towrite ← CalculateEnergy_run p inputs;
  printed ← CalculateEnergy_report p (dE towrite);
  Some (towrite, printed).

End CalculateEnergy.

Arguments EnergyResult {doc}.
Arguments dE {doc}.
Arguments result_slab_ads {doc}.
Arguments result_slab {doc}.
Arguments result_gas {doc}.
Arguments CalculateEnergy_run {doc}.
Arguments CalculateEnergy_run_to_end {doc}.

(** [adsorbates_dict] of [gaspy/defaults.py], as the chemical symbols of
    each entry. *)
Definition adsorbates_dict (name : string) : option (list string) :=
  if decide (name = "") then Some []
  else if decide (name = "U") then Some ["U"]
  else if decide (name = "H") then Some ["H"]
  else if decide (name = "O") then Some ["O"]
  else if decide (name = "C") then Some ["C"]
  else if decide (name = "CO") then Some ["C"; "O"]
  else if decide (name = "OH") then Some ["O"; "H"]
  else if decide (name = "OOH") then Some ["O"; "O"; "H"]
  else None.

(** How often a symbol occurs among the atoms of an adsorbate. *)
Definition count_atoms (symbol : string) (symbols : list string) : nat :=
  length (filter (λ s, s = symbol) symbols).

(** The atoms of all the adsorbates of a task. *)
Definition adsorbate_atoms (ads_dict : string → option (list string))
    (names : list string) : list string :=
  concat (omap ads_dict names).

(** The energy of the stoichiometric amount of reference species for a
    list of atoms, by the number of H, O and C atoms in it. *)
Definition reference_energy (CO H2 H2O : Q) (symbols : list string) : Q :=
  (inject_Z (Z.of_nat (count_atoms "H" symbols)) * (H2 / 2)
   + inject_Z (Z.of_nat (count_atoms "O" symbols)) * (H2O - H2)
   + inject_Z (Z.of_nat (count_atoms "C" symbols)) * (CO - (H2O - H2)))%Q.

(** The adsorbate is known and made of H, O and C atoms only. *)
Definition referenced_adsorbate (ads_dict : string → option (list string))
    (name : string) : Prop :=
  ∃ symbols, ads_dict name = Some symbols
             ∧ Forall (λ s, s ∈ ["H"; "O"; "C"]) symbols.

(** [m] is a smallest element of the list [l]. *)
Definition is_minimum (m : Q) (l : list Q) : Prop :=
  m ∈ l ∧ ∀ x, x ∈ l → (m <= x)%Q.

(** *** [DumpBulkGasToAuxDB.run] *)

(** A firework of the launchpad (the Primary DB), and a document of the
    Auxiliary DB.  The atoms, trajectory and settings that
    [get_firework_info] and [mongo_doc] attach to a document are left
    out: the run neither branches on them nor reads them back. *)
Record firework : Type := Firework {
  fw_id : Z;
  fw_state : string;
  fw_name : dict;
  launch_dir : string
}.

Record aux_doc : Type := AuxDoc {
  doc_fwid : option Z;
  doc_type : option string;
  doc_fwname : dict;
  doc_directory : string
}.

(** [v == 'literal'] for a value [v] *)
Definition eq_str (v : value) (s : string) : bool :=
  match v with
  | VStr s' => bool_decide (s' = s)
  | _ => false
  end.

(** [fw.name['calculation_type']] *)
Definition calculation_type (fw : firework) : option value :=
  getitem (fw_name fw) "calculation_type".

(** The Mongo match of ['name.calculation_type'] against a string. *)
Definition has_calculation_type (fw : firework) (ct : string) : bool :=
  match calculation_type fw with
  | Some v => eq_str v ct
  | None => false
  end.

(** [lpad.get_fw_ids({'state': state, 'name.calculation_type': ct})] *)
Definition get_fw_ids (lpad : list firework) (state ct : string) : list Z :=
  fw_id <$> filter (λ fw, fw_state fw = state
                          ∧ has_calculation_type fw ct = true) lpad.

(** [lpad.get_fw_by_id(fwid)] *)
Definition get_fw_by_id (lpad : list firework) (fwid : Z) : option firework :=
  head (filter (λ fw, fw_id fw = fwid) lpad).

Section DumpBulkGas.

(** [eval] of a Miller index stored as a string. *)
Variable eval_miller : string → value.

(** The body of the loop for one firework: the document written to the
    Auxiliary DB. *)
Definition harvest_doc (fw : firework) (fwid : Z) : option aux_doc :=
  ct ← calculation_type fw;
  let type :=
    if eq_str ct "unit cell optimization" then Some "bulk"
    else if eq_str ct "gas phase optimization" then Some "gas"
    else None in
  let fwname :=
    match getitem (fw_name fw) "miller" with
    | Some (VStr m) => setitem (fw_name fw) "miller" (eval_miller m)
    | _ => fw_name fw
    end in
  _ ← type;
  Some {| doc_fwid := Some fwid; doc_type := type;
          doc_fwname := fwname; doc_directory := launch_dir fw |}.

(** The loop over [fws_cmpltd]; [fws] is read once, before the loop. *)
Fixpoint harvest_loop (lpad : list firework) (fws : list Z)
    (fws_cmpltd : list Z) (aux_db : list aux_doc) : option (list aux_doc) :=
  match fws_cmpltd with
  | [] => Some aux_db
  | fwid :: rest =>
      if bool_decide (fwid ∈ fws) then harvest_loop lpad fws rest aux_db
      else
        fw ← get_fw_by_id lpad fwid;
        doc ← harvest_doc fw fwid;
        harvest_loop lpad fws rest (aux_db ++ [doc])
  end.

(** The FireWorks ids already in the Auxiliary DB:
    [[a['fwid'] for a in aux_db.find({'fwid': {'$exists': True}})]]. *)
Definition dumped_fwids (aux_db : list aux_doc) : list Z := omap doc_fwid aux_db.

Definition completed_bulk_gas (lpad : list firework) : list Z :=
  get_fw_ids lpad "COMPLETED" "unit cell optimization"
  ++ get_fw_ids lpad "COMPLETED" "gas phase optimization".

(** The run maps the Auxiliary DB before to the Auxiliary DB after. *)
Definition DumpBulkGasToAuxDB_run (lpad : list firework)
    (aux_db : list aux_doc) : option (list aux_doc) :=
  harvest_loop lpad (dumped_fwids aux_db) (completed_bulk_gas lpad) aux_db.

End DumpBulkGas.

(** A completed unit-cell or gas-phase firework of the launchpad. *)
Definition completed_bulk_or_gas (lpad : list firework) (fwid : Z) : Prop :=
  ∃ fw, fw ∈ lpad ∧ fw_id fw = fwid ∧ fw_state fw = "COMPLETED"
        ∧ (has_calculation_type fw "unit cell optimization" = true
           ∨ has_calculation_type fw "gas phase optimization" = true).

(** A launchpad with a relaxed bulk, a relaxed gas, a running bulk and a
    relaxed slab, and an Auxiliary DB that already holds the bulk. *)
Definition sample_launchpad : list firework :=
  [ {| fw_id := 1; fw_state := "COMPLETED";
       fw_name := [("calculation_type", VStr "unit cell optimization");
                   ("mpid", VStr "mp-30")];
       launch_dir := "/launch/1" |};
    {| fw_id := 2; fw_state := "COMPLETED";
       fw_name := [("calculation_type", VStr "gas phase optimization");
                   ("gasname", VStr "CO")];
       launch_dir := "/launch/2" |};
    {| fw_id := 3; fw_state := "RUNNING";
       fw_name := [("calculation_type", VStr "unit cell optimization");
                   ("mpid", VStr "mp-2")];
       launch_dir := "/launch/3" |};
    {| fw_id := 4; fw_state := "COMPLETED";
       fw_name := [("calculation_type", VStr "slab optimization");
                   ("miller", VStr "(1, 1, 1)")];
       launch_dir := "/launch/4" |} ].

Definition sample_aux_db : list aux_doc :=
  [ {| doc_fwid := Some 1%Z; doc_type := Some "bulk";
       doc_fwname := [("calculation_type", VStr "unit cell optimization");
                      ("mpid", VStr "mp-30")];
       doc_directory := "/launch/1" |} ].

(** *** [GenerateSurfaces.run] *)

(** A symmetry operation, by the entries of [as_dict()['matrix']]. *)
Record symm_op : Type := SymmOp { matrix : nat → nat → Q }.

(** A slab as [SlabGenerator.get_slabs] returns it, with the symmetry
    operations that [SpacegroupAnalyzer(slab).get_symmetry_operations()]
    finds for it. *)
Record slab : Type := Slab {
  miller_index : Z * Z * Z;
  slab_shift : Q;
  symm_ops : list symm_op
}.

(** The [tags] dictionary of a saved slab document. *)
Record slab_tags : Type := SlabTags {
  tag_type : string;
  tag_top : bool;
  tag_mpid : value;
  tag_miller : value;
  tag_shift : Q;
  tag_num_slab_atoms : nat;
  tag_relaxed : bool;
  tag_slab_generate_settings : value;
  tag_get_slab_settings : value
}.

Section GenerateSurfaces.

(** ASE atoms objects: the slab converted and turned so that its
    surface points up the z axis, the same turned upside down
    ([rotate('x', math.pi)]), and the number of atoms. *)
Variable atoms : Type.
Variable oriented_atoms : slab → atoms.
Variable flipped : atoms → atoms.
Variable num_atoms : atoms → nat.

Record slab_doc : Type := SlabDoc {
  doc_atoms : atoms;
  tags : slab_tags
}.

(** [len([a for a in slabs if a.miller_index == slab.miller_index]) == 1] *)
Definition only_one_with_miller (slabs : list slab) (s : slab) : bool :=
  bool_decide (length (filter (λ a, miller_index a = miller_index s) slabs) = 1%nat).

(** [True in map(lambda x: x.as_dict()['matrix'][2][2] == -1, symm_ops)] *)
Definition z_invertible (s : slab) : bool :=
  existsb (λ x, Qeq_bool (matrix x 2 2) (-1)) (symm_ops s).

(** The body of the loop: the documents appended for one slab. *)
Definition save_slab (p : dict) (miller sgs gss : value) (slabs : list slab)
    (s : slab) : option (list slab_doc) :=
  let shift := if only_one_with_miller slabs s then 0%Q else slab_shift s in
  let atoms_slab := oriented_atoms s in
  let top := true in
  bulk ← getitem p "bulk" ≫= as_dict;
  mpid ← getitem bulk "mpid";
  let tags_of (top : bool) (a : atoms) :=
    {| tag_type := "slab"; tag_top := top; tag_mpid := mpid;
       tag_miller := miller; tag_shift := shift;
       tag_num_slab_atoms := num_atoms a; tag_relaxed := false;
       tag_slab_generate_settings := sgs; tag_get_slab_settings := gss |} in
  let first := {| doc_atoms := atoms_slab; tags := tags_of top atoms_slab |} in
  if negb (z_invertible s) then
    let atoms_down := flipped atoms_slab in
    Some [first; {| doc_atoms := atoms_down; tags := tags_of (negb top) atoms_down |}]
  else Some [first].

(** [slabs] is what [gen.get_slabs(...)] returned; the result is the
    list [slabsave] that the run pickles. *)
Definition GenerateSurfaces_run (p : dict) (slabs : list slab)
    : option (list slab_doc) :=
  sl ← getitem p "slab" ≫= as_dict;
  miller ← getitem sl "miller";
  sgs ← getitem sl "slab_generate_settings";
  gss ← getitem sl "get_slab_settings";
  saved ← mapM (save_slab p miller sgs gss slabs) slabs;
  Some (concat saved).

End GenerateSurfaces.

Arguments SlabDoc {atoms}.
Arguments doc_atoms {atoms}.
Arguments tags {atoms}.
Arguments save_slab {atoms}.
Arguments GenerateSurfaces_run {atoms}.

(** The shift the tags should carry: zero for a slab that is alone with
    its Miller index among the generated slabs, else its own shift. *)
Definition expected_shift (slabs : list slab) (s : slab) : Q :=
  if decide (length (filter (λ a, miller_index a = miller_index s) slabs) = 1%nat)
  then 0%Q else slab_shift s.

(** No symmetry operation of the slab has matrix entry [2][2] equal
    to -1. *)
Definition no_z_inversion (s : slab) : Prop :=
  ∀ op, op ∈ symm_ops s → ¬ (matrix op 2 2 == -1)%Q.

(** The documents saved for one slab [s]: the first one, and the second
    one exactly when [s] has no z inversion. *)
Definition saved_for {atoms : Type} (oriented_atoms : slab → atoms)
    (flipped : atoms → atoms) (mpid miller : value) (slabs : list slab)
    (s : slab) (docs : list (slab_doc atoms)) : Prop :=
  ∃ first,
    doc_atoms first = oriented_atoms s
    ∧ tag_top (tags first) = true
    ∧ tag_shift (tags first) = expected_shift slabs s
    ∧ tag_mpid (tags first) = mpid
    ∧ tag_miller (tags first) = miller
    ∧ ((¬ no_z_inversion s ∧ docs = [first])
       ∨ (no_z_inversion s
          ∧ ∃ second,
              docs = [first; second]
              ∧ doc_atoms second = flipped (oriented_atoms s)
              ∧ tag_top (tags second) = false
              ∧ tag_shift (tags second) = tag_shift (tags first)
              ∧ tag_mpid (tags second) = tag_mpid (tags first)
              ∧ tag_miller (tags second) = tag_miller (tags first))).

(** Parameters for cutting (1, 1, 1) slabs and three slabs to save: two
    with the same Miller index, the second with a mirror plane normal to
    z, and one alone with its Miller index. *)
Definition sample_surface_parameters : dict :=
  [("bulk", VDict [("mpid", VStr "mp-30")]);
   ("slab", VDict [("miller", VList [VInt 1; VInt 1; VInt 1]);
                   ("slab_generate_settings", VDict [("min_slab_size", VFloat 7)]);
                   ("get_slab_settings", VDict [("tol", VFloat (3 # 10))])])].

Definition identity_op : symm_op :=
  {| matrix := λ i j, if decide (i = j) then 1%Q else 0%Q |}.

Definition z_mirror_op : symm_op :=
  {| matrix := λ i j, if decide (i = j)
                      then (if decide (i = 2%nat) then (-1)%Q else 1%Q)
                      else 0%Q |}.

Definition sample_slabs : list slab :=
  [ {| miller_index := (1, 1, 1)%Z; slab_shift := 1 # 4;
       symm_ops := [identity_op] |};
    {| miller_index := (1, 1, 1)%Z; slab_shift := 3 # 4;
       symm_ops := [identity_op; z_mirror_op] |};
    {| miller_index := (1, 1, 0)%Z; slab_shift := 1 # 2;
       symm_ops := [identity_op] |} ].

End Tasks.

(** ** [gaspy/gasdb.py] *)

Module Gasdb.
Import Py.

(** [doc.keys() != expected_keys], the two compared as key views: the
    same keys, in whatever order. *)
Definition keys_differ (ks expected_keys : list string) : bool :=
  negb (bool_decide (ks ⊆ expected_keys ∧ expected_keys ⊆ ks)).

(** [value is None] for some value of the document. *)
Definition has_None (d : dict) : bool :=
  existsb (λ kv, match kv.2 with VNone => true | _ => false end) d.

(** The loop of [_clean_up_aggregated_docs] over the [_id] payloads. *)
Fixpoint clean_loop (docs : list dict) (expected_keys : list string)
    (cleaned_docs : list dict) : list dict :=
  match docs with
  | [] => cleaned_docs
  | doc :: docs' =>
      if keys_differ (keys doc) expected_keys then cleaned_docs
      else if has_None doc then clean_loop docs' expected_keys cleaned_docs
      else clean_loop docs' expected_keys (cleaned_docs ++ [doc])
  end.

(** [docs = [doc['_id'] for doc in docs]], then the loop.  The warning
    issued for an empty result does not change what is returned. *)
Definition _clean_up_aggregated_docs (docs : list dict)
    (expected_keys : list string) : option (list dict) :=
  payloads ← mapM (λ doc, getitem doc "_id" ≫= as_dict) docs;
  Some (clean_loop payloads expected_keys []).

(** What the docstring of [_clean_up_aggregated_docs] describes: the
    documents with the right keys and no [None] value, in order. *)
Definition is_clean (expected_keys : list string) (d : dict) : bool :=
  negb (keys_differ (keys d) expected_keys) && negb (has_None d).

Definition clean_sublist (payloads : list dict) (expected_keys : list string)
    : list dict :=
  List.filter (is_clean expected_keys) payloads.

(** The documents up to the first one whose keys are not the expected
    ones. *)
Fixpoint before_wrong_keys (payloads : list dict) (expected_keys : list string)
    : list dict :=
  match payloads with
  | [] => []
  | doc :: payloads' =>
      if keys_differ (keys doc) expected_keys then []
      else doc :: before_wrong_keys payloads' expected_keys
  end.

(** Two aggregated documents: the first lacks the expected key, the
    second is as expected. *)
Definition sample_aggregated_docs : list dict :=
  [ [("_id", VDict [("formula", VStr "Cu")])];
    [("_id", VDict [("mpid", VStr "mp-30")])] ].

(** A float as [round(value, 2)] returns it: so many hundredths, and a
    sign.  The sign is kept apart because a Python float has a negative
    zero, which is equal to zero and is printed as ['-0.0']. *)
Record rounded : Type := Rounded { negative : bool; hundredths : Z }.

(** [round(value, 2)] in Python 2, which the code is written for (it
    tests for [unicode]): to two decimal places, halves away from zero,
    the sign of the value kept.  A negative value closer to zero than to
    a hundredth gives the negative zero. *)
Definition round2 (q : Q) : rounded :=
  {| negative := (Qnum q <? 0)%Z;
     hundredths := Qfloor (Qabs q * 100 + 1 / 2) |}.

(** [==] on two rounded floats: the same hundredths with the same sign,
    or two zeros of any sign. *)
Definition rounded_eq (a b : rounded) : Prop :=
  hundredths a = hundredths b
  ∧ (negative a = negative b ∨ hundredths a = 0%Z).

(** The value [str] is applied to: a float after [round], any other value
    as it is in the document. *)
Inductive cleaned : Type :=
  | CleanFloat (f : rounded)
  | CleanOther (v : value).

(** [if isinstance(value, float): value = round(value, 2)] *)
Definition clean_value (v : value) : cleaned :=
  match v with
  | VFloat q => CleanFloat (round2 q)
  | _ => CleanOther v
  end.

(** Two cleaned values that Python's [==] takes as equal. *)
Definition cleaned_eq (c1 c2 : cleaned) : Prop :=
  match c1, c2 with
  | CleanFloat a, CleanFloat b => rounded_eq a b
  | CleanOther v, CleanOther w => v = w
  | _, _ => False
  end.

Section Hash.

(** Python's [str] (on a value after the clean-up) and [hash]
    built-ins. *)
Variable py_str : cleaned → string.
Variable py_hash : string → Z.

(** [sorted(doc.keys())] *)
Definition sorted_keys (doc : dict) : list string :=
  merge_sort String.le (keys doc).

(** One pass of the loop body: what a key adds to [system]. *)
Definition hash_entry (doc : dict) (ignore_keys : list string) (key : string)
    : string :=
  if bool_decide (key ∈ ignore_keys) then ""
  else
    match getitem doc key with
    | Some value => key +:+ "=" +:+ py_str (clean_value value) +:+ "; "
    | None => ""
    end.

(** The string [system] after the loop. *)
Definition system_string (doc : dict) (ignore_keys : list string) : string :=
  foldl (λ system key, system +:+ hash_entry doc ignore_keys key) ""
    (sorted_keys doc).

(** [_hash_doc]: the hash of [system], or [system] itself when
    [_return_hash] is false. *)
Definition _hash_doc (doc : dict) (ignore_keys : list string)
    (_return_hash : bool) : Z + string :=
  if _return_hash then inl (py_hash (system_string doc ignore_keys))
  else inr (system_string doc ignore_keys).

(** [_hash_docs]: ['mongo_id'] is appended to the ignored keys. *)
Definition _hash_docs (docs : list dict) (ignore_keys : list string)
    (_return_hashes : bool) : list (Z + string) :=
  let ignore_keys := (ignore_keys ++ ["mongo_id"])%list in
  (λ doc, _hash_doc doc ignore_keys _return_hashes) <$> docs.

End Hash.

(** Two documents agree outside a set of keys: each other key is in both
    or in neither, with values that are the same once floats are
    rounded, the sign of a zero included. *)
Definition agree_outside (ignored : list string) (d1 d2 : dict) : Prop :=
  ∀ k, k ∉ ignored →
    clean_value <$> getitem d1 k = clean_value <$> getitem d2 k.

(** Two documents agree outside a set of keys up to rounding: each other
    key is in both or in neither, with values that are equal, floats
    being compared after [round(value, 2)]. *)
Definition agree_rounded (ignored : list string) (d1 d2 : dict) : Prop :=
  ∀ k, k ∉ ignored →
    option_Forall2 cleaned_eq
      (clean_value <$> getitem d1 k) (clean_value <$> getitem d2 k).

(** Two documents for the same site: they differ in the Mongo id, in the
    ignored formula, in the order of their keys, and in the third
    decimal place of the energy. *)
Definition sample_doc_1 : dict :=
  [("mongo_id", VStr "5a"); ("mpid", VStr "mp-30");
   ("energy", VFloat (-1234 # 1000)); ("formula", VStr "Cu")].

Definition sample_doc_2 : dict :=
  [("formula", VStr "Cu2"); ("energy", VFloat (-1231 # 1000));
   ("mpid", VStr "mp-30"); ("mongo_id", VStr "5b")].

(** Two documents with one float each, of opposite signs, both closer
    to zero than to a hundredth. *)
Definition sample_doc_below_zero : dict := [("shift", VFloat (-1 # 1000))].
Definition sample_doc_above_zero : dict := [("shift", VFloat (1 # 1000))].

(** [str] of a rounded float below [1e10], as Python prints it: the
    sign, the whole part, and one or two decimals. *)
Definition float_str (f : rounded) : string :=
  let whole := (hundredths f / 100)%Z in
  let cents := (hundredths f mod 100)%Z in
  (if negative f then "-" else "")
  +:+ pretty whole +:+ "."
  +:+ (if (cents mod 10 =? 0)%Z then pretty (cents / 10)%Z
       else pretty (cents / 10)%Z +:+ pretty (cents mod 10)%Z).

(** Stand-ins for Python's [str] and [hash] on the samples. *)
Definition sample_str (c : cleaned) : string :=
  match c with
  | CleanOther (VStr s) => s
  | CleanFloat f => float_str f
  | _ => "?"
  end.

Definition sample_hash (s : string) : Z := Z.of_nat (String.length s).

End Gasdb.

(** ** [gaspy/defaults.py] *)

Module Defaults.
Import Py.

(** The store of dictionary objects: a settings mapping handed to a
    function is a reference into it, so that a mutation through one
    handle is seen through every other. *)
Definition loc : Type := positive.
Definition heap : Type := gmap loc dict.

(** The [settings] argument: a string naming an exchange-correlation
    functional, or a handle to a mapping. *)
Inductive settings_arg : Type :=
| SettingsStr (xc : string)
| SettingsRef (l : loc).

(** Allocating a new object. *)
Definition alloc (d : dict) (h : gmap loc dict) : loc * gmap loc dict :=
  let l := fresh (dom h) in (l, <[l := d]> h).

(** [OrderedDict(k1=v1, ..., **settings)]: a key given twice is a
    [TypeError]. *)
Definition with_kwargs (explicit settings : dict) : option dict :=
  if bool_decide (Forall (λ k, k ∉ keys explicit) (keys settings))
  then Some (explicit ++ settings)%list else None.

Section Defaults.

(** [Vasp.xc_defaults], the table of the [vasp] package. *)
Variable xc_defaults : string → option dict.

Definition xc_settings (xc : string) : option dict :=
  if decide (xc = "rpbe") then Some [("gga", VStr "RP"); ("pp", VStr "PBE")]
  else xc_defaults xc.

(** [calc_settings] builds a new dictionary on every call. *)
Definition calc_settings (xc : string) : option dict :=
  let settings := [("encut", VInt 350); ("pp_version", VStr "5.4")] in
  default_settings ← xc_settings xc;
  Some (foldl (λ settings kv, setitem settings kv.1 kv.2)
          settings default_settings).

(** [if isinstance(settings, str): settings = calc_settings(settings)]:
    the handle that [settings] is bound to afterwards. *)
Definition resolve_settings (settings : settings_arg) (h : gmap loc dict)
    : option (loc * gmap loc dict) :=
  match settings with
  | SettingsStr xc => d ← calc_settings xc; Some (alloc d h)
  | SettingsRef l => _ ← h !! l; Some (l, h)
  end.

(** [gas_parameters]: the returned dictionary and the store after the
    call. *)
Definition gas_parameters (gasname : string) (settings : settings_arg)
    (h : gmap loc dict) : option (dict * gmap loc dict) :=
  '(l, h1) ← resolve_settings settings h;
  s ← h1 !! l;
  vasp_settings ←
    with_kwargs [("ibrion", VInt 2); ("nsw", VInt 100); ("isif", VInt 0);
                 ("kpts", VList [VInt 1; VInt 1; VInt 1]);
                 ("ediffg", VFloat (-3 # 100))] s;
  Some ([("gasname", VStr gasname); ("relaxed", VBool true);
         ("vasp_settings", VDict vasp_settings)], h1).

(** [bulk_parameters].  [copy.deepcopy] allocates a new object, and the
    assignment [settings['encut'] = encut] goes through the new handle. *)
Definition bulk_parameters (mpid : string) (settings : settings_arg)
    (encut : Q) (max_atoms : Z) (h : gmap loc dict)
    : option (dict * gmap loc dict) :=
  '(l, h1) ← resolve_settings settings h;
  s ← h1 !! l;
  let '(l2, h2) := alloc s h1 in
  s2 ← h2 !! l2;
  let h3 := <[l2 := setitem s2 "encut" (VFloat encut)]> h2 in
  s3 ← h3 !! l2;
  vasp_settings ←
    with_kwargs [("ibrion", VInt 1); ("nsw", VInt 100); ("isif", VInt 7);
                 ("isym", VInt 0); ("ediff", VFloat (1 # 100000000));
                 ("kpts", VList [VInt 10; VInt 10; VInt 10]);
                 ("prec", VStr "Accurate")] s3;
  Some ([("mpid", VStr mpid); ("relaxed", VBool true);
         ("max_atoms", VInt max_atoms);
         ("vasp_settings", VDict vasp_settings)], h3).

(** The same function without the [copy.deepcopy] line, to compare. *)
Definition bulk_parameters_no_copy (mpid : string) (settings : settings_arg)
    (encut : Q) (max_atoms : Z) (h : gmap loc dict)
    : option (dict * gmap loc dict) :=
  '(l, h1) ← resolve_settings settings h;
  s ← h1 !! l;
  let h3 := <[l := setitem s "encut" (VFloat encut)]> h1 in
  s3 ← h3 !! l;
  vasp_settings ←
    with_kwargs [("ibrion", VInt 1); ("nsw", VInt 100); ("isif", VInt 7);
                 ("isym", VInt 0); ("ediff", VFloat (1 # 100000000));
                 ("kpts", VList [VInt 10; VInt 10; VInt 10]);
                 ("prec", VStr "Accurate")] s3;
  Some ([("mpid", VStr mpid); ("relaxed", VBool true);
         ("max_atoms", VInt max_atoms);
         ("vasp_settings", VDict vasp_settings)], h3).

(** [d['vasp_settings']['encut']] of a returned parameter dictionary. *)
Definition encut_of (parameters : dict) : option value :=
  vs ← getitem parameters "vasp_settings" ≫= as_dict; getitem vs "encut".

(** The mapping that the [settings] argument stands for. *)
Definition settings_content (settings : settings_arg) (h : gmap loc dict)
    : option dict :=
  match settings with
  | SettingsStr xc => calc_settings xc
  | SettingsRef l => h !! l
  end.

End Defaults.

(** The keywords that [bulk_parameters] and [gas_parameters] spell out
    next to [**settings]. *)
Definition bulk_keywords : list string :=
  ["ibrion"; "nsw"; "isif"; "isym"; "ediff"; "kpts"; "prec"].

Definition gas_keywords : list string :=
  ["ibrion"; "nsw"; "isif"; "kpts"; "ediffg"].

(** A store with one settings mapping, as [tasks.py] builds them from a
    row of the Auxiliary DB. *)
Definition sample_settings : dict :=
  [("gga", VStr "RP"); ("encut", VInt 350); ("pp", VStr "PBE")].

Definition sample_heap : gmap loc dict := {[ 1%positive := sample_settings ]}.

(** A sample table for [Vasp.xc_defaults], with an entry for the
    functional that the functions default to. *)
Definition sample_xc_defaults (xc : string) : option dict :=
  if decide (xc = "beef-vdw")
  then Some [("gga", VStr "BF"); ("luse_vdw", VBool true);
             ("zab_vdw", VFloat (-18867 # 10000)); ("lbeefens", VBool true)]
  else None.

End Defaults.

(** ** More of [tasks.py] *)

Module Pipeline.
Import Py Tasks.

(** The rows for which [UpdateAllDB.requires] makes a task, the limit
    aside: the firework is not in the Local DB yet and the row has an
    adsorbate. *)
Definition eligible_rows (local_fwids : list Z) (rows : list aux_row)
    : list aux_row :=
  filter (λ row, (row_fwid row ∉ local_fwids) ∧ (row_adsorbate row ≠ "")) rows.

(** The task made for a row. *)
Definition row_task (writeDB : bool) (row : aux_row) : Task :=
  if writeDB then DumpToLocalDB (row_parameters row)
  else FingerprintRelaxedAdslab (row_parameters row).

(** The rows that the loop gets to look at under [max_processes]. *)
Definition considered_rows (max_processes : Z) (rows : list aux_row)
    : list aux_row :=
  if (max_processes =? 0)%Z then rows
  else if (0 <? max_processes)%Z then take (Z.to_nat (max_processes - 1)) rows
  else [].

(** The tasks that only generate structures: [GenerateBulk], and
    [GenerateSurfaces] of an unrelaxed bulk. *)
Definition generates_only (t : Task) : Prop :=
  match t with
  | GenerateBulk _ => True
  | GenerateSurfaces q => unrelaxed q = true
  | _ => False
  end.

(** Site-marker parameters for an unrelaxed enumeration. *)
Definition sample_unrelaxed_parameters : dict :=
  [("unrelaxed", VBool true);
   ("bulk", VDict [("mpid", VStr "mp-30")]);
   ("slab", VDict [("miller", VList [VInt 1; VInt 1; VInt 1])]);
   ("adsorption", VDict [("min_xy", VFloat (9 # 2))])].

End Pipeline.

(** ** [FingerprintUnrelaxedAdslabs.run] and [UpdateEnumerations.run] *)

Module Enumeration.
Import Py Tasks.

Section Fingerprint.

(** [len] of an atoms object and the [fingerprint] helper, both outside
    [tasks.py]; an atoms object is an opaque value of a document. *)
Variable len_atoms : value → nat.
Variable fingerprint : value → nat → dict.

(** The body of the loop over [adslabs]: a bare adslab gets the empty
    fingerprint, and the keys of the fingerprint are assigned to the
    adslab. *)
Definition fingerprint_adslab (expected_slab_atoms : nat) (adslab : dict)
    : option dict :=
  adsorbate ← getitem adslab "adsorbate";
  fp ← (if eq_str adsorbate "" then Some []
        else atoms ← getitem adslab "atoms";
             Some (fingerprint atoms expected_slab_atoms));
  Some (foldl (λ adslab kv, setitem adslab kv.1 kv.2) adslab fp).

(** [adslabs] and [slab] are the unpickled outputs of the two required
    [GenerateAdslabs] tasks; the result is the list the run pickles. *)
Definition FingerprintUnrelaxedAdslabs_run (adslabs slab : list dict)
    : option (list dict) :=
  slab0 ← head slab;
  atoms0 ← getitem slab0 "atoms";
  mapM (fingerprint_adslab (len_atoms atoms0)) adslabs.

End Fingerprint.

(** [np.unique(keys, return_index=True)[1]]: for each distinct key, in
    sorted order, the index of its first occurrence. *)
Definition np_unique_index (keys : list string) : list nat :=
  omap (λ k, fst <$> list_find (λ k', k' = k) keys)
    (merge_sort String.le (remove_dups keys)).

(** A row of the database of enumerated adsorption sites. *)
Record site_row : Type := SiteRow {
  site_atoms : value;
  site_shift : value;
  site_miller : string;
  site_mpid : value;
  site_adsorbate : value;
  site_top : value;
  site_adsorption_site : value;
  site_coordination : value;
  site_neighborcoord : string;
  site_nextnearestcoordination : string
}.

Section UpdateEnumerations.

(** Python's [str]. *)
Variable py_str : value → string.

(** [str([x['shift'], x['coordination'], x['neighborcoord']])] *)
Definition config_key (config : dict) : option string :=
  shift ← getitem config "shift";
  coordination ← getitem config "coordination";
  neighborcoord ← getitem config "neighborcoord";
  Some (py_str (VList [shift; coordination; neighborcoord])).

(** The configurations [configs[i] for i in unq_inds]. *)
Definition unique_configs (configs : list dict) : option (list dict) :=
  keys ← mapM config_key configs;
  mapM (λ i, configs !! i) (np_unique_index keys).

(** The arguments of [con.write] for one configuration. *)
Definition write_site (p : dict) (config : dict) : option site_row :=
  atoms ← getitem config "atoms";
  shift ← getitem config "shift";
  slab ← getitem p "slab" ≫= as_dict;
  miller ← getitem slab "miller";
  bulk ← getitem p "bulk" ≫= as_dict;
  mpid ← getitem bulk "mpid";
  adsorption ← getitem p "adsorption" ≫= as_dict;
  adsorbates ← getitem adsorption "adsorbates";
  adsorbate0 ← match adsorbates with
                | VList (a :: _) => as_dict a
                | _ => None
                end;
  name ← getitem adsorbate0 "name";
  top ← getitem config "top";
  adsorption_site ← getitem config "adsorption_site";
  coordination ← getitem config "coordination";
  neighborcoord ← getitem config "neighborcoord";
  nextnearestcoordination ← getitem config "nextnearestcoordination";
  Some {| site_atoms := atoms; site_shift := shift;
          site_miller := py_str miller; site_mpid := mpid;
          site_adsorbate := name; site_top := top;
          site_adsorption_site := adsorption_site;
          site_coordination := coordination;
          site_neighborcoord := py_str neighborcoord;
          site_nextnearestcoordination := py_str nextnearestcoordination |}.

(** The rows written to the database, in the order written. *)
Definition UpdateEnumerations_run (p : dict) (configs : list dict)
    : option (list site_row) :=
  selected ← unique_configs configs;
  mapM (write_site p) selected.

(** A configuration is the first of the list with its key. *)
Definition first_with_key (configs : list dict) (config : dict) : Prop :=
  ∃ i, configs !! i = Some config
       ∧ ∀ j c, j < i → configs !! j = Some c →
                config_key c ≠ config_key config.

End UpdateEnumerations.

(** Three enumerated sites, the first and the last with the same shift,
    coordination and neighbours. *)
Definition sample_configs : list dict :=
  [ [("atoms", VStr "a1"); ("shift", VFloat (1 # 4)); ("top", VBool true);
     ("adsorption_site", VStr "[0. 0. 1.]"); ("coordination", VStr "Cu-Cu");
     ("neighborcoord", VList [VStr "Cu:Cu-Cu"]);
     ("nextnearestcoordination", VStr "Cu")];
    [("atoms", VStr "a2"); ("shift", VFloat (1 # 4)); ("top", VBool true);
     ("adsorption_site", VStr "[1. 0. 1.]"); ("coordination", VStr "Cu");
     ("neighborcoord", VList [VStr "Cu:Cu"]);
     ("nextnearestcoordination", VStr "Cu")];
    [("atoms", VStr "a3"); ("shift", VFloat (1 # 4)); ("top", VBool true);
     ("adsorption_site", VStr "[2. 0. 1.]"); ("coordination", VStr "Cu-Cu");
     ("neighborcoord", VList [VStr "Cu:Cu-Cu"]);
     ("nextnearestcoordination", VStr "Cu")] ].

(** A stand-in for [str] that tells the sample keys apart. *)
Definition sample_key_str (v : value) : string :=
  match v with
  | VList [_; VStr c; _] => c
  | _ => "?"
  end.

(** Stand-ins for [len] and [fingerprint]: atoms as a list of symbols,
    and a fingerprint of the last symbol. *)
Definition sample_len_atoms (atoms : value) : nat :=
  match atoms with
  | VList symbols => length symbols
  | _ => 0
  end.

Definition sample_fingerprint (atoms : value) (n : nat) : dict :=
  match atoms with
  | VList symbols =>
      [("coordination", default (VStr "") (last symbols));
       ("neighborcoord", VList (take n symbols));
       ("nextnearestcoordination", VStr "Cu")]
  | _ => []
  end.

(** The pickle of a bare slab, and the pickle of the adslabs made from
    it: one bare, one with CO on top. *)
Definition sample_slab_pickle : list dict :=
  [ [("atoms", VList [VStr "Cu"; VStr "Cu"]); ("adsorbate", VStr "")] ].

Definition sample_adslabs : list dict :=
  [ [("atoms", VList [VStr "Cu"; VStr "Cu"]); ("adsorbate", VStr "");
     ("shift", VFloat (1 # 4)); ("top", VBool true)];
    [("atoms", VList [VStr "Cu"; VStr "Cu"; VStr "C"; VStr "O"]);
     ("adsorbate", VStr "CO"); ("shift", VFloat (1 # 4));
     ("top", VBool true); ("adsorption_site", VStr "[0. 0. 1.]")] ].

Definition sample_fingerprinted : list dict :=
  Eval vm_compute in
    default []
      (FingerprintUnrelaxedAdslabs_run sample_len_atoms sample_fingerprint
         sample_adslabs sample_slab_pickle).

End Enumeration.

(** ** [get_unsimulated_catalog_docs], [_remove_duplicates_in_a_collection]
    and [chunks] of [gaspy/gasdb.py] *)

Module Catalog.
Import Py Gasdb.

(** The keys that [get_unsimulated_catalog_docs] passes to [_hash_docs]
    for the simulated and for the catalog documents. *)
Definition simulated_ignore_keys : list string :=
  ["mongo_id"; "formula"; "energy"; "adsorbates"; "adslab_calculation_date"].

Definition catalog_ignore_keys : list string := ["mongo_id"; "formula"].

Section Unsimulated.

Variable py_str : cleaned → string.
Variable py_hash : string → Z.

(** [get_unsimulated_catalog_docs] from the two lists of documents that
    [_get_attempted_adsorption_docs] and [get_catalog_docs] pulled. *)
Definition get_unsimulated_catalog_docs (docs_simulated docs_catalog : list dict)
    : list dict :=
  let hashes_simulated :=
    _hash_docs py_str py_hash docs_simulated simulated_ignore_keys true in
  let hashes_catalog :=
    _hash_docs py_str py_hash docs_catalog catalog_ignore_keys true in
  let hashes_unsimulated : gset (Z + string) :=
    list_to_set hashes_catalog ∖ list_to_set hashes_simulated in
  fst <$> filter (λ dh, dh.2 ∈ hashes_unsimulated)
            (zip docs_catalog hashes_catalog).

End Unsimulated.

(** A catalog site, an attempted simulation of the same site, and a
    catalog site nobody simulated. *)
Definition sample_catalog_doc : dict :=
  [("mongo_id", VStr "c1"); ("mpid", VStr "mp-30"); ("formula", VStr "Cu");
   ("shift", VFloat (1 # 4)); ("coordination", VStr "Cu-Cu")].

Definition sample_simulated_doc : dict :=
  [("mongo_id", VStr "s7"); ("adsorbates", VList [VStr "CO"]);
   ("energy", VFloat (-3 # 2)); ("coordination", VStr "Cu-Cu");
   ("shift", VFloat (251 # 1000)); ("formula", VStr "Cu4CO");
   ("mpid", VStr "mp-30")].

Definition sample_untried_doc : dict :=
  [("mongo_id", VStr "c2"); ("mpid", VStr "mp-30"); ("formula", VStr "Cu");
   ("shift", VFloat (1 # 4)); ("coordination", VStr "Cu")].

(** *** [_remove_duplicates_in_a_collection] *)

Section Duplicates.

(** The value that [identifying_query] reads off a document; Mongo
    compares these for equality when it groups. *)
Context {K : Type} `{EqDecision K}.

(** A document of the collection: its [_id] and its identifying value. *)
Record stored : Type := Stored { stored_id : Z; ident : K }.

(** [$addToSet] collects the distinct ids of a group, in an order that
    Mongo leaves open. *)
Variable addToSet : list Z → list Z.

(** One document of the aggregation per identifying value: the group
    [_id], [mongo_ids] and [count]. *)
Record group_doc : Type := GroupDoc {
  group_id : K;
  mongo_ids : list Z;
  count : nat
}.

Definition group_of (collection : list stored) (k : K) : group_doc :=
  let members := filter (λ d, ident d = k) collection in
  {| group_id := k;
     mongo_ids := addToSet (remove_dups (stored_id <$> members));
     count := length members |}.

(** The pipeline [[{'$group': group}, {'$match': {'count': {'$gt': 1}}}]]. *)
Definition aggregate (collection : list stored) : list group_doc :=
  filter (λ g, 1 < count g)
    (group_of collection <$> remove_dups (ident <$> collection)).

(** [collection.delete_one({'_id': id_})]: the first match goes, if any. *)
Fixpoint delete_one (collection : list stored) (id_ : Z) : list stored :=
  match collection with
  | [] => []
  | d :: collection' =>
      if decide (stored_id d = id_) then collection'
      else d :: delete_one collection' id_
  end.

(** The two loops: for each group, every id after the first is deleted. *)
Definition _remove_duplicates_in_a_collection (collection : list stored)
    : list stored :=
  foldl (λ collection doc, foldl delete_one collection (tail (mongo_ids doc)))
    collection (aggregate collection).

End Duplicates.

Arguments stored : clear implicits.
Arguments group_doc : clear implicits.

(** Five documents, three of them for FireWorks id 7. *)
Definition sample_collection : list (stored Z) :=
  [ Stored 101 7; Stored 102 8; Stored 103 7; Stored 104 7; Stored 105 9 ]%Z.

(** *** [chunks] *)

Section Chunks.

Context {A : Type}.

(** [islice(iterator, n)] read to its end: the items taken and the
    iterator left; a negative [n] is a [ValueError]. *)
Definition islice (iterator : list A) (n : Z) : option (list A * list A) :=
  if (n <? 0)%Z then None
  else Some (take (Z.to_nat n) iterator, drop (Z.to_nat n) iterator).

(** The generator [chunks] with every chunk read to its end before the
    next one is asked for, as [MakeImages] and [MakeImagesAdsorption]
    do with [list(chunk)].  The iterator is the list of the items not
    yet drawn; each round draws one item at least, so that as many
    rounds as there are items are enough.  The statement after the
    loop binds [iterator] again and changes nothing that is yielded. *)
Fixpoint chunks_from (rounds : nat) (iterator : list A) (size : Z)
    : option (list (list A)) :=
  match rounds, iterator with
  | _, [] => Some []
  | 0, _ :: _ => None
  | S rounds', first :: iterator' =>
      '(more, iterator'') ← islice iterator' (size - 1);
      rest ← chunks_from rounds' iterator'' size;
      Some ((first :: more) :: rest)
  end.

Definition chunks (iterable : list A) (size : Z) : option (list (list A)) :=
  chunks_from (length iterable) iterable size.

End Chunks.

(** Three aggregated documents with the expected keys, the second with
    a [None] value. *)
Definition sample_fetched_docs : list dict :=
  [ [("_id", VDict [("mpid", VStr "mp-30"); ("formula", VStr "Cu")])];
    [("_id", VDict [("formula", VStr "Al"); ("mpid", VNone)])];
    [("_id", VDict [("formula", VStr "Au"); ("mpid", VStr "mp-81")])] ].

End Catalog.

(** ** [slab_parameters] of [gaspy/defaults.py] *)

Module Parameters.
Import Py Defaults.

(** The keywords that [slab_parameters] spells out next to [**settings]. *)
Definition slab_keywords : list string :=
  ["ibrion"; "nsw"; "isif"; "isym"; "kpts"; "lreal"; "ediffg"].

(** The two settings dictionaries that [slab_parameters] always returns. *)
Definition slab_generate_settings : dict :=
  [("min_slab_size", VFloat 7); ("min_vacuum_size", VFloat 20);
   ("lll_reduce", VBool false); ("center_slab", VBool true);
   ("primitive", VBool true); ("max_normal_search", VInt 1)].

Definition get_slab_settings : dict :=
  [("tol", VFloat (3 # 10)); ("bonds", VNone); ("max_broken_bonds", VInt 0);
   ("symmetrize", VBool false)].

Section SlabParameters.

Variable xc_defaults : string → option dict.

(** [slab_parameters]: the returned dictionary and the store after the
    call. *)
Definition slab_parameters (miller top shift : value) (settings : settings_arg)
    (h : gmap loc dict) : option (dict * gmap loc dict) :=
  '(l, h1) ← resolve_settings xc_defaults settings h;
  s ← h1 !! l;
  vasp_settings ←
    with_kwargs [("ibrion", VInt 2); ("nsw", VInt 100); ("isif", VInt 0);
                 ("isym", VInt 0); ("kpts", VList [VInt 4; VInt 4; VInt 1]);
                 ("lreal", VStr "Auto"); ("ediffg", VFloat (-3 # 100))] s;
  Some ([("miller", miller); ("top", top); ("max_miller", VInt 2);
         ("shift", shift); ("relaxed", VBool true);
         ("vasp_settings", VDict vasp_settings);
         ("slab_generate_settings", VDict slab_generate_settings);
         ("get_slab_settings", VDict get_slab_settings)], h1).

End SlabParameters.

(** Settings of a caller who fixes the k-points himself. *)
Definition sample_clashing_settings : dict :=
  [("gga", VStr "RP"); ("kpts", VList [VInt 2; VInt 2; VInt 1])].

End Parameters.

(** ** [DumpSurfacesToAuxDB] *)

Module DumpSurfaces.
Import Py Tasks.

(** [float(np.round(shift, 4))]: to four decimal places, a half to the
    even neighbour. *)
Definition np_round4 (q : Q) : Q :=
  let y := (q * 10000)%Q in
  let f := Qfloor y in
  let r := (y - inject_Z f)%Q in
  let n := if Qle_bool (1 # 2) r
           then if Qeq_bool r (1 # 2)
                then if Z.even f then f else (f + 1)%Z
                else (f + 1)%Z
           else f in
  (n # 10000)%Q.

(** [slab['tags']['top'] == fw.name['top']] for the boolean of the tags. *)
Definition eq_bool (v : value) (b : bool) : bool :=
  match v with
  | VBool b' => Bool.eqb b' b
  | VInt z => (z =? (if b then 1 else 0))%Z
  | VFloat q => Qeq_bool q (if b then 1 else 0)
  | _ => false
  end.

(** [{'': 0, 'OH': 2, 'CO': 2, 'C': 1, 'H': 1, 'O': 1}[adsorbate]] *)
Definition adsorbate_atom_count (adsorbate : string) : option Z :=
  if decide (adsorbate = "") then Some 0%Z
  else if decide (adsorbate = "OH") then Some 2%Z
  else if decide (adsorbate = "CO") then Some 2%Z
  else if decide (adsorbate = "C") then Some 1%Z
  else if decide (adsorbate = "H") then Some 1%Z
  else if decide (adsorbate = "O") then Some 1%Z
  else None.

(** The settings that [requires] copies from the VASP settings of a
    firework, in the order of its list of keys. *)
Definition carried_settings (vasp_settings : dict) : dict :=
  foldl (λ settings key,
           match getitem vasp_settings key with
           | Some v => setitem settings key v
           | None => settings
           end)
    [] ["gga"; "encut"; "zab_vdw"; "lbeefens"; "luse_vdw"; "pp"; "pp_version"].

(** The Miller indices of a firework, converted when they are a string. *)
Definition converted_miller (eval_miller : string → value) (miller : value)
    : value :=
  match miller with
  | VStr m => eval_miller m
  | _ => miller
  end.

(** The three lists that [requires] builds: what it returns, and the two
    attributes it leaves on the task for [run]. *)
Record dump_lists : Type := DumpLists {
  surfaces : list Task;
  to_dump : list (firework * Z);
  missing_shift_to_dump : list (firework * Z)
}.

(** The local variables of [run] that live across the rounds of its
    loop, and the Auxiliary DB. *)
Record run_state : Type := RunState {
  n_missing_shift : nat;
  num_adsorbate_atoms : option Z;
  run_aux_db : list aux_doc
}.

Section DumpSurfaces.

(** Outside [tasks.py]: [eval] of a Miller index, the default-parameter
    helpers (the slab one called with [top=True, shift=0.]), the VASP
    settings that [get_firework_info] reads off a firework, and
    [getDist(getCoord(mongo_doc_atoms(slab)), reference_coord)], where
    [reference_coord] is the coordination of the starting atoms of the
    firework less their last [n] atoms. *)
Variable eval_miller : string → value.
Variable default_parameter_bulk : value → dict → value.
Variable default_parameter_slab : value → dict → value.
Variable vasp_settings : firework → dict.
Variable atoms : Type.
Variable coordination_distance : firework → Z → slab_doc atoms → option Q.

(** The [GenerateSurfaces] task that [requires] makes for a firework
    without a shift. *)
Definition surfaces_for (fw : firework) (miller : value) : option Task :=
  let settings := carried_settings (vasp_settings fw) in
  mpid ← getitem (fw_name fw) "mpid";
  Some (GenerateSurfaces
          [("bulk", default_parameter_bulk mpid settings);
           ("slab", default_parameter_slab miller settings)]).

(** A firework without a shift, next to the task generated for it. *)
Definition generated_for (t : Task) (entry : firework * Z) : Prop :=
  ("shift" ∉ keys (fw_name entry.1))
  ∧ ∃ miller,
      getitem (fw_name entry.1) "miller" = Some miller
      ∧ surfaces_for entry.1 (converted_miller eval_miller miller) = Some t.

(** The loop of [requires] over [fws_cmpltd]. *)
Fixpoint requires_loop (lpad : list firework) (fws : list Z)
    (fws_cmpltd : list Z) (lists : dump_lists) : option dump_lists :=
  match fws_cmpltd with
  | [] => Some lists
  | fwid :: rest =>
      if bool_decide (fwid ∈ fws) then requires_loop lpad fws rest lists
      else
        fw ← get_fw_by_id lpad fwid;
        miller ← getitem (fw_name fw) "miller";
        let miller := converted_miller eval_miller miller in
        if bool_decide ("shift" ∈ keys (fw_name fw)) then
          requires_loop lpad fws rest
            {| surfaces := surfaces lists;
               to_dump := to_dump lists ++ [(fw, fwid)];
               missing_shift_to_dump := missing_shift_to_dump lists |}
        else
          surface ← surfaces_for fw miller;
          requires_loop lpad fws rest
            {| surfaces := surfaces lists ++ [surface];
               to_dump := to_dump lists;
               missing_shift_to_dump :=
                 missing_shift_to_dump lists ++ [(fw, fwid)] |}
  end.

(** [fws_cmpltd] after [fws_cmpltd.reverse()]. *)
Definition completed_slabs (lpad : list firework) : list Z :=
  reverse (get_fw_ids lpad "COMPLETED" "slab optimization"
           ++ get_fw_ids lpad "COMPLETED" "slab+adsorbate optimization").

Definition DumpSurfacesToAuxDB_requires (lpad : list firework)
    (aux_db : list aux_doc) : option dump_lists :=
  requires_loop lpad (dumped_fwids aux_db) (completed_slabs lpad)
    {| surfaces := []; to_dump := []; missing_shift_to_dump := [] |}.

(** The paragraph of [run] that guesses a shift: the value assigned to
    [doc['fwname']['shift']] and [num_adsorbate_atoms] afterwards.  An
    adsorbate that the table does not know is only reported, and the
    count of an earlier round, if any, is used. *)
Definition guess_shift (num : option Z) (fw : firework) (fwname : dict)
    (type : option string) (slab_list_unrelaxed : list (slab_doc atoms))
    : option (value * option Z) :=
  atomlist_unrelaxed ←
    match slab_list_unrelaxed with
    | [] => Some []
    | _ :: _ =>
        top ← getitem fwname "top";
        Some (filter (λ slab, eq_bool top (tag_top (tags slab)) = true)
                slab_list_unrelaxed)
    end;
  if decide (1 < length atomlist_unrelaxed) then
    type ← type;
    '(n, num) ←
      (if decide (type = "slab") then Some (0%Z, num)
       else if decide (type = "slab+adsorbate") then
         adsorbate ← getitem fwname "adsorbate";
         match adsorbate with
         | VList _ | VDict _ => None
         | VStr a =>
             match adsorbate_atom_count a with
             | Some n => Some (n, Some n)
             | None => n ← num; Some (n, Some n)
             end
         | _ => n ← num; Some (n, Some n)
         end
       else None);
    dist ← mapM (coordination_distance fw n) atomlist_unrelaxed;
    i ← argmin dist;
    slab ← slab_list_unrelaxed !! i;
    Some (VFloat (np_round4 (tag_shift (tags slab))), num)
  else Some (VInt 0, num).

(** One round of the loop of [run]; [inputs] are the unpickled targets
    of the required [GenerateSurfaces] tasks. *)
Definition dump_step (inputs : list (list (slab_doc atoms)))
    (st : run_state) (entry : firework * Z) : option run_state :=
  let '(fw, fwid) := entry in
  ct ← calculation_type fw;
  let type :=
    if eq_str ct "slab optimization" then Some "slab"
    else if eq_str ct "slab+adsorbate optimization" then Some "slab+adsorbate"
    else None in
  let fwname :=
    match getitem (fw_name fw) "miller" with
    | Some (VStr m) => setitem (fw_name fw) "miller" (eval_miller m)
    | _ => fw_name fw
    end in
  '(fwname, n, num) ←
    (if bool_decide ("shift" ∈ keys fwname)
     then Some (fwname, n_missing_shift st, num_adsorbate_atoms st)
     else
       slab_list_unrelaxed ← inputs !! n_missing_shift st;
       '(shift, num) ← guess_shift (num_adsorbate_atoms st) fw fwname type
                          slab_list_unrelaxed;
       Some (setitem (setitem fwname "shift" shift) "shift_guessed"
               (VBool true),
             S (n_missing_shift st), num));
  _ ← type;
  Some {| n_missing_shift := n;
          num_adsorbate_atoms := num;
          run_aux_db :=
            run_aux_db st
            ++ [{| doc_fwid := Some fwid; doc_type := type;
                   doc_fwname := fwname; doc_directory := launch_dir fw |}] |}.

Fixpoint run_loop (inputs : list (list (slab_doc atoms)))
    (entries : list (firework * Z)) (st : run_state) : option run_state :=
  match entries with
  | [] => Some st
  | entry :: rest => st' ← dump_step inputs st entry; run_loop inputs rest st'
  end.

(** [run] after a [requires] that left [lists] on the task. *)
Definition DumpSurfacesToAuxDB_run (lists : dump_lists)
    (inputs : list (list (slab_doc atoms))) (aux_db : list aux_doc)
    : option run_state :=
  run_loop inputs (missing_shift_to_dump lists ++ to_dump lists)
    {| n_missing_shift := 0; num_adsorbate_atoms := None;
       run_aux_db := aux_db |}.

(** A pickle of [GenerateSurfaces] for slabs without a z inversion: for
    each slab its document with the top up, then the one turned over. *)
Definition top_bottom_pairs (pairs : list (slab_doc atoms * slab_doc atoms))
    : list (slab_doc atoms) :=
  concat ((λ pair, [pair.1; pair.2]) <$> pairs).

(** The document of a pair that has the top, or the bottom, up. *)
Definition side (b : bool) (pair : slab_doc atoms * slab_doc atoms)
    : slab_doc atoms :=
  if b then pair.1 else pair.2.

End DumpSurfaces.

Arguments guess_shift {atoms}.
Arguments dump_step eval_miller {atoms}.
Arguments run_loop eval_miller {atoms}.
Arguments DumpSurfacesToAuxDB_run eval_miller {atoms}.
Arguments top_bottom_pairs {atoms}.
Arguments side {atoms}.

(** Two completed slab fireworks saved without a shift, one saved with
    it, and one that is in the Auxiliary DB already. *)
Definition sample_slab_launchpad : list firework :=
  [ {| fw_id := 11; fw_state := "COMPLETED";
       fw_name := [("calculation_type", VStr "slab optimization");
                   ("mpid", VStr "mp-30"); ("miller", VStr "(1, 1, 1)");
                   ("top", VBool true)];
       launch_dir := "/launch/11" |};
    {| fw_id := 12; fw_state := "COMPLETED";
       fw_name := [("calculation_type", VStr "slab optimization");
                   ("mpid", VStr "mp-2"); ("miller", VStr "(1, 0, 0)");
                   ("top", VBool true); ("shift", VFloat (1 # 4))];
       launch_dir := "/launch/12" |};
    {| fw_id := 13; fw_state := "COMPLETED";
       fw_name := [("calculation_type", VStr "slab+adsorbate optimization");
                   ("mpid", VStr "mp-81"); ("miller", VStr "(2, 1, 1)");
                   ("top", VBool false); ("adsorbate", VStr "CO")];
       launch_dir := "/launch/13" |};
    {| fw_id := 14; fw_state := "COMPLETED";
       fw_name := [("calculation_type", VStr "slab optimization");
                   ("mpid", VStr "mp-30"); ("miller", VStr "(1, 1, 0)");
                   ("top", VBool true)];
       launch_dir := "/launch/14" |} ].

Definition sample_slab_aux_db : list aux_doc :=
  [ {| doc_fwid := Some 14%Z; doc_type := Some "slab";
       doc_fwname := [("calculation_type", VStr "slab optimization")];
       doc_directory := "/launch/14" |} ].

(** Stand-ins for the default-parameter helpers. *)
Definition sample_parameter_bulk (mpid : value) (settings : dict) : value :=
  VDict [("mpid", mpid); ("vasp_settings", VDict settings)].

Definition sample_parameter_slab (miller : value) (settings : dict) : value :=
  VDict [("miller", miller); ("top", VBool true); ("shift", VFloat 0);
         ("vasp_settings", VDict settings)].

(** Slab documents with nothing but their tags, and a distance that
    makes the shift 3/4 the best match. *)
Definition sample_slab_doc (top : bool) (shift : Q) : slab_doc unit :=
  {| doc_atoms := tt;
     tags := {| tag_type := "slab"; tag_top := top; tag_mpid := VStr "mp-30";
                tag_miller := VList [VInt 1; VInt 1; VInt 1];
                tag_shift := shift; tag_num_slab_atoms := 4;
                tag_relaxed := false;
                tag_slab_generate_settings := VNone;
                tag_get_slab_settings := VNone |} |}.

Definition sample_pairs : list (slab_doc unit * slab_doc unit) :=
  [ (sample_slab_doc true (1 # 4), sample_slab_doc false (1 # 4));
    (sample_slab_doc true (3 # 4), sample_slab_doc false (3 # 4)) ].

Definition sample_distance (fw : firework) (n : Z) (slab : slab_doc unit)
    : option Q :=
  Some (Qabs (tag_shift (tags slab) - (3 # 4))).

(** A slab firework saved without a shift. *)
Definition sample_shiftless_firework : firework :=
  {| fw_id := 11; fw_state := "COMPLETED";
     fw_name := [("calculation_type", VStr "slab optimization");
                 ("mpid", VStr "mp-30"); ("miller", VStr "(1, 1, 1)");
                 ("top", VBool true)];
     launch_dir := "/launch/11" |}.

End DumpSurfaces.

(** ** [GenerateSiteMarkers.run] and [GenerateAdslabs.run] *)

Module SiteMarkers.
Import Py Tasks.

(** A Python number as a float. *)
Definition as_number (v : value) : option Q :=
  match v with
  | VFloat q => Some q
  | VInt z => Some (inject_Z z)
  | VBool b => Some (if b then 1 else 0)%Q
  | _ => None
  end.

(** [int(ceil(min_xy / norm))]; with a norm of zero the quotient is
    infinite or not a number, and [int] raises. *)
Definition repeats (min_xy norm : Q) : option Z :=
  if Qeq_bool norm 0 then None else Some (Qceiling (min_xy / norm)).

(** [str((nx, ny, 1))] *)
Definition slabrepeat_str (nx ny : Z) : string :=
  "(" +:+ pretty nx +:+ ", " +:+ pretty ny +:+ ", 1)".

(** The keys of the dictionary saved for a site. *)
Definition marker_keys : list string :=
  ["type"; "adsorption_site"; "slabrepeat"; "adsorbate"; "top"; "miller";
   "shift"; "relaxed"; "atoms"].

Section Runs.

(** Outside [tasks.py]: the norm of a cell vector of the atoms of a slab
    document, [find_adsorption_sites], [str(np.round(site, decimals=2))],
    the repeated slab with the uranium marker put on a site, and the
    atoms that [GenerateAdslabs.run] makes of marked atoms and the hex
    pickle of an adsorbate (the marker replaced, the slab constrained). *)
Variable cell_norm : dict → nat → Q.
Variable find_adsorption_sites : dict → value → list value.
Variable site_str : value → string.
Variable marked_slab : dict → Z → Z → value → value.
Variable place_adsorbate : value → value → option value.

(** The [tags] dictionary for one site, with the atoms added. *)
Definition site_tags (p slab : dict) (slabrepeat : string) (site adslab : value)
    : option dict :=
  '(shift, top, miller) ←
    (if bool_decide ("unrelaxed" ∈ keys p) then
       t ← getitem slab "tags" ≫= as_dict;
       shift ← getitem t "shift";
       top ← getitem t "top";
       miller ← getitem t "miller";
       Some (shift, top, miller)
     else
       s ← getitem p "slab" ≫= as_dict;
       shift ← getitem s "shift";
       top ← getitem s "top";
       miller ← getitem s "miller";
       Some (shift, top, miller));
  Some [("type", VStr "slab+adsorbate");
        ("adsorption_site", VStr (site_str site));
        ("slabrepeat", VStr slabrepeat);
        ("adsorbate", VStr "U");
        ("top", top); ("miller", miller); ("shift", shift);
        ("relaxed", VBool false);
        ("atoms", adslab)].

(** The body of the loop over the slabs. *)
Definition mark_slab (p : dict) (bulk : value) (slab : dict)
    : option (list dict) :=
  a ← getitem p "adsorption" ≫= as_dict;
  min_xy ← getitem a "min_xy" ≫= as_number;
  nx ← repeats min_xy (cell_norm slab 0);
  ny ← repeats min_xy (cell_norm slab 1);
  mapM (λ site, site_tags p slab (slabrepeat_str nx ny) site
                  (marked_slab slab nx ny site))
    (find_adsorption_sites slab bulk).

(** [slabs] and [bulk_pickle] are the unpickled targets of the two
    requirements; the result is the list [adslabs_to_save]. *)
Definition GenerateSiteMarkers_run (p : dict) (slabs : list dict)
    (bulk_pickle : list value) : option (list dict) :=
  bulk ← head bulk_pickle;
  per_slab ← mapM (mark_slab p bulk) slabs;
  Some (concat per_slab).

(** The body of the loop of [GenerateAdslabs.run]. *)
Definition replace_marker (p : dict) (adsorbate_config : dict) : option dict :=
  slab ← getitem adsorbate_config "atoms";
  a ← getitem p "adsorption" ≫= as_dict;
  adsorbates ← getitem a "adsorbates";
  adsorbate0 ← match adsorbates with
                | VList (x :: _) => as_dict x
                | _ => None
                end;
  hex ← getitem adsorbate0 "atoms";
  adslab ← place_adsorbate slab hex;
  name ← getitem adsorbate0 "name";
  Some (setitem (setitem adsorbate_config "atoms" adslab) "adsorbate" name).

Definition GenerateAdslabs_run (p : dict) (adsorbate_configs : list dict)
    : option (list dict) :=
  mapM (replace_marker p) adsorbate_configs.

End Runs.

(** One unrelaxed slab of two sites, with cell vectors of length 2 and
    3/2. *)
Definition sample_marker_slab : dict :=
  [("atoms", VStr "Cu4");
   ("tags", VDict [("shift", VFloat (1 # 4)); ("top", VBool true);
                   ("miller", VList [VInt 1; VInt 1; VInt 1])])].

Definition sample_cell_norm (slab : dict) (i : nat) : Q :=
  if decide (i = 0) then 2 else 3 # 2.

Definition sample_sites (slab : dict) (bulk : value) : list value :=
  [VStr "[0. 0. 1.]"; VStr "[1. 0. 1.]"].

Definition sample_site_str (site : value) : string :=
  match site with VStr s => s | _ => "?" end.

Definition sample_marked_slab (slab : dict) (nx ny : Z) (site : value) : value :=
  VList [VStr "Cu"; VStr "Cu"; VStr "U"].

(** The marker gives way to the adsorbate that the stand-in for the hex
    pickle names, the empty string standing for no atoms. *)
Definition sample_place_adsorbate (atoms hex : value) : option value :=
  match atoms, hex with
  | VList symbols, VStr adsorbate =>
      Some (VList (take (length symbols - 1) symbols
                   ++ if decide (adsorbate = "") then [] else [VStr adsorbate]))
  | _, _ => None
  end.

(** Parameters of an unrelaxed enumeration with CO. *)
Definition sample_enumeration_parameters : dict :=
  [("unrelaxed", VBool true);
   ("bulk", VDict [("mpid", VStr "mp-30")]);
   ("slab", VDict [("miller", VList [VInt 1; VInt 1; VInt 1])]);
   ("adsorption",
    VDict [("min_xy", VFloat (9 # 2));
           ("adsorbates",
            VList [VDict [("name", VStr "CO"); ("atoms", VStr "CO")]])])].

(** The sample enumeration from end to end: the markers of the sample
    slab, the adslabs with CO and with no adsorbate, and the
    fingerprinted adslabs. *)
Definition sample_markers : list dict :=
  Eval vm_compute in
    default []
      (q ← without_adsorbates sample_enumeration_parameters;
       GenerateSiteMarkers_run sample_cell_norm sample_sites sample_site_str
         sample_marked_slab q [sample_marker_slab] [VStr "Cu"]).

Definition sample_blank_parameters : dict :=
  Eval vm_compute in
    default []
      (with_adsorbates sample_enumeration_parameters (blank_adsorbates "")).

Definition sample_generated_adslabs : list dict :=
  Eval vm_compute in
    default []
      (GenerateAdslabs_run sample_place_adsorbate
         sample_enumeration_parameters sample_markers).

Definition sample_generated_bare : list dict :=
  Eval vm_compute in
    default []
      (GenerateAdslabs_run sample_place_adsorbate sample_blank_parameters
         sample_markers).

(** A stand-in for [fingerprint] that has its three entries on any
    atoms. *)
Definition sample_site_fingerprint (atoms : value) (n : nat) : dict :=
  [("coordination", VStr "Cu-Cu"); ("neighborcoord", atoms);
   ("nextnearestcoordination", VStr "Cu")].

Definition sample_enumerated : list dict :=
  Eval vm_compute in
    default []
      (Enumeration.FingerprintUnrelaxedAdslabs_run Enumeration.sample_len_atoms
         sample_site_fingerprint sample_generated_adslabs
         sample_generated_bare).

End SiteMarkers.

(** * Properties *)

Import Py Tasks.

(** ** The dependency graph *)

Section TaskGraph.

Variable SubmitToFW_requires : string → dict → list Task.
Variable blank_atoms_hex : string.
Variable missing_shift_surfaces : list dict.
Variable aux_rows : list aux_row.
Variable local_fwids : list Z.

Abbreviation requires :=
  (Tasks.requires SubmitToFW_requires blank_atoms_hex
     missing_shift_surfaces aux_rows local_fwids).
Abbreviation prerequisite :=
  (Tasks.prerequisite SubmitToFW_requires blank_atoms_hex
     missing_shift_surfaces aux_rows local_fwids).

Lemma UpdateAllDB_rows_stage writeDB max_processes i rows t :
  t ∈ UpdateAllDB_rows local_fwids writeDB max_processes i rows → stage t ≤ 10.
Proof.
  revert i. induction rows as [|row rows IH]; intros i; simpl.
  - by intros ?%elem_of_nil.
  - destruct (i + 1 =? max_processes)%Z; [by intros ?%elem_of_nil|].
    rewrite elem_of_app. intros [Hin|Hin]; [|by eapply IH].
    destruct (_ && _); [|by apply elem_of_nil in Hin].
    apply list_elem_of_singleton in Hin as ->. destruct writeDB; simpl; lia.
Qed.

(** Every edge of the graph goes to a strictly earlier stage. *)
Lemma prerequisite_stage a b :
  submission_requires_earlier SubmitToFW_requires →
  prerequisite a b → stage a < stage b.
Proof.
  intros Hsub (l & Hreq & Hin).
  destruct b; simpl in Hreq; unfold bulk_only in Hreq.
  14: { injection Hreq as <-. by apply Hsub. }
  all: repeat first
      [ progress simplify_option_eq
      | match goal with
        | H : context [if ?c then _ else _] |- _ => destruct c
        | H : _ ∈ [] |- _ => by apply elem_of_nil in H
        | H : _ ∈ _ :: _ |- _ => apply elem_of_cons in H as [->|H]
        end ];
    simpl; try lia.
  - apply list_elem_of_fmap in Hin as (q & -> & _). simpl; lia.
  - apply UpdateAllDB_rows_stage in Hin. lia.
Qed.

Lemma tc_prerequisite_stage a b :
  submission_requires_earlier SubmitToFW_requires →
  tc prerequisite a b → stage a < stage b.
Proof.
  intros Hsub. induction 1 as [a b H|a b c H _ IH].
  - by apply prerequisite_stage.
  - apply prerequisite_stage in H; [lia|done].
Qed.

(** C4: the relation generated by the [requires] methods is acyclic and
    well-founded.  For every task and every parameter dictionary, no
    task transitively requires itself, and unfolding [requires]
    terminates, as long as the absent [SubmitToFW.requires] only asks
    for tasks of an earlier stage. *)
Theorem requires_graph_acyclic :
  submission_requires_earlier SubmitToFW_requires →
  (∀ t, ¬ tc prerequisite t t) ∧ well_founded prerequisite.
Proof.
  intros Hsub. split.
  - intros t Ht%tc_prerequisite_stage; [lia|done].
  - apply (wf_projected lt stage); [|apply lt_wf].
    intros a b. by apply prerequisite_stage.
Qed.

(** C1, as the code has it: energy calculation comes before
    fingerprinting.  For every parameter dictionary with a ['bulk'] entry
    and an ['adsorption'] dictionary, [CalculateEnergy] is listed by the
    [requires] of [FingerprintRelaxedAdslab] and of [DumpToLocalDB],
    [FingerprintRelaxedAdslab] is listed by the [requires] of
    [DumpToLocalDB], [CalculateEnergy] itself lists only [SubmitToFW]
    tasks, and [FingerprintRelaxedAdslab] is no transitive prerequisite
    of [CalculateEnergy]. *)
Theorem energy_then_fingerprint_then_dump p bulk ads :
  submission_requires_earlier SubmitToFW_requires →
  getitem p "bulk" = Some bulk →
  getitem p "adsorption" = Some (VDict ads) →
  prerequisite (CalculateEnergy p) (FingerprintRelaxedAdslab p)
  ∧ prerequisite (CalculateEnergy p) (DumpToLocalDB p)
  ∧ prerequisite (FingerprintRelaxedAdslab p) (DumpToLocalDB p)
  ∧ (∀ t, prerequisite t (CalculateEnergy p) →
          ∃ calctype q, t = SubmitToFW calctype q)
  ∧ ¬ tc prerequisite (FingerprintRelaxedAdslab p) (CalculateEnergy p).
Proof.
  intros Hsub Hbulk Hads. repeat split.
  - eexists. split; [|apply list_elem_of_here].
    simpl. unfold with_adsorbates. by rewrite Hads.
  - eexists. split; [|apply list_elem_of_here].
    simpl. unfold bulk_only. by rewrite Hbulk.
  - eexists. split; [|apply list_elem_of_further, list_elem_of_here].
    simpl. unfold bulk_only. by rewrite Hbulk.
  - intros t (l & Hreq & Hin). simpl in Hreq. simplify_option_eq.
    repeat (apply elem_of_cons in Hin as [->|Hin]; [by eauto|]).
    by apply elem_of_nil in Hin.
  - intros Htc%tc_prerequisite_stage; [simpl in Htc; lia|done].
Qed.

End TaskGraph.

(** [requires] on the sample parameters: [GenerateAdslabs] asks for the
    site markers with the adsorbates entry deleted, and
    [FingerprintRelaxedAdslab] for the energy and for the relaxation of
    the blank slab. *)
Lemma requires_sample :
  requires SubmitToFW_requires_spec "8002" [] [] []
    (GenerateAdslabs sample_parameters)
  = Some [GenerateSiteMarkers
            [("bulk", VDict [("mpid", VStr "mp-30")]);
             ("gas", VDict [("gasname", VStr "CO")]);
             ("slab", VDict [("miller", VList [VInt 1; VInt 1; VInt 1]);
                             ("top", VBool true); ("shift", VFloat 0)]);
             ("adsorption", VDict [])]]
  ∧ requires SubmitToFW_requires_spec "8002" [] [] []
      (FingerprintRelaxedAdslab sample_parameters)
    = Some [CalculateEnergy sample_parameters;
            SubmitToFW "slab+adsorbate"
              [("bulk", VDict [("mpid", VStr "mp-30")]);
               ("gas", VDict [("gasname", VStr "CO")]);
               ("slab", VDict [("miller", VList [VInt 1; VInt 1; VInt 1]);
                               ("top", VBool true); ("shift", VFloat 0)]);
               ("adsorption",
                VDict [("adsorbates",
                        VList [VDict [("name", VStr "");
                                      ("atoms", VStr "8002")]])])]].
Proof. split; vm_compute; reflexivity. Qed.

(** The spec-modelled [SubmitToFW.requires] asks for earlier stages only. *)
Lemma SubmitToFW_requires_spec_earlier :
  submission_requires_earlier SubmitToFW_requires_spec.
Proof.
  intros calctype p t. unfold SubmitToFW_requires_spec. simpl.
  repeat case_decide; intros ->%list_elem_of_singleton; simpl; lia.
Qed.

Lemma requires_graph_acyclic_witness :
  (∀ t, ¬ tc (prerequisite SubmitToFW_requires_spec "8002" [] [] []) t t)
  ∧ well_founded (prerequisite SubmitToFW_requires_spec "8002" [] [] []).
Proof.
  apply requires_graph_acyclic.
  intros calctype p t. unfold SubmitToFW_requires_spec. simpl.
  repeat case_decide; intros ->%list_elem_of_singleton; simpl; lia.
Defined.

Lemma energy_then_fingerprint_then_dump_witness :
  let prerequisite := prerequisite SubmitToFW_requires_spec "8002" [] [] [] in
  prerequisite (CalculateEnergy sample_parameters)
    (FingerprintRelaxedAdslab sample_parameters)
  ∧ prerequisite (CalculateEnergy sample_parameters)
      (DumpToLocalDB sample_parameters)
  ∧ prerequisite (FingerprintRelaxedAdslab sample_parameters)
      (DumpToLocalDB sample_parameters)
  ∧ (∀ t, prerequisite t (CalculateEnergy sample_parameters) →
          ∃ calctype q, t = SubmitToFW calctype q)
  ∧ ¬ tc prerequisite (FingerprintRelaxedAdslab sample_parameters)
        (CalculateEnergy sample_parameters).
Proof.
  eapply (energy_then_fingerprint_then_dump SubmitToFW_requires_spec "8002"
            [] [] [] sample_parameters).
  - intros calctype p t. unfold SubmitToFW_requires_spec. simpl.
    repeat case_decide; intros ->%list_elem_of_singleton; simpl; lia.
  - reflexivity.
  - reflexivity.
Defined.

(** C1, as stated, fails: on the sample parameters
    [FingerprintRelaxedAdslab] requires [CalculateEnergy], and it is not
    among the tasks that [CalculateEnergy] transitively requires. *)
Lemma fingerprint_not_before_energy :
  prerequisite SubmitToFW_requires_spec "8002" [] [] []
    (CalculateEnergy sample_parameters)
    (FingerprintRelaxedAdslab sample_parameters)
  ∧ ¬ tc (prerequisite SubmitToFW_requires_spec "8002" [] [] [])
        (FingerprintRelaxedAdslab sample_parameters)
        (CalculateEnergy sample_parameters).
Proof.
  split.
  - eexists. split; [reflexivity|apply list_elem_of_here].
  - intros Htc%tc_prerequisite_stage; [simpl in Htc; lia|].
    apply SubmitToFW_requires_spec_earlier.
Qed.

(** ** Outputs *)

Lemma string_length_app (s t : string) :
  String.length (s +:+ t) = String.length s + String.length t.
Proof. induction s as [|a s IH]; simpl; [done|by rewrite IH]. Qed.

Lemma string_app_inv_tail (s1 s2 t : string) : s1 +:+ t = s2 +:+ t → s1 = s2.
Proof.
  revert s2. induction s1 as [|a s1 IH]; intros [|b s2] H; simpl in H.
  - done.
  - apply (f_equal String.length) in H.
    rewrite ?string_length_app in H. simpl in H.
    rewrite ?string_length_app in H. lia.
  - apply (f_equal String.length) in H.
    rewrite ?string_length_app in H. simpl in H.
    rewrite ?string_length_app in H. lia.
  - injection H as -> H. f_equal. by apply IH.
Qed.

Lemma pickle_path_inj : Inj (=) (=) pickle_path.
Proof.
  intros a b H. unfold pickle_path in H.
  do 2 apply String.app_inj in H. by apply string_app_inv_tail in H.
Qed.

(** Induction on values that reaches into lists and dictionaries. *)
Lemma value_nested_ind (P : value → Prop) :
  P VNone → (∀ b, P (VBool b)) → (∀ z, P (VInt z)) → (∀ q, P (VFloat q)) →
  (∀ s, P (VStr s)) →
  (∀ l, Forall P l → P (VList l)) →
  (∀ d, Forall (λ kv, P kv.2) d → P (VDict d)) →
  ∀ v, P v.
Proof.
  intros HNone HBool HInt HFloat HStr HList HDict.
  fix IH 1. intros [| | | | |l|d]; [done..| |].
  - apply HList. induction l as [|x l IHl]; constructor; [apply IH|apply IHl].
  - apply HDict. induction d as [|[k x] d IHd]; constructor; [apply IH|apply IHd].
Qed.

Lemma value_to_tree_inj : Inj (=) (=) value_to_tree.
Proof.
  intros v. induction v as [| | |[a b]| |l IH|d IH] using value_nested_ind;
    intros [| | |[a' b']| |l'|d'] H; simplify_eq/=; try done.
  - f_equal. revert l' H. induction IH as [|x l Hx _ IHl]; intros [|x' l'] H;
      simplify_eq/=; [done|]. f_equal; [by apply Hx|by apply IHl].
  - f_equal. revert d' H.
    induction IH as [|[k x] d Hx _ IHd]; intros [|[k' x'] d'] H;
      simplify_eq/=; [done|]. f_equal; [f_equal; by apply Hx|by apply IHd].
Qed.

Lemma task_to_tree_inj : Inj (=) (=) task_to_tree.
Proof.
  intros t1 t2 H.
  assert (∀ p q : dict,
            value_to_tree (VDict p) = value_to_tree (VDict q) → p = q) as Hd.
  { intros p q Hpq%value_to_tree_inj. by simplify_eq. }
  destruct t1, t2; simplify_eq/=; try done; f_equal; apply Hd; simpl;
    by f_equal.
Qed.

Lemma explicit_task_id_inj : Inj (=) (=) explicit_task_id.
Proof.
  intros t1 t2 H. unfold explicit_task_id in H.
  by apply (inj pretty), (inj encode), task_to_tree_inj in H.
Qed.

Section OutputFacts.

Variable task_id : Task → string.
Variable SubmitToFW_output : string → dict → option string.

Abbreviation output := (Tasks.output task_id SubmitToFW_output).

Lemma output_parameter_keyed f p :
  f ∈ parameter_keyed_classes → output (f p) = Some (pickle_path (task_id (f p))).
Proof.
  unfold parameter_keyed_classes. intros Hf.
  repeat (apply elem_of_cons in Hf as [->|Hf]; [done|]).
  by apply elem_of_nil in Hf.
Qed.

Lemma parameter_keyed_inj f :
  f ∈ parameter_keyed_classes → Inj (=) (=) f.
Proof.
  unfold parameter_keyed_classes. intros Hf p q H.
  repeat (apply elem_of_cons in Hf as [->|Hf]; [by simplify_eq|]).
  by apply elem_of_nil in Hf.
Qed.

(** C2: the output of the parameterised task classes is keyed by the
    parameters.  Whatever id Luigi gives a task, the path returned by
    [output] is the pickle named by that id, equal parameters name the
    same file, and two paths are equal exactly when the two ids are.
    With the id that spells out the family and the parameters of the
    task, two instances of a class name the same file exactly when
    their parameters are equal: different parameters name different
    files. *)
Theorem output_keyed_by_parameters f p q :
  f ∈ parameter_keyed_classes →
  output (f p) = Some (pickle_path (task_id (f p)))
  ∧ (p = q → output (f p) = output (f q))
  ∧ (output (f p) = output (f q) ↔ task_id (f p) = task_id (f q))
  ∧ (Tasks.output explicit_task_id SubmitToFW_output (f p)
     = Tasks.output explicit_task_id SubmitToFW_output (f q) ↔ p = q)
  ∧ (p ≠ q →
     Tasks.output explicit_task_id SubmitToFW_output (f p)
     ≠ Tasks.output explicit_task_id SubmitToFW_output (f q)).
Proof.
  intros Hf.
  assert (∀ id : Task → string,
            Tasks.output id SubmitToFW_output (f p)
            = Tasks.output id SubmitToFW_output (f q)
            ↔ id (f p) = id (f q)) as Hiff.
  { intros id.
    assert (∀ r, Tasks.output id SubmitToFW_output (f r)
                 = Some (pickle_path (id (f r)))) as Hout.
    { intros r. revert Hf. unfold parameter_keyed_classes. intros Hf.
      repeat (apply elem_of_cons in Hf as [->|Hf]; [done|]).
      by apply elem_of_nil in Hf. }
    rewrite !Hout. split; [|by intros ->].
    intros H. apply (inj Some) in H. exact (pickle_path_inj _ _ H). }
  assert (Tasks.output explicit_task_id SubmitToFW_output (f p)
          = Tasks.output explicit_task_id SubmitToFW_output (f q) ↔ p = q)
    as Hkeyed.
  { rewrite Hiff. split; [|by intros ->].
    intros H. by apply explicit_task_id_inj, (parameter_keyed_inj f Hf) in H. }
  split; [by apply output_parameter_keyed|].
  split; [by intros ->|]. split; [by apply Hiff|]. split; [done|].
  intros Hne Hout. by apply Hne, Hkeyed.
Qed.

(** The token of [DumpSurfacesToAuxDB] is no pickle. *)
Lemma token_not_pickle id :
  LOCAL_DB_PATH +:+ "/DumpToAuxDB.token" ≠ pickle_path id.
Proof. unfold pickle_path, LOCAL_DB_PATH. cbv. discriminate. Qed.

End OutputFacts.

Lemma output_keyed_by_parameters_witness :
  let output := Tasks.output explicit_task_id (λ _ _, None) in
  let p := sample_parameters in
  let q := [("bulk", VDict [("mpid", VStr "mp-2")])] in
  output (CalculateEnergy p)
    = Some (pickle_path (explicit_task_id (CalculateEnergy p)))
  ∧ (p = q → output (CalculateEnergy p) = output (CalculateEnergy q))
  ∧ (output (CalculateEnergy p) = output (CalculateEnergy q)
     ↔ explicit_task_id (CalculateEnergy p) = explicit_task_id (CalculateEnergy q))
  ∧ (output (CalculateEnergy p) = output (CalculateEnergy q) ↔ p = q)
  ∧ (p ≠ q → output (CalculateEnergy p) ≠ output (CalculateEnergy q)).
Proof.
  apply (output_keyed_by_parameters explicit_task_id (λ _ _, None)
           CalculateEnergy).
  unfold parameter_keyed_classes. set_solver.
Defined.

(** ** The scheduler *)

Section SchedulerFacts.

Variable task_id : Task → string.
Variable SubmitToFW_output : string → dict → option string.
Variable requires : Task → option (list Task).

Abbreviation output := (Tasks.output task_id SubmitToFW_output).
Abbreviation step := (Tasks.step task_id SubmitToFW_output requires).
Abbreviation execution := (Tasks.execution task_id SubmitToFW_output requires).

(** A task that is not complete has no output file yet. *)
Lemma incomplete_output_absent fs t f :
  complete task_id SubmitToFW_output requires fs t = false →
  output t = Some f → f ∉ fs.
Proof.
  intros Hc Hout Hin.
  assert (has_output task_id SubmitToFW_output fs t = true) as Hhas.
  { unfold has_output. rewrite Hout. by apply bool_decide_eq_true. }
  destruct t; simpl in Hc; try congruence; discriminate Hout.
Qed.

(** A step only runs a task whose output file is absent. *)
Lemma step_output_absent fs t fs' f :
  step fs t fs' → output t = Some f → f ∉ fs.
Proof.
  intros Hstep Hout.
  destruct Hstep; [by eapply incomplete_output_absent..|discriminate Hout].
Qed.

(** No step removes a file. *)
Lemma step_files_mono fs t fs' : step fs t fs' → fs ⊆ fs'.
Proof. destruct 1; set_solver. Qed.

Lemma execution_files_mono fs ts fs' : execution fs ts fs' → fs ⊆ fs'.
Proof.
  induction 1 as [|fs t fs1 ts fs2 Hstep _ IH]; [done|].
  apply step_files_mono in Hstep. set_solver.
Qed.

(** C3: completed work is skipped.  In every state the scheduler reaches,
    a step only runs a task whose output file is absent; and once the
    output file of a task exists, no later step, in this or in a
    repeated invocation of the pipeline, runs that task again. *)
Theorem completed_task_never_rerun fs0 ts0 fs t f :
  execution fs0 ts0 fs →
  output t = Some f →
  (∀ fs', step fs t fs' → f ∉ fs)
  ∧ (f ∈ fs → ∀ ts fs', execution fs ts fs' → t ∉ ts).
Proof.
  intros _ Hout. split.
  - intros fs' Hstep. by eapply step_output_absent.
  - intros Hin ts fs' Hex.
    induction Hex as [|fs t' fs1 ts fs2 Hstep _ IH]; [apply not_elem_of_nil|].
    apply not_elem_of_cons. split.
    + intros ->. by eapply step_output_absent.
    + apply IH. apply step_files_mono in Hstep. set_solver.
Qed.

End SchedulerFacts.

Lemma completed_task_never_rerun_witness :
  let req := requires SubmitToFW_requires_spec "8002" [] [] [] in
  let output := Tasks.output explicit_task_id (λ _ _, None) in
  let step := Tasks.step explicit_task_id (λ _ _, None) req in
  let execution := Tasks.execution explicit_task_id (λ _ _, None) req in
  let t := GenerateBulk sample_parameters in
  let f := pickle_path (explicit_task_id t) in
  (∀ fs', step {[ f ]} t fs' → f ∉ ({[ f ]} : gset string))
  ∧ (f ∈ ({[ f ]} : gset string) →
     ∀ ts fs', execution {[ f ]} ts fs' → t ∉ ts).
Proof.
  intros req output step execution t f.
  replace ({[ f ]} : gset string) with ((∅ : gset string) ∪ {[ f ]}) by set_solver.
  apply (completed_task_never_rerun explicit_task_id (λ _ _, None) req ∅ [t]).
  - eapply execution_cons; [|apply execution_nil].
    apply (step_success explicit_task_id (λ _ _, None) req ∅ t); reflexivity.
  - reflexivity.
Defined.

(** ** [CalculateEnergy.run] *)

Section EnergyFacts.

Variable doc : Type.
Variable get_potential_energy : doc → Q.
Variable ads_dict : string → option (list string).

(** The loop invariant of [np.argmin]: the best entry so far is below
    everything already scanned. *)
Lemma argmin_from_minimum (xs scanned l : list Q) best_i best :
  xs = scanned ++ l →
  xs !! best_i = Some best →
  (∀ x, x ∈ scanned → (best <= x)%Q) →
  ∃ m, xs !! argmin_from best_i best (length scanned) l = Some m
       ∧ ∀ x, x ∈ xs → (m <= x)%Q.
Proof.
  revert scanned best_i best.
  induction l as [|y l IH]; intros scanned best_i best Hxs Hbest Hle; simpl.
  - exists best. rewrite app_nil_r in Hxs. by subst.
  - assert (xs = (scanned ++ [y]) ++ l) as Hxs' by by rewrite Hxs, <-app_assoc.
    assert (length (scanned ++ [y]) = S (length scanned)) as Hlen
      by (rewrite length_app; simpl; lia).
    destruct (Qle_bool best y) eqn:Hb.
    + apply Qle_bool_iff in Hb. rewrite <-Hlen.
      apply IH; [done..|].
      intros x [Hx|Hx%list_elem_of_singleton]%elem_of_app;
        [by apply Hle|by subst].
    + assert (y < best)%Q as Hlt.
      { apply Qnot_le_lt. intros Hc%Qle_bool_iff. congruence. }
      rewrite <-Hlen. apply IH; [done| |].
      * rewrite Hxs. apply list_lookup_middle. done.
      * intros x [Hx|Hx%list_elem_of_singleton]%elem_of_app.
        -- apply Qlt_le_weak. eapply Qlt_le_trans; [done|by apply Hle].
        -- subst. apply Qle_refl.
Qed.

Lemma argmin_minimum (l : list Q) :
  l ≠ [] → ∃ i m, argmin l = Some i ∧ l !! i = Some m ∧ is_minimum m l.
Proof.
  destruct l as [|x l]; [done|intros _]. simpl.
  destruct (argmin_from_minimum (x :: l) [x] l 0 x) as (m & Hm & Hle);
    [done|done| |].
  - intros ? Hx%list_elem_of_singleton. subst. apply Qle_refl.
  - exists (argmin_from 0 x 1 l), m. do 2 (split; [done|]).
    split; [by eapply list_elem_of_lookup_2|done].
Qed.

Lemma foldl_min_minimum (l : list Q) (m0 : Q) :
  let r := foldl (λ m y, if Qle_bool m y then m else y) m0 l in
  r ∈ m0 :: l ∧ (r <= m0)%Q ∧ ∀ x, x ∈ l → (r <= x)%Q.
Proof.
  revert m0. induction l as [|y l IH]; intros m0; simpl.
  - split_and!; [left|apply Qle_refl|by intros ? ?%elem_of_nil].
  - destruct (IH (if Qle_bool m0 y then m0 else y)) as (Hin & Hle & Hall).
    destruct (Qle_bool m0 y) eqn:Hb.
    + apply Qle_bool_iff in Hb.
      split_and!; [revert Hin; rewrite !elem_of_cons; tauto|done|].
      intros x [->|Hx]%elem_of_cons; [by eapply Qle_trans|by apply Hall].
    + assert (y < m0)%Q as Hlt.
      { apply Qnot_le_lt. intros Hc%Qle_bool_iff. congruence. }
      split_and!; [by right| |].
      * eapply Qle_trans; [done|by apply Qlt_le_weak].
      * intros x [->|Hx]%elem_of_cons; [done|by apply Hall].
Qed.

Lemma np_min_minimum (l : list Q) :
  l ≠ [] → ∃ m, np_min l = Some m ∧ is_minimum m l.
Proof.
  destruct l as [|x l]; [done|intros _]. simpl. eexists. split; [done|].
  destruct (foldl_min_minimum l x) as (Hin & Hle & Hall). split; [done|].
  intros y [->|Hy]%elem_of_cons; [done|by apply Hall].
Qed.

Lemma np_sum_from (a : Q) (l : list Q) : (foldl Qplus a l == a + np_sum l)%Q.
Proof.
  unfold np_sum. revert a. induction l as [|x l IH]; intros a; simpl.
  - ring.
  - rewrite (IH (a + x)%Q), (IH (0 + x)%Q). ring.
Qed.

Lemma count_atoms_cons (symbol s : string) (symbols : list string) :
  count_atoms symbol (s :: symbols)
  = (if decide (s = symbol) then 1 else 0) + count_atoms symbol symbols.
Proof. unfold count_atoms. rewrite filter_cons. by case_decide. Qed.

Lemma count_atoms_app (symbol : string) (l1 l2 : list string) :
  count_atoms symbol (l1 ++ l2) = count_atoms symbol l1 + count_atoms symbol l2.
Proof. unfold count_atoms. by rewrite filter_app, length_app. Qed.

Lemma reference_energy_cons CO H2 H2O s e symbols :
  mono_atom_energies CO H2 H2O s = Some e →
  (reference_energy CO H2 H2O (s :: symbols)
   == e + reference_energy CO H2 H2O symbols)%Q.
Proof.
  unfold mono_atom_energies, reference_energy. intros He.
  rewrite !count_atoms_cons, !Nat2Z.inj_add, !inject_Z_plus.
  repeat case_decide; simplify_eq; simpl; ring.
Qed.

Lemma reference_energy_nil CO H2 H2O : (reference_energy CO H2 H2O [] == 0)%Q.
Proof.
  unfold reference_energy. change (count_atoms _ []) with 0%nat.
  change (inject_Z (Z.of_nat 0)) with 0%Q. ring.
Qed.

Lemma reference_energy_app CO H2 H2O l1 l2 :
  (reference_energy CO H2 H2O (l1 ++ l2)
   == reference_energy CO H2 H2O l1 + reference_energy CO H2 H2O l2)%Q.
Proof.
  unfold reference_energy.
  rewrite !count_atoms_app, !Nat2Z.inj_add, !inject_Z_plus. ring.
Qed.

Lemma mono_atom_energies_sum CO H2 H2O symbols :
  Forall (λ s, s ∈ ["H"; "O"; "C"]) symbols →
  ∃ es, mapM (mono_atom_energies CO H2 H2O) symbols = Some es
        ∧ (np_sum es == reference_energy CO H2 H2O symbols)%Q.
Proof.
  induction 1 as [|s symbols Hs _ (es & Hes & Hsum)].
  - exists []. split; [done|]. by rewrite reference_energy_nil.
  - assert (∃ e, mono_atom_energies CO H2 H2O s = Some e) as [e He].
    { unfold mono_atom_energies.
      repeat (apply elem_of_cons in Hs as [->|Hs]; [by eauto|]).
      by apply elem_of_nil in Hs. }
    exists (e :: es). split.
    + rewrite mapM_Some. constructor; [done|by apply mapM_Some].
    + rewrite reference_energy_cons by done. unfold np_sum. simpl.
      rewrite np_sum_from, Hsum. ring.
Qed.

Lemma adsorbate_atoms_cons name names symbols :
  ads_dict name = Some symbols →
  adsorbate_atoms ads_dict (name :: names)
  = symbols ++ adsorbate_atoms ads_dict names.
Proof. intros Hd. unfold adsorbate_atoms. simpl. by rewrite Hd. Qed.

Lemma gas_energy_loop_reference CO H2 H2O names gas_energy :
  Forall (referenced_adsorbate ads_dict) names →
  ∃ g, gas_energy_loop ads_dict (mono_atom_energies CO H2 H2O) names gas_energy
       = Some g
       ∧ (g == gas_energy
               + reference_energy CO H2 H2O (adsorbate_atoms ads_dict names))%Q.
Proof.
  intros Hnames. revert gas_energy.
  induction Hnames as [|name names (symbols & Hd & Hs) _ IH]; intros gas_energy.
  - exists gas_energy. split; [done|].
    change (adsorbate_atoms ads_dict []) with (@nil string).
    rewrite reference_energy_nil. ring.
  - destruct (mono_atom_energies_sum CO H2 H2O symbols Hs) as (es & Hes & Hsum).
    destruct (IH (gas_energy + np_sum es)%Q) as (g & Hg & Heq).
    exists g. split.
    + simpl. rewrite Hd. simpl. rewrite Hes. simpl. done.
    + rewrite (adsorbate_atoms_cons _ _ _ Hd).
      rewrite reference_energy_app, Heq, Hsum. ring.
Qed.

(** C5: [CalculateEnergy.run] references the adsorption energy against
    CO, H2 and H2O.  For non-empty lists of relaxed candidates and
    adsorbates made of H, O and C atoms, the run returns
    [dE = E(slab+adsorbate) - E(blank slab) - reference], where the two
    energies are the minima over their candidate lists, the structure
    kept is one that attains the first minimum, and the reference counts
    [E(H2)/2] per H atom, [E(H2O) - E(H2)] per O atom and
    [E(CO) - (E(H2O) - E(H2))] per C atom of the adsorbates. *)
Theorem CalculateEnergy_run_adsorption_energy
    p names slab_ads slab_blank co cos h2 h2s h2o h2os :
  slab_ads ≠ [] →
  slab_blank ≠ [] →
  adsorbate_names p = Some names →
  Forall (referenced_adsorbate ads_dict) names →
  ∃ r E_ads E_blank,
    CalculateEnergy_run get_potential_energy ads_dict p
      [slab_ads; slab_blank; co :: cos; h2 :: h2s; h2o :: h2os] = Some r
    ∧ is_minimum E_ads (get_potential_energy <$> slab_ads)
    ∧ is_minimum E_blank (get_potential_energy <$> slab_blank)
    ∧ result_slab_ads r ∈ slab_ads
    ∧ get_potential_energy (result_slab_ads r) = E_ads
    ∧ (dE r == E_ads - E_blank
               - reference_energy (get_potential_energy co)
                   (get_potential_energy h2) (get_potential_energy h2o)
                   (adsorbate_atoms ads_dict names))%Q.
Proof.
  intros Hads Hblank Hnames Href.
  destruct (argmin_minimum (get_potential_energy <$> slab_ads))
    as (i & E_ads & Hi & Hlook & Hmin); [by intros ?%fmap_nil_inv|].
  apply list_lookup_fmap_Some in Hlook as (best & -> & Hbest).
  destruct (argmin_minimum (get_potential_energy <$> slab_blank))
    as (j & Ej & Hj & Hlookj & _); [by intros ?%fmap_nil_inv|].
  apply list_lookup_fmap_Some in Hlookj as (bestj & _ & Hbestj).
  destruct (np_min_minimum (get_potential_energy <$> slab_blank))
    as (E_blank & Hnp & Hminb); [by intros ?%fmap_nil_inv|].
  destruct (gas_energy_loop_reference (get_potential_energy co)
              (get_potential_energy h2) (get_potential_energy h2o)
              names 0%Q Href) as (g & Hg & Hgeq).
  eexists _, (get_potential_energy best), E_blank. split.
  - unfold CalculateEnergy_run. simpl.
    rewrite Hi. simpl. rewrite Hbest. simpl. rewrite Hj. simpl.
    rewrite Hnp. simpl. rewrite Hnames. simpl. rewrite Hg. simpl.
    rewrite Hbestj. simpl. reflexivity.
  - do 2 (split; [done|]). simpl.
    split; [by eapply list_elem_of_lookup_2|]. split; [done|].
    rewrite Hgeq. ring.
Qed.

End EnergyFacts.

Lemma CalculateEnergy_run_adsorption_energy_witness :
  let E := snd : Z * Q → Q in
  let slab_ads := [(1%Z, -10 # 1); (2%Z, -12 # 1)] in
  let slab_blank := [(3%Z, -8 # 1)] in
  let co := (4%Z, -14 # 1) in
  let h2 := (5%Z, -6 # 1) in
  let h2o := (6%Z, -14 # 1) in
  ∃ r E_ads E_blank,
    CalculateEnergy_run E adsorbates_dict sample_parameters
      [slab_ads; slab_blank; [co]; [h2]; [h2o]] = Some r
    ∧ is_minimum E_ads (E <$> slab_ads)
    ∧ is_minimum E_blank (E <$> slab_blank)
    ∧ result_slab_ads r ∈ slab_ads
    ∧ E (result_slab_ads r) = E_ads
    ∧ (dE r == E_ads - E_blank
               - reference_energy (E co) (E h2) (E h2o)
                   (adsorbate_atoms adsorbates_dict ["CO"]))%Q.
Proof.
  intros E slab_ads slab_blank co h2 h2o.
  apply (CalculateEnergy_run_adsorption_energy (Z * Q) E adsorbates_dict
           sample_parameters ["CO"]).
  - discriminate.
  - discriminate.
  - reflexivity.
  - constructor; [|constructor]. exists ["C"; "O"]. split; [reflexivity|].
    repeat constructor; set_solver.
Defined.

(** The run on the sample: the second candidate is kept, and
    [dE = -12 - (-8) - ((-14 - (-8)) + (-14 - (-6))) = 10]. *)
Lemma CalculateEnergy_run_sample :
  (λ r, (Qred (dE r), result_slab_ads r)) <$>
    CalculateEnergy_run (snd : Z * Q → Q) adsorbates_dict sample_parameters
      [[(1%Z, -10 # 1); (2%Z, -12 # 1)]; [(3%Z, -8 # 1)];
       [(4%Z, -14 # 1)]; [(5%Z, -6 # 1)]; [(6%Z, -14 # 1)]]
  = Some (10 # 1, (2%Z, -12 # 1)).
Proof. vm_compute. reflexivity. Qed.

(** ** [DumpBulkGasToAuxDB.run] *)

Section HarvestFacts.

Variable eval_miller : string → value.

Lemma NoDup_fmap_eq {A B} (f : A → B) (l : list A) x y :
  NoDup (f <$> l) → x ∈ l → y ∈ l → f x = f y → x = y.
Proof.
  induction l as [|a l IH]; simpl; [by intros _ ?%elem_of_nil|].
  rewrite NoDup_cons, !elem_of_cons. intros [Ha Hnd] [->|Hx] [->|Hy] Hxy.
  - done.
  - exfalso. apply Ha. rewrite Hxy. by apply list_elem_of_fmap_2.
  - exfalso. apply Ha. rewrite <-Hxy. by apply list_elem_of_fmap_2.
  - by apply IH.
Qed.

Lemma elem_of_get_fw_ids lpad state ct fwid :
  fwid ∈ get_fw_ids lpad state ct ↔
  ∃ fw, fw ∈ lpad ∧ fw_id fw = fwid ∧ fw_state fw = state
        ∧ has_calculation_type fw ct = true.
Proof.
  unfold get_fw_ids. rewrite list_elem_of_fmap. split.
  - intros (fw & -> & [[? ?] ?]%list_elem_of_filter). by exists fw.
  - intros (fw & ? & <- & ? & ?). exists fw. split; [done|].
    by apply list_elem_of_filter.
Qed.

Lemma elem_of_completed_bulk_gas lpad fwid :
  fwid ∈ completed_bulk_gas lpad ↔ completed_bulk_or_gas lpad fwid.
Proof.
  unfold completed_bulk_gas, completed_bulk_or_gas.
  rewrite elem_of_app, !elem_of_get_fw_ids. split.
  - intros [(fw & ? & ? & ? & ?)|(fw & ? & ? & ? & ?)]; exists fw; tauto.
  - intros (fw & ? & ? & ? & [?|?]); [left|right]; by exists fw.
Qed.

Lemma has_calculation_type_unique fw ct1 ct2 :
  has_calculation_type fw ct1 = true → has_calculation_type fw ct2 = true →
  ct1 = ct2.
Proof.
  unfold has_calculation_type. destruct (calculation_type fw) as [[]|]; simpl;
    try done. intros ->%bool_decide_eq_true ->%bool_decide_eq_true. done.
Qed.

Lemma NoDup_get_fw_ids lpad state ct :
  NoDup (fw_id <$> lpad) → NoDup (get_fw_ids lpad state ct).
Proof.
  intros Hnd. eapply sublist_NoDup; [done|].
  apply fmap_sublist, sublist_filter.
Qed.

(** The two queries never return the same firework. *)
Lemma NoDup_completed_bulk_gas lpad :
  NoDup (fw_id <$> lpad) → NoDup (completed_bulk_gas lpad).
Proof.
  intros Hnd. apply list.NoDup_app. split_and!; try by apply NoDup_get_fw_ids.
  intros fwid (fw1 & Hin1 & Hid1 & _ & Hct1)%elem_of_get_fw_ids
              (fw2 & Hin2 & Hid2 & _ & Hct2)%elem_of_get_fw_ids.
  assert (fw1 = fw2) as -> by (eapply NoDup_fmap_eq; [done..|congruence]).
  by pose proof (has_calculation_type_unique _ _ _ Hct1 Hct2).
Qed.

Lemma get_fw_by_id_unique lpad fw :
  NoDup (fw_id <$> lpad) → fw ∈ lpad → get_fw_by_id lpad (fw_id fw) = Some fw.
Proof.
  intros Hnd Hin. unfold get_fw_by_id.
  destruct (filter _ lpad) as [|fw' l] eqn:Hf.
  - exfalso. eapply (not_elem_of_nil fw). rewrite <-Hf.
    by apply list_elem_of_filter.
  - simpl. f_equal.
    assert (fw' ∈ filter (λ x, fw_id x = fw_id fw) lpad) as Hin'
      by (rewrite Hf; left).
    apply list_elem_of_filter in Hin' as [Hid Hin'].
    by eapply NoDup_fmap_eq.
Qed.

Lemma harvest_doc_typed fw fwid :
  has_calculation_type fw "unit cell optimization" = true
  ∨ has_calculation_type fw "gas phase optimization" = true →
  ∃ doc, harvest_doc eval_miller fw fwid = Some doc ∧ doc_fwid doc = Some fwid.
Proof.
  unfold has_calculation_type, harvest_doc.
  destruct (calculation_type fw) as [ct|]; [|by intros [|]]. simpl.
  intros [->| ->].
  - eexists. split; [reflexivity|done].
  - destruct (eq_str ct "unit cell optimization");
      (eexists; split; [reflexivity|done]).
Qed.

Lemma harvest_loop_writes lpad fws ids aux_db :
  (∀ fwid, fwid ∈ ids → fwid ∉ fws →
     ∃ fw doc, get_fw_by_id lpad fwid = Some fw
               ∧ harvest_doc eval_miller fw fwid = Some doc
               ∧ doc_fwid doc = Some fwid) →
  ∃ new,
    harvest_loop eval_miller lpad fws ids aux_db = Some (aux_db ++ new)
    ∧ doc_fwid <$> new = Some <$> filter (λ fwid, fwid ∉ fws) ids.
Proof.
  revert aux_db. induction ids as [|fwid ids IH]; intros aux_db Hok; simpl.
  - exists []. by rewrite app_nil_r.
  - rewrite filter_cons. destruct (decide (fwid ∈ fws)) as [Hin|Hnin].
    + rewrite bool_decide_eq_true_2 by done.
      rewrite decide_False by tauto.
      apply IH. intros. apply Hok; [by right|done].
    + rewrite bool_decide_eq_false_2 by done. rewrite decide_True by done.
      destruct (Hok fwid) as (fw & doc & Hget & Hharvest & Hdoc);
        [by left|done|].
      rewrite Hget. simpl. rewrite Hharvest. simpl.
      destruct (IH (aux_db ++ [doc])) as (new & -> & Hnew).
      { intros. apply Hok; [by right|done]. }
      exists (doc :: new). split; [by rewrite <-app_assoc|].
      rewrite !fmap_cons. by rewrite Hdoc, Hnew.
Qed.

Lemma harvest_loop_all_dumped lpad fws ids aux_db :
  (∀ fwid, fwid ∈ ids → fwid ∈ fws) →
  harvest_loop eval_miller lpad fws ids aux_db = Some aux_db.
Proof.
  induction ids as [|fwid ids IH]; intros Hall; simpl; [done|].
  rewrite bool_decide_eq_true_2 by (apply Hall; left).
  apply IH. intros. apply Hall. by right.
Qed.

Lemma dumped_fwids_written (new : list aux_doc) (ids : list Z) :
  doc_fwid <$> new = Some <$> ids → dumped_fwids new = ids.
Proof.
  unfold dumped_fwids. revert ids.
  induction new as [|doc new IH]; intros [|id ids] H;
    rewrite ?fmap_cons in H; try discriminate H; [done|].
  injection H as Hd Ht. simpl. rewrite Hd. simpl. f_equal. by apply IH.
Qed.

(** C6: harvesting is idempotent with respect to FireWorks ids.  On a
    launchpad whose fireworks have distinct ids, [DumpBulkGasToAuxDB.run]
    appends to the Auxiliary DB one document for exactly the completed
    unit-cell and gas-phase fireworks whose id is not yet in the
    Auxiliary DB, each id once, and running it again writes nothing. *)
Theorem DumpBulkGasToAuxDB_run_idempotent lpad aux_db :
  NoDup (fw_id <$> lpad) →
  ∃ new,
    DumpBulkGasToAuxDB_run eval_miller lpad aux_db = Some (aux_db ++ new)
    ∧ doc_fwid <$> new
      = Some <$> filter (λ fwid, fwid ∉ dumped_fwids aux_db)
                   (completed_bulk_gas lpad)
    ∧ (∀ fwid, fwid ∈ dumped_fwids new ↔
               completed_bulk_or_gas lpad fwid ∧ fwid ∉ dumped_fwids aux_db)
    ∧ NoDup (dumped_fwids new)
    ∧ DumpBulkGasToAuxDB_run eval_miller lpad (aux_db ++ new)
      = Some (aux_db ++ new).
Proof.
  intros Hnd. unfold DumpBulkGasToAuxDB_run.
  destruct (harvest_loop_writes lpad (dumped_fwids aux_db)
              (completed_bulk_gas lpad) aux_db) as (new & Hrun & Hnew).
  { intros fwid (fw & Hin & <- & _ & Hct)%elem_of_completed_bulk_gas _.
    destruct (harvest_doc_typed fw (fw_id fw) Hct) as (doc & ? & ?).
    exists fw, doc. split; [by apply get_fw_by_id_unique|done]. }
  pose proof (dumped_fwids_written _ _ Hnew) as Hids.
  exists new. split; [done|]. split; [done|]. split; [|split].
  - intros fwid. rewrite Hids, list_elem_of_filter, elem_of_completed_bulk_gas.
    tauto.
  - rewrite Hids. by apply NoDup_filter, NoDup_completed_bulk_gas.
  - apply harvest_loop_all_dumped. intros fwid Hin.
    unfold dumped_fwids in *. rewrite omap_app, Hids, elem_of_app.
    destruct (decide (fwid ∈ omap doc_fwid aux_db)); [by left|right].
    by apply list_elem_of_filter.
Qed.

End HarvestFacts.

Lemma DumpBulkGasToAuxDB_run_idempotent_witness :
  ∃ new,
    DumpBulkGasToAuxDB_run (λ _, VNone) sample_launchpad sample_aux_db
    = Some (sample_aux_db ++ new)
    ∧ doc_fwid <$> new
      = Some <$> filter (λ fwid, fwid ∉ dumped_fwids sample_aux_db)
                   (completed_bulk_gas sample_launchpad)
    ∧ (∀ fwid, fwid ∈ dumped_fwids new ↔
               completed_bulk_or_gas sample_launchpad fwid
               ∧ fwid ∉ dumped_fwids sample_aux_db)
    ∧ NoDup (dumped_fwids new)
    ∧ DumpBulkGasToAuxDB_run (λ _, VNone) sample_launchpad
        (sample_aux_db ++ new)
      = Some (sample_aux_db ++ new).
Proof.
  apply (DumpBulkGasToAuxDB_run_idempotent (λ _, VNone) sample_launchpad
           sample_aux_db).
  simpl. repeat constructor; set_solver.
Defined.

(** On the sample only the gas firework 2 is new; the bulk 1 is already
    dumped, 3 still runs and 4 is a slab. *)
Lemma DumpBulkGasToAuxDB_run_sample :
  dumped_fwids <$>
    DumpBulkGasToAuxDB_run (λ _, VNone) sample_launchpad sample_aux_db
  = Some [1%Z; 2%Z].
Proof. vm_compute. reflexivity. Qed.

(** ** [GenerateSurfaces.run] *)

Section SurfaceFacts.

Variable atoms : Type.
Variable oriented_atoms : slab → atoms.
Variable flipped : atoms → atoms.
Variable num_atoms : atoms → nat.

Lemma z_invertible_false (s : slab) :
  z_invertible s = false ↔ no_z_inversion s.
Proof.
  unfold z_invertible, no_z_inversion.
  rewrite <-not_true_iff_false, existsb_exists. split.
  - intros Hno op Hop%list_elem_of_In Heq%Qeq_bool_iff. apply Hno. by exists op.
  - intros Hno (op & Hop%list_elem_of_In & Heq%Qeq_bool_iff). by eapply Hno.
Qed.

Lemma only_one_with_miller_shift (slabs : list slab) (s : slab) :
  (if only_one_with_miller slabs s then 0%Q else slab_shift s)
  = expected_shift slabs s.
Proof.
  unfold only_one_with_miller, expected_shift.
  case_bool_decide; by case_decide.
Qed.

Lemma save_slab_saved p bulk mpid miller sgs gss slabs s :
  getitem p "bulk" = Some (VDict bulk) →
  getitem bulk "mpid" = Some mpid →
  ∃ docs,
    save_slab oriented_atoms flipped num_atoms p miller sgs gss slabs s
    = Some docs
    ∧ saved_for oriented_atoms flipped mpid miller slabs s docs.
Proof.
  intros Hbulk Hmpid. unfold save_slab. rewrite Hbulk. simpl.
  rewrite Hmpid. simpl. rewrite only_one_with_miller_shift.
  destruct (z_invertible s) eqn:Hz; simpl.
  - eexists. split; [reflexivity|].
    match goal with |- saved_for _ _ _ _ _ _ (?d :: _) => exists d end.
    do 5 (split; [reflexivity|]).
    left. split; [|done]. rewrite <-z_invertible_false. congruence.
  - apply z_invertible_false in Hz.
    eexists. split; [reflexivity|].
    match goal with |- saved_for _ _ _ _ _ _ (?d :: _) => exists d end.
    do 5 (split; [reflexivity|]).
    right. split; [done|].
    match goal with |- ∃ _, [_; ?d] = _ ∧ _ => exists d end.
    by split_and!.
Qed.

(** C7: [GenerateSurfaces.run] saves, slab by slab, one document with the
    shift tag set to zero when the slab is alone with its Miller index
    among the generated slabs and to the slab's own shift otherwise,
    followed, exactly when the slab has no symmetry operation with
    matrix entry [2][2] equal to -1, by a document for the flipped slab
    with [top] false and the same shift, mpid and miller tags. *)
Theorem GenerateSurfaces_run_saves p bulk mpid sl miller sgs gss slabs :
  getitem p "bulk" = Some (VDict bulk) →
  getitem bulk "mpid" = Some mpid →
  getitem p "slab" = Some (VDict sl) →
  getitem sl "miller" = Some miller →
  getitem sl "slab_generate_settings" = Some sgs →
  getitem sl "get_slab_settings" = Some gss →
  ∃ saved,
    GenerateSurfaces_run oriented_atoms flipped num_atoms p slabs
    = Some (concat saved)
    ∧ Forall2 (saved_for oriented_atoms flipped mpid miller slabs) slabs saved.
Proof.
  intros Hbulk Hmpid Hslab Hmiller Hsgs Hgss. unfold GenerateSurfaces_run.
  rewrite Hslab. simpl. rewrite Hmiller. simpl. rewrite Hsgs. simpl.
  rewrite Hgss. simpl.
  assert (∀ l : list slab, ∃ saved,
            mapM (save_slab oriented_atoms flipped num_atoms p miller sgs gss
                    slabs) l = Some saved
            ∧ Forall2 (saved_for oriented_atoms flipped mpid miller slabs)
                l saved) as Hall.
  { induction l as [|s l (saved & Hsaved & Hfor)].
    - exists []. split; [done|constructor].
    - destruct (save_slab_saved p bulk mpid miller sgs gss slabs s)
        as (docs & Hdocs & Hfor'); [done..|].
      exists (docs :: saved). split; [|by constructor].
      apply mapM_Some. constructor; [done|by apply mapM_Some]. }
  destruct (Hall slabs) as (saved & -> & Hfor). by exists saved.
Qed.

End SurfaceFacts.

Lemma GenerateSurfaces_run_saves_witness :
  ∃ saved,
    GenerateSurfaces_run (λ _, false) negb (λ _, 4%nat)
      sample_surface_parameters sample_slabs
    = Some (concat saved)
    ∧ Forall2 (saved_for (λ _, false) negb (VStr "mp-30")
                 (VList [VInt 1; VInt 1; VInt 1]) sample_slabs)
        sample_slabs saved.
Proof.
  eapply (GenerateSurfaces_run_saves bool (λ _, false) negb (λ _, 4%nat)
            sample_surface_parameters); reflexivity.
Defined.

(** On the sample the run saves five documents: top and bottom of the
    two slabs without a z inversion, and the top of the mirrored one;
    the slab alone with its Miller index gets shift zero. *)
Lemma GenerateSurfaces_run_sample :
  (λ docs : list (slab_doc bool),
     (λ d, (tag_top (tags d), tag_shift (tags d))) <$> docs) <$>
    GenerateSurfaces_run (λ _, false) negb (λ _, 4%nat)
      sample_surface_parameters sample_slabs
  = Some [(true, 1 # 4); (false, 1 # 4); (true, 3 # 4);
          (true, 0); (false, 0)]%Q.
Proof. vm_compute. reflexivity. Qed.

(** ** [gaspy/gasdb.py] *)

Import Gasdb.

Lemma clean_loop_before_wrong_keys payloads expected_keys cleaned_docs :
  clean_loop payloads expected_keys cleaned_docs
  = cleaned_docs
    ++ List.filter (λ d, negb (has_None d))
         (before_wrong_keys payloads expected_keys).
Proof.
  revert cleaned_docs.
  induction payloads as [|doc payloads IH]; intros cleaned_docs; simpl.
  - by rewrite app_nil_r.
  - destruct (keys_differ _ _); simpl; [by rewrite app_nil_r|].
    destruct (has_None doc); simpl; rewrite IH; [done|].
    by rewrite <-app_assoc.
Qed.

(** What [_clean_up_aggregated_docs] computes: the clean documents among
    those before the first one with the wrong keys. *)
Lemma clean_up_aggregated_docs_prefix docs expected_keys payloads :
  mapM (λ doc, getitem doc "_id" ≫= as_dict) docs = Some payloads →
  _clean_up_aggregated_docs docs expected_keys
  = Some (clean_sublist (before_wrong_keys payloads expected_keys)
            expected_keys).
Proof.
  intros Hp. unfold _clean_up_aggregated_docs. rewrite Hp. simpl. f_equal.
  rewrite clean_loop_before_wrong_keys. simpl. unfold clean_sublist.
  clear Hp. induction payloads as [|doc payloads IH]; simpl; [done|].
  destruct (keys_differ (keys doc) expected_keys) eqn:Hk; simpl; [done|].
  unfold is_clean at 1. rewrite Hk. simpl. destruct (has_None doc); simpl;
    by rewrite IH.
Qed.

(** C8 fails on the code: a document with the wrong keys ends the loop.
    On the sample, whose first document lacks the expected key ['mpid']
    and whose second document is clean, [_clean_up_aggregated_docs]
    returns the empty list, while the sublist of clean payloads holds
    the second document. *)
Theorem clean_up_stops_at_wrong_keys :
  _clean_up_aggregated_docs sample_aggregated_docs ["mpid"] = Some []
  ∧ clean_sublist [[("formula", VStr "Cu")]; [("mpid", VStr "mp-30")]] ["mpid"]
    = [[("mpid", VStr "mp-30")]].
Proof. split; vm_compute; reflexivity. Qed.

Lemma string_app_empty_r (s : string) : s +:+ "" = s.
Proof.
  induction s as [|a s IH]; [done|].
  change (String a s +:+ "") with (String a (s +:+ "")). by rewrite IH.
Qed.

Lemma getitem_is_Some (d : dict) (k : string) :
  is_Some (getitem d k) ↔ k ∈ keys d.
Proof.
  unfold keys. induction d as [|[k' v] d IH]; simpl.
  - rewrite elem_of_nil. split; [by intros [? ?]|done].
  - rewrite elem_of_cons. case_decide; [subst; naive_solver|].
    rewrite IH. naive_solver.
Qed.

Lemma StronglySorted_filter {A} (R : relation A) (P : A → Prop)
    `{∀ x, Decision (P x)} (l : list A) :
  StronglySorted R l → StronglySorted R (filter P l).
Proof.
  induction 1 as [|a l _ IH Hall]; [constructor|].
  rewrite filter_cons. case_decide; [|done].
  constructor; [done|]. apply Forall_forall.
  intros x [_ Hx]%list_elem_of_filter. by eapply Forall_forall in Hall.
Qed.

Section HashFacts.

Variable py_str : cleaned → string.
Variable py_hash : string → Z.

(** The keys that count: sorted and cleared of the ignored ones. *)
Lemma hashed_keys_agree ignored d1 d2 :
  NoDup (keys d1) → NoDup (keys d2) →
  agree_outside ignored d1 d2 →
  filter (λ k, k ∉ ignored) (sorted_keys d1)
  = filter (λ k, k ∉ ignored) (sorted_keys d2).
Proof.
  intros Hnd1 Hnd2 Hagree. unfold sorted_keys.
  apply (Sorted_unique String.le).
  - apply StronglySorted_Sorted, StronglySorted_filter,
      StronglySorted_merge_sort; apply _.
  - apply StronglySorted_Sorted, StronglySorted_filter,
      StronglySorted_merge_sort; apply _.
  - apply NoDup_Permutation.
    + apply NoDup_filter. by rewrite merge_sort_Permutation.
    + apply NoDup_filter. by rewrite merge_sort_Permutation.
    + intros k. rewrite !list_elem_of_filter, !merge_sort_Permutation.
      rewrite <-!getitem_is_Some.
      split; intros [Hk Hsome]; (split; [done|]);
        specialize (Hagree k Hk);
        destruct (getitem d1 k), (getitem d2 k); simplify_eq/=;
        first [done|by apply is_Some_None in Hsome].
Qed.

Lemma system_string_filter doc ignore_keys (ks : list string) (system : string) :
  foldl (λ system key, system +:+ hash_entry py_str doc ignore_keys key)
    system ks
  = foldl (λ system key, system +:+ hash_entry py_str doc ignore_keys key)
      system (filter (λ k, k ∉ ignore_keys) ks).
Proof.
  revert system. induction ks as [|k ks IH]; intros system; simpl; [done|].
  rewrite filter_cons. case_decide as Hk; simpl; [done|].
  rewrite <-IH. f_equal. unfold hash_entry.
  rewrite bool_decide_eq_true_2; [by rewrite string_app_empty_r|].
  by destruct (decide (k ∈ ignore_keys)).
Qed.

Lemma hash_entry_agree ignored d1 d2 key :
  agree_outside ignored d1 d2 → key ∉ ignored →
  hash_entry py_str d1 ignored key = hash_entry py_str d2 ignored key.
Proof.
  intros Hagree Hk. specialize (Hagree key Hk). unfold hash_entry.
  rewrite bool_decide_eq_false_2 by done.
  destruct (getitem d1 key), (getitem d2 key); simplify_eq/=; [|done].
  by rewrite Hagree.
Qed.

Lemma system_string_agree ignored d1 d2 :
  NoDup (keys d1) → NoDup (keys d2) →
  agree_outside ignored d1 d2 →
  system_string py_str d1 ignored = system_string py_str d2 ignored.
Proof.
  intros Hnd1 Hnd2 Hagree. unfold system_string.
  rewrite (system_string_filter d1), (system_string_filter d2).
  rewrite (hashed_keys_agree ignored d1 d2) by done.
  generalize "". 
  induction (sorted_keys d2) as [|k ks IH]; intros system; simpl; [done|].
  rewrite filter_cons. case_decide as Hk; simpl; [|done].
  by rewrite IH, (hash_entry_agree ignored d1 d2).
Qed.


Lemma getitem_Some (d : dict) (k : string) (v : value) :
  NoDup (keys d) → getitem d k = Some v ↔ (k, v) ∈ d.
Proof.
  unfold keys. induction d as [|[k' v'] d IH]; simpl.
  - intros _. by rewrite elem_of_nil.
  - rewrite NoDup_cons, elem_of_cons. intros [Hk' Hnd]. case_decide as Hk.
    + subst. split; [by intros [= ->]; left|]. intros [[= ->]|Hin]; [done|].
      exfalso. apply Hk'. by apply (list_elem_of_fmap_2 fst) in Hin.
    + rewrite (IH Hnd). split; [by right|]. by intros [[= -> ->]|Hin].
Qed.

Lemma getitem_Permutation (d1 d2 : dict) (k : string) :
  NoDup (keys d1) → d1 ≡ₚ d2 → getitem d1 k = getitem d2 k.
Proof.
  intros Hnd1 Hperm.
  assert (NoDup (keys d2)) as Hnd2 by (unfold keys; by rewrite <-Hperm).
  destruct (getitem d1 k) as [v|] eqn:H1.
  - symmetry. apply getitem_Some; [done|]. rewrite <-Hperm.
    by apply getitem_Some.
  - destruct (getitem d2 k) as [v|] eqn:H2; [|done].
    apply getitem_Some in H2; [|done]. rewrite <-Hperm in H2.
    apply getitem_Some in H2; [|done]. congruence.
Qed.

(** Reordering the items of a document does not change its hash. *)
Lemma hash_doc_key_order ignore_keys d1 d2 return_hash :
  NoDup (keys d1) → d1 ≡ₚ d2 →
  _hash_doc py_str py_hash d1 ignore_keys return_hash
  = _hash_doc py_str py_hash d2 ignore_keys return_hash.
Proof.
  intros Hnd Hperm.
  assert (NoDup (keys d2)) as Hnd2 by (unfold keys; by rewrite <-Hperm).
  unfold _hash_doc. rewrite (system_string_agree ignore_keys d1 d2); [done..|].
  intros k _. by rewrite (getitem_Permutation d1 d2).
Qed.

End HashFacts.


(** The pre-hash string of both sample documents. *)
Lemma hash_doc_sample :
  _hash_doc sample_str sample_hash sample_doc_1 ["formula"; "mongo_id"] false
  = inr "energy=-1.23; mpid=mp-30; "
  ∧ _hash_doc sample_str sample_hash sample_doc_2 ["formula"; "mongo_id"] false
    = inr "energy=-1.23; mpid=mp-30; ".
Proof. split; vm_compute; reflexivity. Qed.

(** Agreement with the sign of a zero counted is agreement up to
    rounding. *)
Lemma agree_outside_rounded ignored d1 d2 :
  agree_outside ignored d1 d2 → agree_rounded ignored d1 d2.
Proof.
  intros Hagree k Hk. rewrite (Hagree k Hk).
  destruct (getitem d2 k) as [v|]; constructor.
  destruct v; simpl; try done. by split; [|left].
Qed.

(** C9 fails on the code at the negative zero.  The two sample documents
    hold -0.001 and 0.001 at their only key.  Both floats round to a
    zero, the first to the negative one, and the two zeros are equal, so
    the documents agree up to rounding on every key.  [_hash_doc] then
    builds the strings ['shift=-0.0; '] and ['shift=0.0; '], which
    differ, and [_hash_docs] returns different pre-hash strings for the
    two documents. *)
Theorem hash_doc_negative_zero :
  agree_rounded ["mongo_id"] sample_doc_below_zero sample_doc_above_zero
  ∧ _hash_doc sample_str sample_hash sample_doc_below_zero ["mongo_id"] false
    = inr "shift=-0.0; "
  ∧ _hash_doc sample_str sample_hash sample_doc_above_zero ["mongo_id"] false
    = inr "shift=0.0; "
  ∧ _hash_docs sample_str sample_hash [sample_doc_below_zero] [] false
    ≠ _hash_docs sample_str sample_hash [sample_doc_above_zero] [] false.
Proof.
  split; [|by vm_compute].
  intros k _. unfold sample_doc_below_zero, sample_doc_above_zero. simpl.
  case_decide; constructor. split; [reflexivity|by right].
Qed.

(** ** [gaspy/defaults.py] *)

Import Defaults.

Section DefaultsFacts.

Variable xc_defaults : string → option dict.

Lemma getitem_setitem_eq (d : dict) k v : getitem (setitem d k v) k = Some v.
Proof.
  induction d as [|[k' v'] d IH]; simpl.
  - by rewrite decide_True.
  - case_decide; simpl; [by rewrite decide_True|by rewrite decide_False].
Qed.

Lemma getitem_setitem_ne (d : dict) k k' v :
  k ≠ k' → getitem (setitem d k v) k' = getitem d k'.
Proof.
  intros Hne. induction d as [|[k0 v0] d IH]; simpl.
  - by rewrite decide_False.
  - case_decide; simpl; [subst; by rewrite !decide_False|].
    by rewrite IH.
Qed.

Lemma keys_setitem (d : dict) k v k' :
  k' ∈ keys (setitem d k v) ↔ k' = k ∨ k' ∈ keys d.
Proof.
  unfold keys. induction d as [|[k0 v0] d IH]; simpl.
  - rewrite list_elem_of_singleton, elem_of_nil. tauto.
  - case_decide; simpl; rewrite !elem_of_cons; [subst; tauto|].
    rewrite IH. tauto.
Qed.

Lemma with_kwargs_Some (explicit settings : dict) :
  Forall (λ k, k ∉ keys explicit) (keys settings) →
  with_kwargs explicit settings = Some (explicit ++ settings).
Proof. intros H. unfold with_kwargs. by rewrite bool_decide_eq_true_2. Qed.

(** Allocation leaves every object of the store as it is. *)
Lemma alloc_frame (d : dict) (h : gmap loc dict) l h' :
  alloc d h = (l, h') →
  h !! l = None ∧ h' !! l = Some d
  ∧ ∀ l0 d0, h !! l0 = Some d0 → h' !! l0 = Some d0.
Proof.
  unfold alloc. intros [= <- <-].
  assert (h !! fresh (dom h) = None) as Hfresh
    by apply not_elem_of_dom, is_fresh.
  split_and!; [done|by rewrite lookup_insert_eq|].
  intros l0 d0 Hl0. rewrite lookup_insert_ne; [done|congruence].
Qed.

Lemma foldl_setitem_keys (init l : dict) k :
  k ∈ keys (foldl (λ settings kv, setitem settings kv.1 kv.2) init l)
  ↔ k ∈ keys init ∨ k ∈ keys l.
Proof.
  revert init. induction l as [|[k0 v0] l IH]; intros init; simpl.
  - change (keys []) with (@nil string). rewrite elem_of_nil. tauto.
  - rewrite IH, keys_setitem.
    change (keys ((k0, v0) :: l)) with (k0 :: keys l). rewrite elem_of_cons.
    tauto.
Qed.

Lemma foldl_setitem_getitem (init l : dict) k :
  k ∉ keys l →
  getitem (foldl (λ settings kv, setitem settings kv.1 kv.2) init l) k
  = getitem init k.
Proof.
  revert init. unfold keys. induction l as [|[k0 v0] l IH]; intros init; simpl.
  - done.
  - rewrite not_elem_of_cons. intros [Hne Hk]. rewrite IH by done.
    by apply getitem_setitem_ne.
Qed.

(** [calc_settings] keeps its own [encut] unless the table of the
    functional sets one. *)
Lemma calc_settings_encut xc dflt :
  xc_settings xc_defaults xc = Some dflt → "encut" ∉ keys dflt →
  ∃ d, calc_settings xc_defaults xc = Some d
       ∧ getitem d "encut" = Some (VInt 350)
       ∧ ∀ k, k ∈ keys d → k ∈ ["encut"; "pp_version"] ∨ k ∈ keys dflt.
Proof.
  intros Hxc Hne. unfold calc_settings. rewrite Hxc. simpl.
  eexists. split; [reflexivity|]. split.
  - by rewrite foldl_setitem_getitem.
  - intros k. by rewrite foldl_setitem_keys.
Qed.

Lemma resolve_settings_frame settings (h : gmap loc dict) s :
  settings_content xc_defaults settings h = Some s →
  ∃ l h1,
    resolve_settings xc_defaults settings h = Some (l, h1)
    ∧ h1 !! l = Some s
    ∧ (∀ l0 d0, h !! l0 = Some d0 → h1 !! l0 = Some d0)
    ∧ match settings with
      | SettingsRef l0 => l = l0
      | SettingsStr _ => h !! l = None
      end.
Proof.
  destruct settings as [xc|l]; simpl; intros Hs.
  - rewrite Hs. simpl. destruct (alloc s h) as [l h1] eqn:Halloc.
    apply alloc_frame in Halloc as (? & ? & ?). by exists l, h1.
  - rewrite Hs. simpl. by exists l, h.
Qed.

Lemma bulk_keywords_free (s : dict) v :
  Forall (λ k, k ∉ bulk_keywords) (keys s) →
  Forall (λ k, k ∉ bulk_keywords) (keys (setitem s "encut" v)).
Proof.
  rewrite !Forall_forall. intros Hs k [->|Hk]%keys_setitem; [|by apply Hs].
  unfold bulk_keywords. set_solver.
Qed.

Lemma gas_parameters_encut gasname xc dflt (h : gmap loc dict) :
  xc_settings xc_defaults xc = Some dflt →
  "encut" ∉ keys dflt →
  Forall (λ k, k ∉ gas_keywords) (keys dflt) →
  ∃ gas h',
    gas_parameters xc_defaults gasname (SettingsStr xc) h = Some (gas, h')
    ∧ encut_of gas = Some (VInt 350).
Proof.
  intros Hxc Hne Hfree.
  destruct (calc_settings_encut xc dflt Hxc Hne) as (d & Hd & Hencut & Hkeys).
  unfold gas_parameters. simpl. rewrite Hd. simpl.
  rewrite lookup_insert_eq. simpl.
  rewrite with_kwargs_Some.
  - simpl. do 2 eexists. split; [reflexivity|].
    unfold encut_of. simpl. done.
  - apply Forall_forall. intros k [Hk|Hk]%Hkeys.
    + unfold keys. simpl. set_solver.
    + rewrite Forall_forall in Hfree. by apply Hfree.
Qed.

(** C10: [bulk_parameters] leaves its [settings] argument and the
    defaults alone.  Every mapping of the store, the one passed in
    included, is the same after the call; with a string for [settings]
    the dictionary made by [calc_settings] is kept as it was made; the
    [encut] override shows in the returned dictionary only; and a later
    [calc_settings] or [gas_parameters] still has [encut] 350. *)
Theorem bulk_parameters_does_not_mutate
    mpid settings encut max_atoms (h : gmap loc dict) s gasname xc dflt :
  settings_content xc_defaults settings h = Some s →
  Forall (λ k, k ∉ bulk_keywords) (keys s) →
  xc_settings xc_defaults xc = Some dflt →
  "encut" ∉ keys dflt →
  Forall (λ k, k ∉ gas_keywords) (keys dflt) →
  ∃ parameters h',
    bulk_parameters xc_defaults mpid settings encut max_atoms h
    = Some (parameters, h')
    ∧ (∀ l d, h !! l = Some d → h' !! l = Some d)
    ∧ (∃ l, h' !! l = Some s
            ∧ match settings with
              | SettingsRef l0 => l = l0
              | SettingsStr _ => h !! l = None
              end)
    ∧ encut_of parameters = Some (VFloat encut)
    ∧ (∃ d, calc_settings xc_defaults xc = Some d
            ∧ getitem d "encut" = Some (VInt 350))
    ∧ (∃ gas h'',
         gas_parameters xc_defaults gasname (SettingsStr xc) h' = Some (gas, h'')
         ∧ encut_of gas = Some (VInt 350)).
Proof.
  intros Hs Hfree Hxc Hne Hgas.
  destruct (resolve_settings_frame settings h s Hs)
    as (l & h1 & Hres & Hl & Hframe1 & Hwhere).
  destruct (alloc s h1) as [l2 h2] eqn:Halloc.
  pose proof Halloc as (Hfresh & Hl2 & Hframe2)%alloc_frame.
  unfold bulk_parameters. rewrite Hres. simpl. rewrite Hl. simpl.
  unfold alloc in Halloc. injection Halloc as -> ->.
  rewrite Hl2. simpl. rewrite lookup_insert_eq. simpl.
  rewrite with_kwargs_Some by by apply bulk_keywords_free.
  simpl. do 2 eexists. split; [reflexivity|].
  assert (∀ l0 d0, h1 !! l0 = Some d0 →
            <[l2 := setitem s "encut" (VFloat encut)]> h2 !! l0 = Some d0)
    as Hframe3.
  { intros l0 d0 Hl0. rewrite lookup_insert_ne; [by apply Hframe2|congruence]. }
  split; [by intros l0 d0 ?%Hframe1%Hframe3|].
  split; [exists l; split; [by apply Hframe3|done]|].
  split.
  { unfold encut_of. simpl. apply getitem_setitem_eq. }
  split.
  - destruct (calc_settings_encut xc dflt Hxc Hne) as (d & ? & ? & _). eauto.
  - by eapply gas_parameters_encut.
Qed.

End DefaultsFacts.

Lemma bulk_parameters_does_not_mutate_witness :
  ∃ parameters h',
    bulk_parameters sample_xc_defaults "mp-30" (SettingsRef 1%positive)
      500%Q 50%Z sample_heap
    = Some (parameters, h')
    ∧ (∀ l d, sample_heap !! l = Some d → h' !! l = Some d)
    ∧ (∃ l, h' !! l = Some sample_settings ∧ l = 1%positive)
    ∧ encut_of parameters = Some (VFloat 500)
    ∧ (∃ d, calc_settings sample_xc_defaults "beef-vdw" = Some d
            ∧ getitem d "encut" = Some (VInt 350))
    ∧ (∃ gas h'',
         gas_parameters sample_xc_defaults "CO" (SettingsStr "beef-vdw") h'
         = Some (gas, h'')
         ∧ encut_of gas = Some (VInt 350)).
Proof.
  eapply (bulk_parameters_does_not_mutate sample_xc_defaults "mp-30"
            (SettingsRef 1%positive) 500%Q 50%Z sample_heap sample_settings
            "CO" "beef-vdw").
  - reflexivity.
  - unfold sample_settings, keys, bulk_keywords. simpl.
    repeat constructor; set_solver.
  - reflexivity.
  - unfold keys. simpl. set_solver.
  - unfold keys, gas_keywords. simpl. repeat constructor; set_solver.
Defined.

(** The copy matters: on the sample store the call returns [encut] 500
    and leaves 350 in the mapping it was given, while the same function
    without [copy.deepcopy] would write 500 into that mapping. *)
Lemma bulk_parameters_sample :
  (λ r, (encut_of r.1, r.2 !! 1%positive ≫= λ d, getitem d "encut")) <$>
    bulk_parameters sample_xc_defaults "mp-30" (SettingsRef 1%positive)
      500%Q 50%Z sample_heap
  = Some (Some (VFloat 500), Some (VInt 350))
  ∧ (λ r, (encut_of r.1, r.2 !! 1%positive ≫= λ d, getitem d "encut")) <$>
      bulk_parameters_no_copy sample_xc_defaults "mp-30" (SettingsRef 1%positive)
        500%Q 50%Z sample_heap
    = Some (Some (VFloat 500), Some (VFloat 500)).
Proof. split; vm_compute; reflexivity. Qed.

(** * Further properties of the code *)

(** ** [UpdateAllDB.requires] *)

Import Pipeline.

Section UpdateAllDBFacts.

Variable SubmitToFW_requires : string → dict → list Task.
Variable blank_atoms_hex : string.
Variable missing_shift_surfaces : list dict.
Variable aux_rows : list aux_row.
Variable local_fwids : list Z.

Abbreviation requires :=
  (Tasks.requires SubmitToFW_requires blank_atoms_hex
     missing_shift_surfaces aux_rows local_fwids).
Abbreviation prerequisite :=
  (Tasks.prerequisite SubmitToFW_requires blank_atoms_hex
     missing_shift_surfaces aux_rows local_fwids).

Lemma eligible_rows_cons row rows :
  eligible_rows local_fwids (row :: rows)
  = (if negb (bool_decide (row_fwid row ∈ local_fwids))
        && negb (bool_decide (row_adsorbate row = ""))
     then [row] else [])
    ++ eligible_rows local_fwids rows.
Proof.
  unfold eligible_rows. rewrite filter_cons.
  destruct (decide (row_fwid row ∈ local_fwids)) as [Hin|Hin].
  - rewrite (bool_decide_eq_true_2 _ Hin). simpl.
    by rewrite decide_False by tauto.
  - rewrite (bool_decide_eq_false_2 _ Hin). simpl.
    destruct (decide (row_adsorbate row = "")) as [He|He].
    + rewrite (bool_decide_eq_true_2 _ He). simpl.
      by rewrite decide_False by tauto.
    + rewrite (bool_decide_eq_false_2 _ He). simpl.
      by rewrite decide_True by tauto.
Qed.

(** Without a limit the loop never breaks. *)
Lemma UpdateAllDB_rows_unlimited writeDB i rows :
  (0 ≤ i)%Z →
  UpdateAllDB_rows local_fwids writeDB 0 i rows
  = row_task writeDB <$> eligible_rows local_fwids rows.
Proof.
  revert i. induction rows as [|row rows IH]; intros i Hi; simpl; [done|].
  rewrite eligible_rows_cons, fmap_app, <-(IH (i + 1)%Z) by lia.
  replace (i + 1 =? 0)%Z with false by lia. simpl. f_equal.
  rewrite andb_true_r. by destruct (_ && _).
Qed.

(** With a positive limit the loop breaks on reaching row number
    [max_processes - 1]. *)
Lemma UpdateAllDB_rows_limited writeDB max_processes i rows :
  (0 ≤ i < max_processes)%Z →
  UpdateAllDB_rows local_fwids writeDB max_processes i rows
  = row_task writeDB
      <$> eligible_rows local_fwids
            (take (Z.to_nat (max_processes - 1 - i)) rows).
Proof.
  revert i. induction rows as [|row rows IH]; intros i Hi; simpl.
  - by rewrite take_nil.
  - destruct (i + 1 =? max_processes)%Z eqn:Hbreak.
    + replace (max_processes - 1 - i)%Z with 0%Z by lia. done.
    + replace (Z.to_nat (max_processes - 1 - i))
        with (S (Z.to_nat (max_processes - 1 - (i + 1)))) by lia.
      simpl. rewrite eligible_rows_cons, fmap_app, <-(IH (i + 1)%Z) by lia.
      f_equal. replace (max_processes =? 0)%Z with false by lia.
      replace (0 <? max_processes)%Z with true by lia.
      replace (i <? max_processes)%Z with true by lia. simpl.
      rewrite andb_true_r. by destruct (_ && _).
Qed.

(** A negative limit lets no row through. *)
Lemma UpdateAllDB_rows_negative writeDB max_processes i rows :
  (max_processes < 0)%Z → (0 ≤ i)%Z →
  UpdateAllDB_rows local_fwids writeDB max_processes i rows = [].
Proof.
  intros Hmax. revert i. induction rows as [|row rows IH]; intros i Hi; simpl;
    [done|].
  replace (i + 1 =? max_processes)%Z with false by lia.
  replace (max_processes =? 0)%Z with false by lia.
  replace (0 <? max_processes)%Z with false by lia. simpl.
  rewrite andb_false_r. simpl. apply IH. lia.
Qed.

(** X1: the loop of [UpdateAllDB.requires] in closed form.  The task
    requires [DumpSurfacesToAuxDB] and then one task for every row that
    is not in the Local DB yet and has an adsorbate, in the order of the
    rows: for all rows when [max_processes] is zero, for the first
    [max_processes - 1] rows only when it is positive (so fewer than
    [max_processes] tasks), and for no row when it is negative. *)
Theorem UpdateAllDB_requires_closed_form writeDB max_processes :
  requires (UpdateAllDB writeDB max_processes)
  = Some (DumpSurfacesToAuxDB
            :: (row_task writeDB
                  <$> eligible_rows local_fwids
                        (considered_rows max_processes aux_rows)))
  ∧ ((0 < max_processes)%Z →
     (Z.of_nat (length (eligible_rows local_fwids
                          (considered_rows max_processes aux_rows)))
      < max_processes)%Z).
Proof.
  split.
  - simpl. do 2 f_equal. unfold considered_rows.
    destruct (max_processes =? 0)%Z eqn:H0.
    + apply Z.eqb_eq in H0 as ->. by apply UpdateAllDB_rows_unlimited.
    + destruct (0 <? max_processes)%Z eqn:Hpos.
      * rewrite UpdateAllDB_rows_limited by lia. by rewrite Z.sub_0_r.
      * apply UpdateAllDB_rows_negative; lia.
  - intros Hpos. unfold considered_rows.
    replace (max_processes =? 0)%Z with false by lia.
    replace (0 <? max_processes)%Z with true by lia.
    unfold eligible_rows.
    pose proof (length_filter
                  (λ row, (row_fwid row ∉ local_fwids) ∧ (row_adsorbate row ≠ ""))
                  (take (Z.to_nat (max_processes - 1)) aux_rows)) as Hf.
    rewrite length_take in Hf. lia.
Qed.

(** The tasks that only generate are closed under [requires]. *)
Lemma generates_only_closed a b :
  generates_only b → prerequisite a b → generates_only a.
Proof.
  intros Hb (l & Hreq & Hin).
  destruct b; simpl in Hb; try done; simpl in Hreq.
  - simplify_eq. by apply elem_of_nil in Hin.
  - unfold bulk_only in Hreq. rewrite Hb in Hreq. simplify_option_eq.
    by apply list_elem_of_singleton in Hin as ->.
Qed.

(** X2: an unrelaxed enumeration never goes to FireWorks.  When the
    parameters of [GenerateSiteMarkers] carry a true ['unrelaxed'], every
    task it requires, directly or through other tasks, is a
    [GenerateBulk] or a [GenerateSurfaces] of the unrelaxed bulk, and
    none is a [SubmitToFW], whatever [SubmitToFW] itself requires. *)
Theorem unrelaxed_site_markers_never_submit p t :
  unrelaxed p = true →
  tc prerequisite t (GenerateSiteMarkers p) →
  generates_only t ∧ ∀ calctype q, t ≠ SubmitToFW calctype q.
Proof.
  intros Hun Htc.
  assert (generates_only t) as Ht.
  { remember (GenerateSiteMarkers p) as b eqn:Hb.
    induction Htc as [a b (l & Hreq & Hin)|a b c Hab _ IH]; subst.
    - simpl in Hreq. rewrite Hun in Hreq. simplify_option_eq.
      apply elem_of_cons in Hin as [->|Hin]; [done|].
      by apply list_elem_of_singleton in Hin as ->.
    - eapply generates_only_closed; [by apply IH|done]. }
  split; [done|]. intros calctype q ->. done.
Qed.

End UpdateAllDBFacts.

Lemma unrelaxed_site_markers_never_submit_witness :
  let t := GenerateBulk [("bulk", VDict [("mpid", VStr "mp-30")])] in
  generates_only t ∧ ∀ calctype q, t ≠ SubmitToFW calctype q.
Proof.
  apply (unrelaxed_site_markers_never_submit SubmitToFW_requires_spec "8002"
           [] [] [] sample_unrelaxed_parameters).
  - reflexivity.
  - apply tc_once. eexists. split; [reflexivity|].
    apply list_elem_of_further, list_elem_of_here.
Defined.

(** ** [requires] of the adslab tasks *)

Section RequiresFacts.

Variable SubmitToFW_requires : string → dict → list Task.
Variable blank_atoms_hex : string.
Variable missing_shift_surfaces : list dict.
Variable aux_rows : list aux_row.
Variable local_fwids : list Z.

Abbreviation requires :=
  (Tasks.requires SubmitToFW_requires blank_atoms_hex
     missing_shift_surfaces aux_rows local_fwids).
Abbreviation prerequisite :=
  (Tasks.prerequisite SubmitToFW_requires blank_atoms_hex
     missing_shift_surfaces aux_rows local_fwids).

Lemma setitem_setitem (d : dict) k v w :
  setitem (setitem d k v) k w = setitem d k w.
Proof.
  induction d as [|[k' v'] d IH]; simpl.
  - by rewrite decide_True.
  - case_decide; simpl; [by rewrite decide_True|].
    rewrite decide_False by done. by rewrite IH.
Qed.

Lemma setitem_getitem (d : dict) k v :
  getitem d k = Some v → setitem d k v = d.
Proof.
  induction d as [|[k' v'] d IH]; simpl; [done|].
  case_decide; [by intros [= ->]; subst|]. intros Hd. by rewrite IH.
Qed.

(** Deleting a key that was just assigned forgets the assigned value. *)
Lemma delitem_setitem (d : dict) k v w :
  delitem (setitem d k v) k = delitem (setitem d k w) k
  ∧ is_Some (delitem (setitem d k v) k).
Proof.
  induction d as [|[k' v'] d [IH1 IH2]]; simpl.
  - rewrite !decide_True by done. eauto.
  - case_decide; simpl.
    + rewrite !decide_True by done. eauto.
    + rewrite !decide_False by done. rewrite IH1. split; [done|].
      destruct IH2 as [d' Hd']. rewrite <-IH1, Hd'. simpl. eauto.
Qed.

Lemma without_with_adsorbates p a1 a2 p1 p2 :
  with_adsorbates p a1 = Some p1 →
  with_adsorbates p a2 = Some p2 →
  without_adsorbates p1 = without_adsorbates p2
  ∧ is_Some (without_adsorbates p1).
Proof.
  unfold with_adsorbates. intros H1 H2.
  destruct (getitem p "adsorption") as [[| | | | | |ad]|] eqn:Hp;
    simplify_eq/=.
  unfold without_adsorbates. rewrite !getitem_setitem_eq. simpl.
  destruct (delitem_setitem ad "adsorbates" a1 a2) as [Heq [d' Hd']].
  rewrite <-Heq, Hd'. simpl. by rewrite !setitem_setitem.
Qed.

(** X3: [GenerateAdslabs.requires] does not look at the adsorbates.  Two
    parameter dictionaries that differ only in
    [['adsorption']['adsorbates']] make [GenerateAdslabs] require one
    and the same [GenerateSiteMarkers] task, so the enumeration of the
    sites is shared between the adsorbates. *)
Theorem GenerateAdslabs_requires_ignores_adsorbates p a1 a2 p1 p2 :
  with_adsorbates p a1 = Some p1 →
  with_adsorbates p a2 = Some p2 →
  ∃ q, requires (GenerateAdslabs p1) = Some [GenerateSiteMarkers q]
       ∧ requires (GenerateAdslabs p2) = Some [GenerateSiteMarkers q].
Proof.
  intros H1 H2.
  destruct (without_with_adsorbates p a1 a2 p1 p2 H1 H2) as [Heq [q Hq]].
  exists q. simpl. rewrite <-Heq, Hq. done.
Qed.

(** X4: the two [GenerateAdslabs] tasks that
    [FingerprintUnrelaxedAdslabs] requires, one for the adsorbate and
    one for the bare slab, rest on the same [GenerateSiteMarkers] task,
    for every parameter dictionary that has an
    [['adsorption']['adsorbates']] entry. *)
Theorem FingerprintUnrelaxedAdslabs_shares_site_markers p ad a :
  getitem p "adsorption" = Some (VDict ad) →
  getitem ad "adsorbates" = Some a →
  ∃ t1 t2 q,
    requires (FingerprintUnrelaxedAdslabs p) = Some [t1; t2]
    ∧ t1 = GenerateAdslabs p
    ∧ requires t1 = Some [GenerateSiteMarkers q]
    ∧ requires t2 = Some [GenerateSiteMarkers q].
Proof.
  intros Hp Had.
  assert (with_adsorbates p a = Some p) as Hself.
  { unfold with_adsorbates. rewrite Hp. simpl.
    by rewrite (setitem_getitem ad), (setitem_getitem p). }
  destruct (with_adsorbates p (blank_adsorbates blank_atoms_hex))
    as [blank|] eqn:Hblank;
    [|unfold with_adsorbates in Hblank; rewrite Hp in Hblank; done].
  destruct (without_with_adsorbates p _ _ _ _ Hself Hblank) as [Heq [q Hq]].
  exists (GenerateAdslabs p), (GenerateAdslabs blank), q.
  simpl. rewrite Hblank. simpl. rewrite <-Heq, Hq. done.
Qed.

(** X5: fingerprinting a relaxed adslab submits nothing of its own.
    Whenever [CalculateEnergy.requires] succeeds, every task required by
    [FingerprintRelaxedAdslab] for the same parameters is
    [CalculateEnergy] itself or one of the submissions that
    [CalculateEnergy] already requires. *)
Theorem FingerprintRelaxedAdslab_requires_shared p l t :
  requires (CalculateEnergy p) = Some l →
  prerequisite t (FingerprintRelaxedAdslab p) →
  t = CalculateEnergy p ∨ t ∈ l.
Proof.
  intros Hl (l' & Hreq & Hin). simpl in Hl, Hreq. simplify_option_eq.
  apply elem_of_cons in Hin as [->|Hin]; [by left|right].
  apply list_elem_of_singleton in Hin as ->.
  apply list_elem_of_further, list_elem_of_here.
Qed.

(** X6: [CalculateEnergy.requires] raises exactly when the parameters
    lack an ['adsorption'] dictionary or a ['gas'] dictionary; otherwise
    it returns five submissions: the adslab, the bare slab, and the
    gases CO, H2 and H2O, which depend on the ['gas'] entry only. *)
Theorem CalculateEnergy_requires_errors p :
  (is_Some (requires (CalculateEnergy p)) ↔
   (∃ ad, getitem p "adsorption" = Some (VDict ad))
   ∧ (∃ g, getitem p "gas" = Some (VDict g)))
  ∧ (∀ g, getitem p "gas" = Some (VDict g) →
          ∀ l, requires (CalculateEnergy p) = Some l →
               drop 2 l
               = (λ name, SubmitToFW "gas"
                            [("gas", VDict (setitem g "gasname" (VStr name)))])
                   <$> ["CO"; "H2"; "H2O"]).
Proof.
  split.
  - simpl. unfold with_adsorbates, gas_only. split.
    + intros [l Hl].
      destruct (getitem p "adsorption") as [[| | | | | |ad]|];
        simplify_option_eq.
      destruct (getitem p "gas") as [[| | | | | |g]|]; simplify_option_eq.
      eauto.
    + intros [[ad ->] [g ->]]. simpl. eauto.
  - intros g Hg l Hl. simpl in Hl. unfold gas_only in Hl. rewrite Hg in Hl.
    simplify_option_eq. done.
Qed.

End RequiresFacts.

Lemma GenerateAdslabs_requires_ignores_adsorbates_witness :
  ∃ q,
    requires SubmitToFW_requires_spec "8002" [] [] []
      (GenerateAdslabs sample_parameters)
    = Some [GenerateSiteMarkers q]
    ∧ requires SubmitToFW_requires_spec "8002" [] [] []
        (GenerateAdslabs
           (setitem sample_parameters "adsorption"
              (VDict [("adsorbates", blank_adsorbates "8002")])))
      = Some [GenerateSiteMarkers q].
Proof.
  apply (GenerateAdslabs_requires_ignores_adsorbates SubmitToFW_requires_spec
           "8002" [] [] [] sample_parameters
           (VList [VDict [("name", VStr "CO"); ("atoms", VStr "8002")]])
           (blank_adsorbates "8002")); reflexivity.
Defined.

Lemma FingerprintUnrelaxedAdslabs_shares_site_markers_witness :
  ∃ t1 t2 q,
    requires SubmitToFW_requires_spec "8002" [] [] []
      (FingerprintUnrelaxedAdslabs sample_parameters) = Some [t1; t2]
    ∧ t1 = GenerateAdslabs sample_parameters
    ∧ requires SubmitToFW_requires_spec "8002" [] [] [] t1
      = Some [GenerateSiteMarkers q]
    ∧ requires SubmitToFW_requires_spec "8002" [] [] [] t2
      = Some [GenerateSiteMarkers q].
Proof.
  eapply (FingerprintUnrelaxedAdslabs_shares_site_markers
            SubmitToFW_requires_spec "8002" [] [] [] sample_parameters);
    reflexivity.
Defined.

Lemma FingerprintRelaxedAdslab_requires_shared_witness :
  let blank :=
    setitem sample_parameters "adsorption"
      (VDict [("adsorbates", blank_adsorbates "8002")]) in
  SubmitToFW "slab+adsorbate" blank = CalculateEnergy sample_parameters
  ∨ SubmitToFW "slab+adsorbate" blank
    ∈ [SubmitToFW "slab+adsorbate" sample_parameters;
       SubmitToFW "slab+adsorbate" blank;
       SubmitToFW "gas" [("gas", VDict [("gasname", VStr "CO")])];
       SubmitToFW "gas" [("gas", VDict [("gasname", VStr "H2")])];
       SubmitToFW "gas" [("gas", VDict [("gasname", VStr "H2O")])]].
Proof.
  apply (FingerprintRelaxedAdslab_requires_shared SubmitToFW_requires_spec
           "8002" [] [] [] sample_parameters).
  - reflexivity.
  - eexists. split; [reflexivity|].
    apply list_elem_of_further, list_elem_of_here.
Defined.

(** ** [CalculateEnergy.run]: errors and the order of the candidates *)

Section EnergyRunFacts.

Variable doc : Type.
Variable get_potential_energy : doc → Q.
Variable ads_dict : string → option (list string).

Abbreviation run := (CalculateEnergy_run get_potential_energy ads_dict).

Lemma mono_atom_energies_Some CO H2 H2O s e :
  mono_atom_energies CO H2 H2O s = Some e → s ∈ ["H"; "O"; "C"].
Proof.
  unfold mono_atom_energies. repeat case_decide; intros; simplify_eq;
    set_solver.
Qed.

Lemma gas_energy_loop_Some mono_CO mono_H2 mono_H2O names gas_energy g :
  gas_energy_loop ads_dict (mono_atom_energies mono_CO mono_H2 mono_H2O)
    names gas_energy = Some g →
  Forall (referenced_adsorbate ads_dict) names.
Proof.
  revert gas_energy. induction names as [|name names IH]; intros gas_energy;
    simpl; [by constructor|].
  destruct (ads_dict name) as [symbols|] eqn:Hd; [|done]. simpl.
  destruct (mapM _ symbols) as [es|] eqn:Hes; [|done]. simpl.
  intros Hg%IH. constructor; [|done].
  exists symbols. split; [done|].
  apply mapM_Some_1 in Hes. clear Hd Hg.
  induction Hes as [|s e symbols es Hs%mono_atom_energies_Some _ IHs];
    by constructor.
Qed.

Lemma is_minimum_unique m1 m2 (l1 l2 : list Q) :
  is_minimum m1 l1 → is_minimum m2 l2 → l1 ≡ₚ l2 → (m1 == m2)%Q.
Proof.
  intros [Hin1 Hle1] [Hin2 Hle2] Hperm. apply Qle_antisym.
  - apply Hle1. by rewrite Hperm.
  - apply Hle2. by rewrite <-Hperm.
Qed.

(** What a successful run has read and what it returns. *)
Lemma CalculateEnergy_run_inv p slab_ads slab_blank gas_co gas_h2 gas_h2o r :
  run p [slab_ads; slab_blank; gas_co; gas_h2; gas_h2o] = Some r →
  ∃ co h2 h2o names E_ads E_blank,
    head gas_co = Some co ∧ head gas_h2 = Some h2 ∧ head gas_h2o = Some h2o
    ∧ adsorbate_names p = Some names
    ∧ Forall (referenced_adsorbate ads_dict) names
    ∧ is_minimum E_ads (get_potential_energy <$> slab_ads)
    ∧ is_minimum E_blank (get_potential_energy <$> slab_blank)
    ∧ (dE r == E_ads - E_blank
               - reference_energy (get_potential_energy co)
                   (get_potential_energy h2) (get_potential_energy h2o)
                   (adsorbate_atoms ads_dict names))%Q.
Proof.
  unfold CalculateEnergy_run. simpl. intros Hrun.
  destruct (head gas_co) as [co|]; [|done].
  destruct (head gas_h2) as [h2|]; [|done].
  destruct (head gas_h2o) as [h2o|]; [|done]. simpl in Hrun.
  destruct (argmin (get_potential_energy <$> slab_ads)) as [i|] eqn:Hi;
    [|done]. simpl in Hrun.
  destruct (slab_ads !! i) as [best|] eqn:Hbest; [|done]. simpl in Hrun.
  destruct (argmin (get_potential_energy <$> slab_blank)) as [j|] eqn:Hj;
    [|done]. simpl in Hrun.
  destruct (np_min (get_potential_energy <$> slab_blank)) as [E_blank|]
    eqn:Hnp; [|done]. simpl in Hrun.
  destruct (adsorbate_names p) as [names|]; [|done]. simpl in Hrun.
  destruct (gas_energy_loop _ _ names 0%Q) as [g|] eqn:Hg; [|done].
  simpl in Hrun.
  destruct (slab_blank !! j) as [bestj|]; [|done]. simpl in Hrun.
  injection Hrun as <-.
  pose proof (gas_energy_loop_Some _ _ _ _ _ _ Hg) as Href.
  destruct (gas_energy_loop_reference ads_dict (get_potential_energy co)
              (get_potential_energy h2) (get_potential_energy h2o)
              names 0%Q Href) as (g' & Hg' & Hgeq).
  rewrite Hg in Hg'. injection Hg' as <-.
  assert (get_potential_energy <$> slab_ads ≠ []) as Hne1
    by (intros Hnil; by rewrite Hnil in Hi).
  assert (get_potential_energy <$> slab_blank ≠ []) as Hne2
    by (intros Hnil; by rewrite Hnil in Hj).
  destruct (argmin_minimum _ Hne1) as (i' & E_ads & Hi' & Hlook & Hmin).
  rewrite Hi in Hi'. injection Hi' as <-.
  rewrite list_lookup_fmap, Hbest in Hlook. injection Hlook as <-.
  destruct (np_min_minimum _ Hne2) as (E' & Hnp' & Hminb).
  rewrite Hnp in Hnp'. injection Hnp' as <-.
  exists co, h2, h2o, names, (get_potential_energy best), E_blank.
  do 7 (split; [done|]). simpl. rewrite Hgeq. ring.
Qed.

Lemma CalculateEnergy_run_Some p slab_ads slab_blank co cos h2 h2s h2o h2os
    names :
  slab_ads ≠ [] → slab_blank ≠ [] →
  adsorbate_names p = Some names →
  Forall (referenced_adsorbate ads_dict) names →
  is_Some (run p [slab_ads; slab_blank; co :: cos; h2 :: h2s; h2o :: h2os]).
Proof.
  intros Hads Hblank Hnames Href.
  destruct (argmin_minimum (get_potential_energy <$> slab_ads))
    as (i & E_ads & Hi & Hlook & _); [by intros ?%fmap_nil_inv|].
  apply list_lookup_fmap_Some in Hlook as (best & _ & Hbest).
  destruct (argmin_minimum (get_potential_energy <$> slab_blank))
    as (j & Ej & Hj & Hlookj & _); [by intros ?%fmap_nil_inv|].
  apply list_lookup_fmap_Some in Hlookj as (bestj & _ & Hbestj).
  destruct (np_min_minimum (get_potential_energy <$> slab_blank))
    as (E_blank & Hnp & _); [by intros ?%fmap_nil_inv|].
  destruct (gas_energy_loop_reference ads_dict (get_potential_energy co)
              (get_potential_energy h2) (get_potential_energy h2o)
              names 0%Q Href) as (g & Hg & _).
  unfold CalculateEnergy_run. simpl.
  rewrite Hi. simpl. rewrite Hbest. simpl. rewrite Hj. simpl.
  rewrite Hnp. simpl. rewrite Hnames. simpl. rewrite Hg. simpl.
  rewrite Hbestj. simpl. eauto.
Qed.

Lemma adsorbate_names_adsorbates_of p names :
  adsorbate_names p = Some names →
  ∃ ads, adsorbates_of p = Some ads
         ∧ length ads = length names
         ∧ Forall (λ ad, is_Some (as_dict ad ≫= (λ d, getitem d "name"))) ads.
Proof.
  unfold adsorbate_names, adsorbates_of.
  destruct (getitem p "adsorption" ≫= as_dict) as [a|]; [|done].
  cbn [mbind option_bind].
  destruct (getitem a "adsorbates") as [[| | | | |l|]|]; try done.
  cbn [mbind option_bind]. intros Hnames. exists l. split; [done|].
  split; [by eapply length_mapM|].
  apply mapM_Some_1 in Hnames. clear -Hnames.
  induction Hnames as [|ad name l names Had _ IH]; constructor; [|done].
  destruct (as_dict ad) as [d|]; [|done]. simpl in *.
  destruct (getitem d "name"); [eauto|done].
Qed.

Lemma CalculateEnergy_report_is_Some p names e :
  adsorbate_names p = Some names →
  is_Some (CalculateEnergy_report p e)
  ↔ names = []
    ∨ (is_Some (first_adsorption_site p)
       ∧ is_Some (getitem2 p "bulk" "mpid")
       ∧ is_Some (getitem2 p "slab" "miller")).
Proof.
  intros (ads & Hads & Hlen & Hall)%adsorbate_names_adsorbates_of.
  unfold CalculateEnergy_report. rewrite Hads. cbn [mbind option_bind].
  rewrite mapM_is_Some. split.
  - intros Hlines. destruct names as [|name names]; [by left|]. right.
    destruct ads as [|ad ads]; [done|].
    apply Forall_cons_1 in Hlines as [[line Hline] _].
    clear Hall. revert Hline.
    destruct (as_dict ad) as [d|]; [|done]. cbn [mbind option_bind].
    destruct (getitem d "name"); [|done]. cbn [mbind option_bind].
    destruct (first_adsorption_site p); [|done].
    destruct (getitem2 p "bulk" "mpid"); [|done].
    destruct (getitem2 p "slab" "miller"); [|done]. eauto.
  - intros [->|([site Hsite] & [mpid Hmpid] & [miller Hmiller])].
    + destruct ads; [constructor|done].
    + eapply Forall_impl; [exact Hall|]. intros ad [name Hname].
      unfold compose. destruct (as_dict ad) as [d|]; [|done].
      cbn [mbind option_bind] in Hname |- *.
      rewrite Hname, Hsite, Hmpid, Hmiller. by eexists.
Qed.

(** X7: when [CalculateEnergy.run] raises.  On the five pickles of its
    requirements the run writes its pickle exactly when none of the five
    lists is empty and every adsorbate of the parameters is known to
    [ads_dict] and made of H, O and C atoms only; an empty candidate
    list, or an adsorbate with any other atom (the uranium marker, say),
    makes it raise before.  With the pickle written, the run gets to its
    end exactly when the loop of prints finds what it reads: there is no
    adsorbate at all, or the first adsorbate has an ['adsorption_site']
    and the parameters hold ['bulk']['mpid'] and ['slab']['miller'];
    otherwise it raises after the pickle is written. *)
Theorem CalculateEnergy_run_errors p slab_ads slab_blank gas_co gas_h2 gas_h2o :
  (is_Some (CalculateEnergy_run get_potential_energy ads_dict p
              [slab_ads; slab_blank; gas_co; gas_h2; gas_h2o])
   ↔ slab_ads ≠ [] ∧ slab_blank ≠ []
     ∧ gas_co ≠ [] ∧ gas_h2 ≠ [] ∧ gas_h2o ≠ []
     ∧ ∃ names, adsorbate_names p = Some names
                ∧ Forall (referenced_adsorbate ads_dict) names)
  ∧ (is_Some (CalculateEnergy_run_to_end get_potential_energy ads_dict p
                [slab_ads; slab_blank; gas_co; gas_h2; gas_h2o])
     ↔ is_Some (CalculateEnergy_run get_potential_energy ads_dict p
                  [slab_ads; slab_blank; gas_co; gas_h2; gas_h2o])
       ∧ (adsorbate_names p = Some []
          ∨ (is_Some (first_adsorption_site p)
             ∧ is_Some (getitem2 p "bulk" "mpid")
             ∧ is_Some (getitem2 p "slab" "miller")))).
Proof.
  split; [split|].
  - intros [r Hr].
    destruct (CalculateEnergy_run_inv _ _ _ _ _ _ _ Hr)
      as (co & h2 & h2o & names & Ea & Eb & Hco & Hh2 & Hh2o & Hnames & Href
          & [Hina _] & [Hinb _] & _).
    split_and!; try (intros ->; by first
      [apply elem_of_nil in Hina|apply elem_of_nil in Hinb]);
      try (by intros ->); eauto.
  - intros (Hads & Hblank & Hco & Hh2 & Hh2o & names & Hnames & Href).
    destruct gas_co as [|co cos]; [done|].
    destruct gas_h2 as [|h2 h2s]; [done|].
    destruct gas_h2o as [|h2o h2os]; [done|].
    by eapply CalculateEnergy_run_Some.
  - unfold CalculateEnergy_run_to_end.
    destruct (CalculateEnergy_run _ _ p _) as [r|] eqn:Hr;
      cbn [mbind option_bind]; [|split; [by intros [? ?]|by intros [[? ?] _]]].
    destruct (CalculateEnergy_run_inv _ _ _ _ _ _ _ Hr)
      as (co & h2 & h2o & names & Ea & Eb & _ & _ & _ & Hnames & _).
    pose proof (CalculateEnergy_report_is_Some p names (dE r) Hnames) as Hrep.
    rewrite Hnames. split.
    + intros Hsome. split; [eauto|].
      assert (is_Some (CalculateEnergy_report p (dE r))) as Hp.
      { destruct (CalculateEnergy_report p (dE r)); [eauto|].
        by destruct Hsome. }
      apply Hrep in Hp as [->|?]; [by left|by right].
    + intros [_ Hkeys].
      assert (is_Some (CalculateEnergy_report p (dE r))) as [printed ->].
      { apply Hrep. destruct Hkeys as [[= ->]|?]; [by left|by right]. }
      by eexists.
Qed.

(** On the sample parameters, whose adsorbate has no ['adsorption_site'],
    the run writes its pickle and then raises. *)
Lemma CalculateEnergy_run_to_end_sample :
  is_Some (CalculateEnergy_run (snd : Z * Q → Q) adsorbates_dict
             sample_parameters
             [[(1%Z, -10 # 1); (2%Z, -12 # 1)]; [(3%Z, -8 # 1)];
              [(4%Z, -14 # 1)]; [(5%Z, -6 # 1)]; [(6%Z, -14 # 1)]])
  ∧ CalculateEnergy_run_to_end (snd : Z * Q → Q) adsorbates_dict
      sample_parameters
      [[(1%Z, -10 # 1); (2%Z, -12 # 1)]; [(3%Z, -8 # 1)];
       [(4%Z, -14 # 1)]; [(5%Z, -6 # 1)]; [(6%Z, -14 # 1)]]
    = None.
Proof. split; [by vm_compute; eexists|by vm_compute]. Qed.

(** X8: the adsorption energy does not depend on the order of the
    candidates.  If the run succeeds on some lists of relaxed adslabs
    and blank slabs, it succeeds on any reordering of them and returns
    the same [dE]. *)
Theorem CalculateEnergy_run_order p slab_ads slab_ads' slab_blank slab_blank'
    gas_co gas_h2 gas_h2o r :
  slab_ads ≡ₚ slab_ads' →
  slab_blank ≡ₚ slab_blank' →
  CalculateEnergy_run get_potential_energy ads_dict p
    [slab_ads; slab_blank; gas_co; gas_h2; gas_h2o] = Some r →
  ∃ r', CalculateEnergy_run get_potential_energy ads_dict p
          [slab_ads'; slab_blank'; gas_co; gas_h2; gas_h2o] = Some r'
        ∧ (dE r' == dE r)%Q.
Proof.
  intros Hpa Hpb Hr.
  destruct (CalculateEnergy_run_inv _ _ _ _ _ _ _ Hr)
    as (co & h2 & h2o & names & Ea & Eb & Hco & Hh2 & Hh2o & Hnames & Href
        & Hmina & Hminb & HdE).
  assert (is_Some (run p [slab_ads'; slab_blank'; gas_co; gas_h2; gas_h2o]))
    as [r' Hr'].
  { destruct gas_co as [|co0 cos]; [done|].
    destruct gas_h2 as [|h20 h2s]; [done|].
    destruct gas_h2o as [|h2o0 h2os]; [done|].
    eapply CalculateEnergy_run_Some; [| |done..].
    - intros ->. apply Permutation_nil_r in Hpa. subst.
      destruct Hmina as [Hin _]. by apply elem_of_nil in Hin.
    - intros ->. apply Permutation_nil_r in Hpb. subst.
      destruct Hminb as [Hin _]. by apply elem_of_nil in Hin. }
  exists r'. split; [done|].
  destruct (CalculateEnergy_run_inv _ _ _ _ _ _ _ Hr')
    as (co' & h2' & h2o' & names' & Ea' & Eb' & Hco' & Hh2' & Hh2o' & Hnames'
        & _ & Hmina' & Hminb' & HdE').
  simplify_eq. rewrite HdE, HdE'.
  rewrite (is_minimum_unique Ea' Ea _ _ Hmina' Hmina)
    by (by rewrite Hpa).
  rewrite (is_minimum_unique Eb' Eb _ _ Hminb' Hminb)
    by (by rewrite Hpb).
  reflexivity.
Qed.

End EnergyRunFacts.

Lemma CalculateEnergy_run_order_witness :
  let E := snd : Z * Q → Q in
  ∃ r',
    CalculateEnergy_run E adsorbates_dict sample_parameters
      [[(2%Z, -12 # 1); (1%Z, -10 # 1)]; [(3%Z, -8 # 1)];
       [(4%Z, -14 # 1)]; [(5%Z, -6 # 1)]; [(6%Z, -14 # 1)]] = Some r'
    ∧ (dE r' == 10)%Q.
Proof.
  intros E.
  apply (CalculateEnergy_run_order (Z * Q) E adsorbates_dict sample_parameters
           [(1%Z, -10 # 1); (2%Z, -12 # 1)] _ [(3%Z, -8 # 1)] _
           [(4%Z, -14 # 1)] [(5%Z, -6 # 1)] [(6%Z, -14 # 1)]
           {| dE := 10; result_slab_ads := (2%Z, -12 # 1);
              result_slab := (3%Z, -8 # 1);
              result_gas := ((4%Z, -14 # 1), (5%Z, -6 # 1), (6%Z, -14 # 1)) |}).
  - apply perm_swap.
  - reflexivity.
  - vm_compute. reflexivity.
Defined.

(** ** [FingerprintUnrelaxedAdslabs.run] and [UpdateEnumerations.run] *)

Import Enumeration.

Section EnumerationFacts.

Variable len_atoms : value → nat.
Variable fingerprint : value → nat → dict.
Variable py_str : value → string.

Lemma foldl_setitem_getitem_in (init l : dict) k v :
  NoDup (keys l) → (k, v) ∈ l →
  getitem (foldl (λ d kv, setitem d kv.1 kv.2) init l) k = Some v.
Proof.
  revert init. unfold keys.
  induction l as [|[k0 v0] l IH]; intros init Hnd Hin; simpl.
  - by apply elem_of_nil in Hin.
  - simpl in Hnd. apply NoDup_cons in Hnd as [Hk0 Hnd].
    apply elem_of_cons in Hin as [[= -> ->]|Hin].
    + rewrite foldl_setitem_getitem by done. apply getitem_setitem_eq.
    + by apply IH.
Qed.

(** What the loop body makes of one adslab. *)
Lemma fingerprint_adslab_spec n adslab out :
  fingerprint_adslab fingerprint n adslab = Some out →
  ∃ adsorbate,
    getitem adslab "adsorbate" = Some adsorbate
    ∧ (eq_str adsorbate "" = true → out = adslab)
    ∧ (eq_str adsorbate "" = false →
       ∃ atoms,
         getitem adslab "atoms" = Some atoms
         ∧ (∀ k, k ∉ keys (fingerprint atoms n) →
                 getitem out k = getitem adslab k)
         ∧ (∀ k v, NoDup (keys (fingerprint atoms n)) →
                   (k, v) ∈ fingerprint atoms n → getitem out k = Some v)).
Proof.
  unfold fingerprint_adslab. intros Hout.
  destruct (getitem adslab "adsorbate") as [adsorbate|]; [|done].
  simpl in Hout. exists adsorbate. split; [done|].
  destruct (eq_str adsorbate "").
  - simpl in Hout. injection Hout as <-. split; [done|by intros].
  - destruct (getitem adslab "atoms") as [atoms|]; [|done].
    simpl in Hout. injection Hout as <-. split; [by intros|].
    intros _. exists atoms. split; [done|]. split.
    + intros k Hk. by apply foldl_setitem_getitem.
    + intros k v Hnd Hin. by apply foldl_setitem_getitem_in.
Qed.

(** X9: [FingerprintUnrelaxedAdslabs.run] returns the adslabs in their
    order, one for one; a bare adslab (adsorbate ['']) comes back as it
    was, and any other adslab comes back with the entries of its
    fingerprint assigned and every other entry as it was. *)
Theorem FingerprintUnrelaxedAdslabs_run_adds_fingerprints adslabs slab out :
  FingerprintUnrelaxedAdslabs_run len_atoms fingerprint adslabs slab
  = Some out →
  ∃ n,
    Forall2
      (λ adslab out,
         ∃ adsorbate,
           getitem adslab "adsorbate" = Some adsorbate
           ∧ (eq_str adsorbate "" = true → out = adslab)
           ∧ (eq_str adsorbate "" = false →
              ∃ atoms,
                getitem adslab "atoms" = Some atoms
                ∧ (∀ k, k ∉ keys (fingerprint atoms n) →
                        getitem out k = getitem adslab k)
                ∧ (∀ k v, NoDup (keys (fingerprint atoms n)) →
                          (k, v) ∈ fingerprint atoms n →
                          getitem out k = Some v)))
      adslabs out.
Proof.
  unfold FingerprintUnrelaxedAdslabs_run. intros Hrun.
  destruct (head slab) as [slab0|]; [|done]. simpl in Hrun.
  destruct (getitem slab0 "atoms") as [atoms0|]; [|done]. simpl in Hrun.
  exists (len_atoms atoms0). apply mapM_Some_1 in Hrun.
  eapply Forall2_impl; [done|]. intros adslab o.
  apply fingerprint_adslab_spec.
Qed.

Lemma list_find_first (ks : list string) k :
  k ∈ ks →
  ∃ i, list_find (λ k', k' = k) ks = Some (i, k)
       ∧ ks !! i = Some k
       ∧ ∀ j k', j < i → ks !! j = Some k' → k' ≠ k.
Proof.
  intros Hin.
  destruct (list_find_elem_of (λ k', k' = k) ks k Hin eq_refl) as [[i k'] Hf].
  pose proof Hf as (Hi & -> & Hfirst)%list_find_Some.
  exists i. split; [done|]. split; [done|]. intros j k' Hj Hk'. by eapply Hfirst.
Qed.

(** The configurations picked for a list of keys of the configurations. *)
Lemma unique_configs_pick configs ks (wanted : list string) :
  mapM (config_key py_str) configs = Some ks →
  (∀ k, k ∈ wanted → k ∈ ks) →
  ∃ selected,
    mapM (λ i, configs !! i)
      (omap (λ k, fst <$> list_find (λ k', k' = k) ks) wanted) = Some selected
    ∧ mapM (config_key py_str) selected = Some wanted
    ∧ Forall (first_with_key py_str configs) selected.
Proof.
  intros Hks%mapM_Some_1.
  induction wanted as [|k wanted IH]; intros Hin.
  - exists []. by split_and!.
  - destruct (list_find_first ks k) as (i & Hf & Hi & Hfirst);
      [apply Hin; left|].
    destruct (Forall2_lookup_r _ _ _ _ _ Hks Hi) as (c & Hc & Hkc).
    destruct IH as (selected & Hsel & Hkeys & Hall);
      [intros; apply Hin; by right|].
    exists (c :: selected). split_and!.
    + replace (omap _ (k :: wanted))
        with (i :: omap (λ k, fst <$> list_find (λ k', k' = k) ks) wanted)
        by (simpl; by rewrite Hf).
      apply mapM_Some. constructor; [done|by apply mapM_Some].
    + apply mapM_Some. constructor; [done|by apply mapM_Some].
    + constructor; [|done]. exists i. split; [done|].
      intros j c' Hj Hc'.
      destruct (Forall2_lookup_l _ _ _ _ _ Hks Hc') as (k' & Hk' & Hkc').
      rewrite Hkc, Hkc'. intros [= ->]. by eapply Hfirst.
Qed.

Lemma unique_configs_is_Some configs :
  is_Some (unique_configs py_str configs)
  ↔ Forall (λ c, is_Some (config_key py_str c)) configs.
Proof.
  rewrite <-(mapM_is_Some (config_key py_str)). split.
  - unfold unique_configs. intros [selected Hsel].
    destruct (mapM (config_key py_str) configs); [eauto|done].
  - intros [keys Hkeys]. unfold unique_configs, np_unique_index.
    rewrite Hkeys. simpl.
    destruct (unique_configs_pick configs keys
                (merge_sort String.le (remove_dups keys)) Hkeys)
      as (selected & -> & _); [|eauto].
    intros k. by rewrite merge_sort_Permutation, elem_of_remove_dups.
Qed.

Lemma UpdateEnumerations_run_missing_key p configs c :
  c ∈ configs → config_key py_str c = None →
  UpdateEnumerations_run py_str p configs = None.
Proof.
  intros Hc Hnone. unfold UpdateEnumerations_run.
  destruct (unique_configs py_str configs) as [selected|] eqn:Hsel; [|done].
  exfalso.
  assert (Forall (λ c, is_Some (config_key py_str c)) configs) as Hall
    by (apply unique_configs_is_Some; eauto).
  rewrite Forall_forall in Hall. destruct (Hall c Hc) as [k Hk]. congruence.
Qed.

(** X10: [UpdateEnumerations.run] writes one row per kind of site.  The
    configurations it writes have pairwise different keys (shift,
    coordination, neighbours), come in the sorted order of their keys,
    each is the first configuration of the pickle with its key, and
    every configuration of the pickle has the key of one of them. *)
Theorem UpdateEnumerations_unique_configs configs selected :
  unique_configs py_str configs = Some selected →
  ∃ ks,
    mapM (config_key py_str) selected = Some ks
    ∧ NoDup ks
    ∧ Sorted String.le ks
    ∧ Forall (first_with_key py_str configs) selected
    ∧ ∀ c, c ∈ configs → ∃ k, config_key py_str c = Some k ∧ k ∈ ks.
Proof.
  unfold unique_configs, np_unique_index. intros Hsel.
  destruct (mapM (config_key py_str) configs) as [keys|] eqn:Hkeys; [|done].
  simpl in Hsel. set (ks := merge_sort String.le (remove_dups keys)) in *.
  assert (∀ k, k ∈ ks ↔ k ∈ keys) as Hks.
  { intros k. unfold ks. by rewrite merge_sort_Permutation, elem_of_remove_dups. }
  destruct (unique_configs_pick configs keys ks Hkeys)
    as (selected' & Hsel' & Hkeys' & Hfirst); [by intros k ?%Hks|].
  rewrite Hsel in Hsel'. injection Hsel' as <-.
  exists ks. split_and!; [done| | |done|].
  - unfold ks. rewrite merge_sort_Permutation. apply NoDup_remove_dups.
  - apply Sorted_merge_sort, _.
  - intros c [i Hc]%list_elem_of_lookup. apply mapM_Some_1 in Hkeys.
    destruct (Forall2_lookup_l _ _ _ _ _ Hkeys Hc) as (k & Hk & Hkc).
    exists k. split; [done|]. apply Hks. by eapply list_elem_of_lookup_2.
Qed.

(** X11: [UpdateEnumerations.run] needs the fingerprint of every
    configuration.  The configurations to write can be picked exactly
    when each configuration of the pickle has a shift, a coordination
    and a neighbours entry; one configuration without, a duplicate
    even, makes the run raise. *)
Theorem UpdateEnumerations_needs_fingerprints p configs :
  (is_Some (unique_configs py_str configs)
   ↔ Forall (λ c, is_Some (config_key py_str c)) configs)
  ∧ (is_Some (UpdateEnumerations_run py_str p configs) →
     Forall (λ c, is_Some (config_key py_str c)) configs).
Proof.
  split; [apply unique_configs_is_Some|].
  intros [rows Hrows]. apply Forall_forall. intros c Hc.
  destruct (config_key py_str c) eqn:Hk; [eauto|].
  by rewrite (UpdateEnumerations_run_missing_key p configs c) in Hrows.
Qed.

(** X12: the enumeration of a bare slab cannot be dumped.  A bare adslab
    (adsorbate ['']) without a coordination entry leaves
    [FingerprintUnrelaxedAdslabs.run] as it came, so
    [UpdateEnumerations.run] raises on the pickle that
    [FingerprintUnrelaxedAdslabs] wrote. *)
Theorem UpdateEnumerations_run_bare_adslab p adslabs slab out adslab :
  FingerprintUnrelaxedAdslabs_run len_atoms fingerprint adslabs slab
  = Some out →
  adslab ∈ adslabs →
  getitem adslab "adsorbate" = Some (VStr "") →
  getitem adslab "coordination" = None →
  UpdateEnumerations_run py_str p out = None.
Proof.
  unfold FingerprintUnrelaxedAdslabs_run. intros Hrun Hin Hbare Hcoord.
  destruct (head slab) as [slab0|]; [|done]. simpl in Hrun.
  destruct (getitem slab0 "atoms") as [atoms0|]; [|done]. simpl in Hrun.
  apply mapM_Some_1 in Hrun.
  apply list_elem_of_lookup in Hin as [i Hi].
  destruct (Forall2_lookup_l _ _ _ _ _ Hrun Hi) as (o & Ho & Hfp).
  apply fingerprint_adslab_spec in Hfp as (adsorbate & Hads & Hsame & _).
  rewrite Hbare in Hads. injection Hads as <-.
  rewrite (Hsame eq_refl) in Ho.
  eapply UpdateEnumerations_run_missing_key;
    [by eapply list_elem_of_lookup_2|].
  unfold config_key. destruct (getitem adslab "shift"); simpl; [|done].
  by rewrite Hcoord.
Qed.

End EnumerationFacts.

Lemma FingerprintUnrelaxedAdslabs_run_adds_fingerprints_witness :
  ∃ n,
    Forall2
      (λ adslab out,
         ∃ adsorbate,
           getitem adslab "adsorbate" = Some adsorbate
           ∧ (eq_str adsorbate "" = true → out = adslab)
           ∧ (eq_str adsorbate "" = false →
              ∃ atoms,
                getitem adslab "atoms" = Some atoms
                ∧ (∀ k, k ∉ keys (sample_fingerprint atoms n) →
                        getitem out k = getitem adslab k)
                ∧ (∀ k v, NoDup (keys (sample_fingerprint atoms n)) →
                          (k, v) ∈ sample_fingerprint atoms n →
                          getitem out k = Some v)))
      sample_adslabs sample_fingerprinted.
Proof.
  apply (FingerprintUnrelaxedAdslabs_run_adds_fingerprints
           sample_len_atoms sample_fingerprint
           sample_adslabs sample_slab_pickle sample_fingerprinted).
  vm_compute. reflexivity.
Defined.

Lemma UpdateEnumerations_unique_configs_witness :
  ∃ ks,
    mapM (config_key sample_key_str) [sample_configs !!! 1; sample_configs !!! 0]
    = Some ks
    ∧ NoDup ks
    ∧ Sorted String.le ks
    ∧ Forall (first_with_key sample_key_str sample_configs)
        [sample_configs !!! 1; sample_configs !!! 0]
    ∧ ∀ c, c ∈ sample_configs →
           ∃ k, config_key sample_key_str c = Some k ∧ k ∈ ks.
Proof.
  apply (UpdateEnumerations_unique_configs sample_key_str sample_configs).
  vm_compute. reflexivity.
Defined.

Lemma UpdateEnumerations_run_bare_adslab_witness :
  UpdateEnumerations_run sample_key_str sample_unrelaxed_parameters
    sample_fingerprinted = None.
Proof.
  apply (UpdateEnumerations_run_bare_adslab
           sample_len_atoms sample_fingerprint sample_key_str
           sample_unrelaxed_parameters sample_adslabs sample_slab_pickle
           sample_fingerprinted (sample_adslabs !!! 0)).
  - vm_compute. reflexivity.
  - vm_compute. left.
  - reflexivity.
  - reflexivity.
Defined.

(** ** [gaspy/gasdb.py]: cleaning, the unsimulated catalog, duplicates
    and chunks *)

Import Catalog.

Lemma has_None_false (d : dict) :
  has_None d = false ↔ Forall (λ kv, kv.2 ≠ VNone) d.
Proof.
  unfold has_None. induction d as [|[k v] d IH]; simpl.
  - split; [constructor|done].
  - rewrite Forall_cons, <-IH. simpl.
    destruct v; simpl; split; try done; by intros [? ?].
Qed.

Lemma keys_differ_false (ks expected_keys : list string) :
  keys_differ ks expected_keys = false ↔ ∀ k, k ∈ ks ↔ k ∈ expected_keys.
Proof.
  unfold keys_differ. rewrite negb_false_iff, bool_decide_eq_true.
  split.
  - intros [H1 H2] k. split; [apply H1|apply H2].
  - intros H. split; intros k; apply H.
Qed.

Lemma is_clean_true expected_keys (d : dict) :
  is_clean expected_keys d = true
  ↔ (∀ k, k ∈ keys d ↔ k ∈ expected_keys) ∧ Forall (λ kv, kv.2 ≠ VNone) d.
Proof.
  unfold is_clean. rewrite andb_true_iff, !negb_true_iff.
  by rewrite keys_differ_false, has_None_false.
Qed.

Lemma before_wrong_keys_sublist payloads expected_keys :
  before_wrong_keys payloads expected_keys `sublist_of` payloads.
Proof.
  induction payloads as [|doc payloads IH]; simpl; [done|].
  destruct (keys_differ _ _); [apply sublist_nil_l|by apply sublist_skip].
Qed.

Lemma before_wrong_keys_all payloads expected_keys :
  Forall (λ d, keys_differ (keys d) expected_keys = false) payloads →
  before_wrong_keys payloads expected_keys = payloads.
Proof.
  induction 1 as [|doc payloads Hdoc _ IH]; simpl; [done|].
  by rewrite Hdoc, IH.
Qed.

Lemma clean_sublist_sublist payloads expected_keys :
  clean_sublist payloads expected_keys `sublist_of` payloads.
Proof.
  unfold clean_sublist. induction payloads as [|doc payloads IH]; simpl; [done|].
  destruct (is_clean _ _); [by apply sublist_skip|by apply sublist_cons].
Qed.

Lemma clean_sublist_clean payloads expected_keys :
  Forall (λ d, is_clean expected_keys d = true)
    (clean_sublist payloads expected_keys).
Proof.
  unfold clean_sublist. induction payloads as [|doc payloads IH]; simpl;
    [constructor|].
  destruct (is_clean expected_keys doc) eqn:Hdoc; [by constructor|done].
Qed.


Section CatalogFacts.

Variable py_str : cleaned → string.
Variable py_hash : string → Z.

Lemma hash_entry_ignore_ext doc ign1 ign2 key :
  (key ∈ ign1 ↔ key ∈ ign2) →
  hash_entry py_str doc ign1 key = hash_entry py_str doc ign2 key.
Proof.
  intros H. unfold hash_entry.
  destruct (decide (key ∈ ign1)) as [H1|H1].
  - by rewrite !bool_decide_eq_true_2 by tauto.
  - by rewrite !bool_decide_eq_false_2 by tauto.
Qed.

Lemma system_string_ignore_ext doc ign1 ign2 :
  (∀ k, k ∈ keys doc → k ∈ ign1 ↔ k ∈ ign2) →
  system_string py_str doc ign1 = system_string py_str doc ign2.
Proof.
  intros H. unfold system_string.
  assert (∀ k, k ∈ sorted_keys doc → k ∈ ign1 ↔ k ∈ ign2) as Hs.
  { intros k. unfold sorted_keys. rewrite merge_sort_Permutation. apply H. }
  clear H. generalize "".
  induction (sorted_keys doc) as [|k ks IH]; intros system; simpl; [done|].
  rewrite (hash_entry_ignore_ext doc ign1 ign2 k) by (apply Hs; left).
  apply IH. intros k' Hk'. apply Hs. by right.
Qed.


Abbreviation catalog_hash doc :=
  (_hash_doc py_str py_hash doc (catalog_ignore_keys ++ ["mongo_id"]) true).
Abbreviation simulated_hash doc :=
  (_hash_doc py_str py_hash doc (simulated_ignore_keys ++ ["mongo_id"]) true).

Lemma filter_zip_fmap {B} (f : dict → B) (P : B → Prop)
    `{∀ b, Decision (P b)} (docs : list dict) :
  fst <$> filter (λ dh, P dh.2) (zip docs (f <$> docs))
  = filter (λ d, P (f d)) docs.
Proof.
  induction docs as [|d docs IH]; [done|].
  rewrite fmap_cons.
  change (zip (d :: docs) (f d :: (f <$> docs)))
    with ((d, f d) :: zip docs (f <$> docs)).
  rewrite !filter_cons.
  change ((d, f d).2) with (f d).
  case_decide; [rewrite fmap_cons; f_equal|]; apply IH.
Qed.

Lemma list_filter_iff_in {B} (P1 P2 : B → Prop)
    `{!∀ x, Decision (P1 x), !∀ x, Decision (P2 x)} (l : list B) :
  (∀ x, x ∈ l → P1 x ↔ P2 x) → filter P1 l = filter P2 l.
Proof.
  induction l as [|x l IH]; intros Hiff; [done|].
  rewrite !filter_cons.
  rewrite IH by (intros; apply Hiff; by right).
  pose proof (Hiff x (list_elem_of_here x l)) as Hx.
  destruct (decide (P1 x)), (decide (P2 x)); tauto || done.
Qed.

Lemma get_unsimulated_catalog_docs_filter docs_simulated docs_catalog :
  get_unsimulated_catalog_docs py_str py_hash docs_simulated docs_catalog
  = filter (λ c, catalog_hash c ∉ (λ s, simulated_hash s) <$> docs_simulated)
      docs_catalog.
Proof.
  unfold get_unsimulated_catalog_docs, _hash_docs. cbv zeta.
  set (hashes_unsimulated := list_to_set _ ∖ list_to_set _).
  etrans;
    [exact (filter_zip_fmap _ (λ h, h ∈ hashes_unsimulated) docs_catalog)|].
  apply list_filter_iff_in. intros c Hc.
  unfold hashes_unsimulated.
  rewrite elem_of_difference, !elem_of_list_to_set.
  split; [by intros [_ ?]|]. intros Hne. split; [|done].
  apply list_elem_of_fmap. by exists c.
Qed.



End CatalogFacts.




(** On the samples the simulated site is dropped and the site nobody
    tried is kept. *)
Lemma get_unsimulated_catalog_docs_sample :
  get_unsimulated_catalog_docs sample_str sample_hash
    [sample_simulated_doc] [sample_catalog_doc; sample_untried_doc]
  = [sample_untried_doc].
Proof. vm_compute. reflexivity. Qed.

Section DuplicatesFacts.

Context {K : Type} `{EqDecision K}.
Variable addToSet : list Z → list Z.

Implicit Types (collection : list (stored K)) (d : stored K).

Lemma foldl_delete_groups {G} (f : G → list Z) (groups : list G) collection :
  foldl (λ collection doc, foldl delete_one collection (f doc)) collection groups
  = foldl delete_one collection (concat (f <$> groups)).
Proof.
  revert collection. induction groups as [|g groups IH]; intros collection;
    [done|].
  rewrite fmap_cons. simpl. by rewrite foldl_app, IH.
Qed.

Lemma filter_all {B} (P : B → Prop) `{!∀ x, Decision (P x)} (l : list B) :
  Forall P l → filter P l = l.
Proof.
  induction 1 as [|x l Hx _ IH]; [done|].
  by rewrite filter_cons, decide_True, IH.
Qed.

Lemma delete_one_filter collection id_ :
  NoDup (stored_id <$> collection) →
  delete_one collection id_ = filter (λ d, stored_id d ≠ id_) collection.
Proof.
  induction collection as [|d collection IH]; [done|].
  rewrite fmap_cons, NoDup_cons. intros [Hd Hnd]. simpl.
  rewrite filter_cons. destruct (decide (stored_id d = id_)) as [Heq|Hne].
  - rewrite decide_False by (intros Hne; by apply Hne).
    symmetry. apply filter_all, Forall_forall. intros d' Hd' Heq'.
    apply Hd, list_elem_of_fmap. exists d'. split; [congruence|done].
  - rewrite decide_True by done. f_equal. by apply IH.
Qed.

Lemma NoDup_ids_filter (P : stored K → Prop) `{!∀ d, Decision (P d)}
    collection :
  NoDup (stored_id <$> collection) →
  NoDup (stored_id <$> filter P collection).
Proof.
  intros Hnd. eapply sublist_NoDup; [done|].
  apply fmap_sublist, sublist_filter.
Qed.

Lemma foldl_delete_one_filter collection (ids : list Z) :
  NoDup (stored_id <$> collection) →
  foldl delete_one collection ids
  = filter (λ d, stored_id d ∉ ids) collection.
Proof.
  revert collection. induction ids as [|id_ ids IH]; intros collection Hnd.
  - simpl. symmetry. apply filter_all, Forall_forall. intros d _.
    apply not_elem_of_nil.
  - simpl. rewrite delete_one_filter by done.
    rewrite IH by by apply NoDup_ids_filter.
    rewrite list_filter_filter. apply list_filter_iff. intros d.
    rewrite not_elem_of_cons. tauto.
Qed.

(** The ids that the run deletes. *)
Lemma remove_duplicates_filter collection :
  NoDup (stored_id <$> collection) →
  _remove_duplicates_in_a_collection addToSet collection
  = filter (λ d, stored_id d ∉
                 concat ((λ g, tail (mongo_ids g))
                           <$> aggregate addToSet collection))
      collection.
Proof.
  intros Hnd. unfold _remove_duplicates_in_a_collection.
  by rewrite foldl_delete_groups, foldl_delete_one_filter.
Qed.

Lemma elem_of_concat {B} (x : B) (ls : list (list B)) :
  x ∈ concat ls ↔ ∃ l, x ∈ l ∧ l ∈ ls.
Proof.
  induction ls as [|l ls IH]; simpl.
  - rewrite elem_of_nil. split; [done|]. intros (l & _ & Hl).
    by apply elem_of_nil in Hl.
  - rewrite elem_of_app, IH. split.
    + intros [Hx|(l' & Hx & Hl')]; [exists l; split; [done|left]|].
      exists l'. split; [done|by right].
    + intros (l' & Hx & [->|Hl']%elem_of_cons); [by left|right]. by exists l'.
Qed.

Lemma elem_of_tail {B} (x : B) (l : list B) : x ∈ tail l → x ∈ l.
Proof. destruct l; [done|]. simpl. by right. Qed.

Lemma elem_of_group_ids collection k id_ :
  (∀ l, addToSet l ≡ₚ l) →
  id_ ∈ mongo_ids (group_of addToSet collection k)
  ↔ ∃ d, d ∈ collection ∧ ident d = k ∧ stored_id d = id_.
Proof.
  intros Hset. unfold group_of. simpl.
  rewrite Hset, elem_of_remove_dups, list_elem_of_fmap.
  split.
  - intros (d & -> & [Hk Hd]%list_elem_of_filter). by exists d.
  - intros (d & Hd & Hk & <-). exists d. split; [done|].
    by apply list_elem_of_filter.
Qed.

Lemma NoDup_group_ids collection k :
  (∀ l, addToSet l ≡ₚ l) →
  NoDup (mongo_ids (group_of addToSet collection k)).
Proof.
  intros Hset. unfold group_of. simpl. rewrite Hset. apply NoDup_remove_dups.
Qed.

(** An id is deleted exactly when it comes after the first id of the
    group of its own document, and the group counts more than one. *)
Lemma deleted_own_group collection d :
  (∀ l, addToSet l ≡ₚ l) →
  NoDup (stored_id <$> collection) →
  d ∈ collection →
  stored_id d ∈ concat ((λ g, tail (mongo_ids g))
                          <$> aggregate addToSet collection)
  ↔ 1 < count (group_of addToSet collection (ident d))
    ∧ stored_id d ∈ tail (mongo_ids (group_of addToSet collection (ident d))).
Proof.
  intros Hset Hnd Hd. rewrite elem_of_concat. split.
  - intros (ids & Hin & (g & -> & Hg)%list_elem_of_fmap).
    unfold aggregate in Hg.
    apply list_elem_of_filter in Hg as [Hcount (k & -> & Hk)%list_elem_of_fmap].
    pose proof (elem_of_tail _ _ Hin) as Hin'.
    apply elem_of_group_ids in Hin' as (d' & Hd' & Hk' & Hid); [|done].
    assert (d' = d) as -> by (by eapply (NoDup_fmap_eq stored_id)).
    by subst.
  - intros [Hcount Hin]. eexists. split; [exact Hin|].
    apply list_elem_of_fmap. eexists. split; [reflexivity|].
    unfold aggregate. apply list_elem_of_filter. split; [done|].
    apply list_elem_of_fmap. eexists. split; [reflexivity|].
    apply elem_of_remove_dups, list_elem_of_fmap. by exists d.
Qed.

Lemma count_members collection k d1 d2 :
  count (group_of addToSet collection k) ≤ 1 →
  NoDup collection →
  d1 ∈ collection → d2 ∈ collection → ident d1 = k → ident d2 = k → d1 = d2.
Proof.
  unfold group_of. simpl. intros Hlen Hnd H1 H2 Hk1 Hk2.
  assert (d1 ∈ filter (λ d, ident d = k) collection) as Hm1
    by by apply list_elem_of_filter.
  assert (d2 ∈ filter (λ d, ident d = k) collection) as Hm2
    by by apply list_elem_of_filter.
  destruct (filter (λ d, ident d = k) collection) as [|m [|m' ms]];
    [by apply elem_of_nil in Hm1| |simpl in Hlen; lia].
  apply list_elem_of_singleton in Hm1, Hm2. congruence.
Qed.


End DuplicatesFacts.

Section ChunksFacts.

Context {A : Type}.

Lemma chunks_from_spec rounds (l : list A) size :
  (1 ≤ size)%Z → length l ≤ rounds →
  ∃ cs,
    chunks_from rounds l size = Some cs
    ∧ concat cs = l
    ∧ Forall (λ c, 1 ≤ length c ≤ Z.to_nat size) cs
    ∧ ∀ i c, cs !! i = Some c → S i < length cs → length c = Z.to_nat size.
Proof.
  intros Hsize. revert l. induction rounds as [|rounds IH]; intros l Hlen.
  - destruct l; [|simpl in Hlen; lia]. exists []. simpl.
    split_and!; [done|done|constructor|]. intros i c Hi. by destruct i.
  - destruct l as [|first l].
    { exists []. simpl.
      split_and!; [done|done|constructor|]. intros i c Hi. by destruct i. }
    cbn [chunks_from]. unfold islice.
    replace (size - 1 <? 0)%Z with false by lia.
    set (n := Z.to_nat (size - 1)).
    assert (Z.to_nat size = S n) as Hn by (unfold n; lia).
    destruct (IH (drop n l)) as (rest & Hrest & Hcat & Hlens & Hfull).
    { rewrite length_drop. simpl in Hlen. lia. }
    simpl. rewrite Hrest. simpl.
    exists ((first :: take n l) :: rest). split_and!.
    + done.
    + simpl. by rewrite Hcat, take_drop.
    + constructor; [|done]. simpl. rewrite length_take. lia.
    + intros [|i] c Hi Hlt; simpl in Hi, Hlt.
      * injection Hi as <-. simpl. rewrite length_take.
        assert (drop n l ≠ []) as Hne.
        { destruct rest as [|c0 rest']; [simpl in Hlt; lia|].
          apply Forall_cons in Hlens as [Hc0 _]. rewrite <-Hcat.
          destruct c0; [simpl in Hc0; lia|done]. }
        assert (n < length l).
        { destruct (decide (n < length l)); [done|].
          exfalso. apply Hne, drop_ge. lia. }
        lia.
      * apply (Hfull i c Hi). lia.
Qed.

Lemma chunks_from_rounds rounds1 rounds2 (l : list A) size :
  length l ≤ rounds1 → length l ≤ rounds2 →
  chunks_from rounds1 l size = chunks_from rounds2 l size.
Proof.
  revert rounds2 l.
  induction rounds1 as [|rounds1 IH]; intros rounds2 l H1 H2.
  - destruct l; [|simpl in H1; lia]. by destruct rounds2.
  - destruct l as [|first l]; [by destruct rounds2|].
    destruct rounds2 as [|rounds2]; [simpl in H2; lia|].
    cbn [chunks_from]. unfold islice.
    destruct (size - 1 <? 0)%Z; [done|]. simpl.
    rewrite (IH rounds2); [done| |]; rewrite length_drop; simpl in *; lia.
Qed.



End ChunksFacts.


(** On the sample, with the ids of a group listed last first, the
    youngest document for FireWorks id 7 stays. *)
Lemma remove_duplicates_sample :
  _remove_duplicates_in_a_collection reverse sample_collection
  = [Stored 102 8; Stored 104 7; Stored 105 9]%Z.
Proof. vm_compute. reflexivity. Qed.


Lemma chunks_sample :
  chunks [1; 2; 3; 4; 5; 6; 7]%Z 3 = Some [[1; 2; 3]; [4; 5; 6]; [7]]%Z
  ∧ chunks [1; 2]%Z 0 = None
  ∧ chunks (@nil Z) 0 = Some [].
Proof. split_and!; vm_compute; reflexivity. Qed.

(** ** [gaspy/defaults.py]: precedence of the settings and keyword
    clashes *)

Import Parameters.

Section ParametersFacts.

Variable xc_defaults : string → option dict.

Lemma NoDup_keys_setitem (d : dict) k v :
  NoDup (keys d) → NoDup (keys (setitem d k v)).
Proof.
  unfold keys. induction d as [|[k0 v0] d IH]; simpl.
  - intros _. apply NoDup_singleton.
  - rewrite NoDup_cons. intros [Hk0 Hnd]. case_decide; simpl.
    + subst. by apply NoDup_cons.
    + apply NoDup_cons. split; [|by apply IH].
      intros [?|?]%(keys_setitem xc_defaults); [congruence|done].
Qed.

Lemma NoDup_keys_foldl_setitem (init l : dict) :
  NoDup (keys init) →
  NoDup (keys (foldl (λ settings kv, setitem settings kv.1 kv.2) init l)).
Proof.
  revert init. induction l as [|[k v] l IH]; intros init Hnd; simpl; [done|].
  by apply IH, NoDup_keys_setitem.
Qed.


Lemma with_kwargs_is_Some (explicit settings : dict) :
  is_Some (with_kwargs explicit settings)
  ↔ Forall (λ k, k ∉ keys explicit) (keys settings).
Proof.
  unfold with_kwargs. case_bool_decide; split; done || by intros [? ?].
Qed.

(** What [resolve_settings] binds [settings] to is the mapping that the
    argument stands for. *)
Lemma resolve_settings_content settings (h : gmap loc dict) :
  (resolve_settings xc_defaults settings h ≫= λ '(l, h1), h1 !! l)
  = settings_content xc_defaults settings h.
Proof.
  destruct settings as [xc|l]; simpl.
  - destruct (calc_settings xc_defaults xc) as [d|]; [|done]. simpl.
    by rewrite lookup_insert_eq.
  - destruct (h !! l) eqn:Hl; simpl; [by rewrite Hl|done].
Qed.

Lemma keywords_free_setitem (keywords : list string) (s : dict) k v :
  k ∉ keywords →
  Forall (λ k, k ∉ keywords) (keys (setitem s k v))
  ↔ Forall (λ k, k ∉ keywords) (keys s).
Proof.
  intros Hk. rewrite !Forall_forall. split.
  - intros H k' Hk'. apply H, (keys_setitem xc_defaults). by right.
  - intros H k' [->|Hk']%(keys_setitem xc_defaults); [done|by apply H].
Qed.


Lemma getitem_app_r (d1 d2 : dict) k :
  k ∉ keys d1 → getitem (d1 ++ d2) k = getitem d2 k.
Proof.
  unfold keys. induction d1 as [|[k1 v1] d1 IH]; simpl; [done|].
  rewrite not_elem_of_cons. intros [Hne Hk]. rewrite decide_False by done.
  by apply IH.
Qed.


End ParametersFacts.



(** On the samples: the functional's own [encut] replaces 350, and
    settings with k-points of their own are refused by all three
    functions. *)
Lemma parameters_sample :
  calc_settings (λ _, Some [("encut", VInt 400); ("gga", VStr "PE")]) "pbe"
  = Some [("encut", VInt 400); ("pp_version", VStr "5.4"); ("gga", VStr "PE")]
  ∧ gas_parameters sample_xc_defaults "CO" (SettingsRef 1%positive)
      {[ 1%positive := sample_clashing_settings ]} = None
  ∧ bulk_parameters sample_xc_defaults "mp-30" (SettingsRef 1%positive)
      500%Q 50%Z {[ 1%positive := sample_clashing_settings ]} = None
  ∧ slab_parameters sample_xc_defaults (VList [VInt 1; VInt 1; VInt 1])
      (VBool true) (VFloat 0) (SettingsRef 1%positive)
      {[ 1%positive := sample_clashing_settings ]} = None.
Proof. split_and!; vm_compute; reflexivity. Qed.

(** ** [output]: which tasks write the same file *)

Section OutputCollisions.

Variable task_id : Task → string.
Variable SubmitToFW_output : string → dict → option string.


End OutputCollisions.


(** ** [DumpSurfacesToAuxDB]: the lists of [requires] and the loop of
    [run] *)

Import DumpSurfaces.

Section DumpSurfacesFacts.

Variable eval_miller : string → value.
Variable default_parameter_bulk : value → dict → value.
Variable default_parameter_slab : value → dict → value.
Variable vasp_settings : firework → dict.
Variable atoms : Type.
Variable coordination_distance : firework → Z → slab_doc atoms → option Q.

Implicit Types (lists : dump_lists) (entry : firework * Z).

Abbreviation generated_for :=
  (DumpSurfaces.generated_for eval_miller default_parameter_bulk
     default_parameter_slab vasp_settings).

Lemma requires_loop_lists lpad fws fws_cmpltd lists lists' :
  requires_loop eval_miller default_parameter_bulk default_parameter_slab
    vasp_settings lpad fws fws_cmpltd lists = Some lists' →
  Forall2 generated_for (surfaces lists) (missing_shift_to_dump lists) →
  Forall (λ entry, "shift" ∈ keys (fw_name entry.1)) (to_dump lists) →
  Forall2 generated_for (surfaces lists') (missing_shift_to_dump lists')
  ∧ Forall (λ entry, "shift" ∈ keys (fw_name entry.1)) (to_dump lists').
Proof.
  revert lists. induction fws_cmpltd as [|fwid rest IH]; intros lists Hrun;
    simpl in Hrun.
  - by injection Hrun as <-.
  - intros Hm Hd. case_bool_decide as Hdumped; [by apply (IH lists)|].
    destruct (get_fw_by_id lpad fwid) as [fw|]; [|done]. simpl in Hrun.
    destruct (getitem (fw_name fw) "miller") as [miller|] eqn:Hmiller; [|done].
    simpl in Hrun. case_bool_decide as Hshift.
    + apply (IH _ Hrun); simpl; [done|].
      apply Forall_app. split; [done|]. by constructor.
    + destruct (surfaces_for _ _ _ fw _) as [surface|] eqn:Hsurface; [|done].
      simpl in Hrun. apply (IH _ Hrun); simpl; [|done].
      apply Forall2_app; [done|]. constructor; [|constructor].
      split; [done|]. by exists miller.
Qed.

Lemma requires_loop_fwids lpad fws fws_cmpltd lists lists' :
  requires_loop eval_miller default_parameter_bulk default_parameter_slab
    vasp_settings lpad fws fws_cmpltd lists = Some lists' →
  (missing_shift_to_dump lists' ++ to_dump lists').*2
  ≡ₚ (missing_shift_to_dump lists ++ to_dump lists).*2
     ++ filter (λ fwid, fwid ∉ fws) fws_cmpltd.
Proof.
  revert lists. induction fws_cmpltd as [|fwid rest IH]; intros lists Hrun;
    simpl in Hrun.
  - injection Hrun as <-. by rewrite app_nil_r.
  - rewrite filter_cons. case_bool_decide as Hdumped.
    { rewrite decide_False by tauto. by apply IH. }
    rewrite decide_True by done.
    destruct (get_fw_by_id lpad fwid) as [fw|]; [|done]. simpl in Hrun.
    destruct (getitem (fw_name fw) "miller") as [miller|]; [|done].
    simpl in Hrun. case_bool_decide as Hshift.
    + rewrite (IH _ Hrun). simpl. rewrite !fmap_app.
      rewrite <-!app_assoc. reflexivity.
    + destruct (surfaces_for _ _ _ fw _) as [surface|]; [|done].
      simpl in Hrun. rewrite (IH _ Hrun). simpl. rewrite !fmap_app.
      rewrite <-!app_assoc. apply Permutation_app_head. simpl.
      apply Permutation_middle.
Qed.


Lemma run_loop_app inputs (entries1 entries2 : list (firework * Z)) st :
  run_loop eval_miller coordination_distance inputs (entries1 ++ entries2) st
  = run_loop eval_miller coordination_distance inputs entries1 st
    ≫= run_loop eval_miller coordination_distance inputs entries2.
Proof.
  revert st. induction entries1 as [|entry entries1 IH]; intros st; simpl;
    [done|].
  destruct (dump_step _ _ _ _ _) as [st'|]; simpl; [apply IH|done].
Qed.

Lemma shift_in_fwname (name : dict) :
  "shift" ∈ keys match getitem name "miller" with
                 | Some (VStr m) => setitem name "miller" (eval_miller m)
                 | _ => name
                 end
  ↔ "shift" ∈ keys name.
Proof.
  destruct (getitem name "miller") as [[]|]; try done.
  rewrite (keys_setitem (λ _, None)). split; [by intros [?|?]|by right].
Qed.

(** A round for a firework without a shift reads the next input and
    moves the counter; a round for one with a shift leaves it. *)
Lemma dump_step_counter inputs st entry st' :
  dump_step eval_miller coordination_distance inputs st entry = Some st' →
  n_missing_shift st'
  = if bool_decide ("shift" ∈ keys (fw_name entry.1))
    then n_missing_shift st else S (n_missing_shift st).
Proof.
  destruct entry as [fw fwid]. unfold dump_step. intros Hstep.
  destruct (calculation_type fw) as [ct|]; [|done]. simpl in Hstep.
  pose proof (shift_in_fwname (fw_name fw)) as Hkeys.
  destruct (bool_decide ("shift" ∈ keys match getitem (fw_name fw) "miller" with
                                        | Some (VStr m) => _
                                        | _ => _
                                        end)) eqn:Hb.
  - apply bool_decide_eq_true in Hb. apply Hkeys in Hb.
    rewrite bool_decide_eq_true_2 by done. simpl in Hstep.
    destruct (if eq_str ct "slab optimization" then _ else _); [|done].
    simpl in Hstep. by injection Hstep as <-.
  - apply bool_decide_eq_false in Hb.
    rewrite bool_decide_eq_false_2 by (by rewrite <-Hkeys).
    destruct (inputs !! n_missing_shift st) as [slab_list|]; [|done].
    simpl in Hstep.
    destruct (guess_shift _ _ _ _ _ _) as [[shift num]|]; [|done].
    simpl in Hstep.
    destruct (if eq_str ct "slab optimization" then _ else _); [|done].
    simpl in Hstep. by injection Hstep as <-.
Qed.

Lemma run_loop_counter inputs (entries : list (firework * Z)) st st' :
  run_loop eval_miller coordination_distance inputs entries st = Some st' →
  n_missing_shift st'
  = n_missing_shift st
    + length (filter (λ entry, "shift" ∉ keys (fw_name entry.1)) entries).
Proof.
  revert st. induction entries as [|entry entries IH]; intros st Hrun;
    simpl in Hrun.
  - injection Hrun as <-. simpl. lia.
  - destruct (dump_step _ _ _ _ _) as [st1|] eqn:Hstep; [|done].
    simpl in Hrun. rewrite (IH _ Hrun), (dump_step_counter _ _ _ _ Hstep).
    rewrite filter_cons. case_bool_decide.
    + rewrite decide_False by tauto. done.
    + rewrite decide_True by done. simpl. lia.
Qed.


Lemma filter_top_bottom_pairs b
    (pairs : list (slab_doc atoms * slab_doc atoms)) :
  Forall (λ pair, tag_top (tags pair.1) = true
                  ∧ tag_top (tags pair.2) = false) pairs →
  filter (λ slab, eq_bool (VBool b) (tag_top (tags slab)) = true)
    (top_bottom_pairs pairs)
  = side b <$> pairs.
Proof.
  unfold top_bottom_pairs.
  induction 1 as [|[top bottom] pairs [Htop Hbottom] _ IH]; [done|].
  rewrite !fmap_cons. simpl in *. rewrite !filter_cons. simpl.
  rewrite Htop, Hbottom, IH. by destruct b.
Qed.

Lemma lookup_top_bottom_pairs
    (pairs : list (slab_doc atoms * slab_doc atoms)) i :
  top_bottom_pairs pairs !! i
  = side (Nat.even i) <$> pairs !! Nat.div2 i.
Proof.
  unfold top_bottom_pairs. revert i.
  induction pairs as [|pair pairs IH]; intros i; [by destruct i|].
  rewrite fmap_cons. simpl. destruct i as [|[|i]]; [done..|].
  simpl. apply IH.
Qed.


End DumpSurfacesFacts.




(** On the samples: the fireworks 13 and 11 lack a shift and get a task
    each, 12 has one; and although the slab with shift 3/4 is the
    nearest, the shift guessed is 1/4, that of the document at its index
    in the whole pickle. *)
Lemma DumpSurfaces_sample :
  (λ lists, ((missing_shift_to_dump lists).*2, (to_dump lists).*2,
             length (surfaces lists))) <$>
    DumpSurfacesToAuxDB_requires VStr sample_parameter_bulk
      sample_parameter_slab (λ _, []) sample_slab_launchpad sample_slab_aux_db
  = Some ([13; 11]%Z, [12]%Z, 2)
  ∧ fst <$> guess_shift sample_distance None sample_shiftless_firework
              (fw_name sample_shiftless_firework) (Some "slab")
              (top_bottom_pairs sample_pairs)
    = Some (VFloat (2500 # 10000))
  ∧ argmin [1 # 2; 0]%Q = Some 1.
Proof. split_and!; vm_compute; reflexivity. Qed.

(** ** [GenerateSiteMarkers.run], [GenerateAdslabs.run] and the
    enumeration of the sites from end to end *)

Import SiteMarkers.

Section SiteMarkersFacts.

Variable cell_norm : dict → nat → Q.
Variable find_adsorption_sites : dict → value → list value.
Variable site_str : value → string.
Variable marked_slab : dict → Z → Z → value → value.
Variable place_adsorbate : value → value → option value.
Variable len_atoms : value → nat.
Variable fingerprint : value → nat → dict.
Variable py_str : value → string.

(** The slab is repeated just often enough. *)
Lemma repeats_enough min_xy norm n :
  repeats min_xy norm = Some n → (0 < norm)%Q →
  (min_xy <= inject_Z n * norm)%Q ∧ (inject_Z (n - 1) * norm < min_xy)%Q.
Proof.
  unfold repeats. destruct (Qeq_bool norm 0); [done|]. intros [= <-] Hpos.
  assert (¬ (norm == 0)%Q) as Hnz.
  { intros H. rewrite H in Hpos. by apply Qlt_irrefl in Hpos. }
  assert (min_xy == min_xy / norm * norm)%Q as Heq by (by field).
  split.
  - apply (Qle_trans _ (min_xy / norm * norm));
      [apply Qle_lteq; by right|].
    apply Qmult_le_compat_r; [apply Qle_ceiling|by apply Qlt_le_weak].
  - apply (Qlt_le_trans _ (min_xy / norm * norm));
      [|apply Qle_lteq; right; by symmetry].
    apply Qmult_lt_compat_r; [done|apply Qceiling_lt].
Qed.

Lemma site_tags_marker p slab slabrepeat site adslab m :
  site_tags site_str p slab slabrepeat site adslab = Some m →
  keys m = marker_keys
  ∧ getitem m "atoms" = Some adslab
  ∧ getitem m "adsorbate" = Some (VStr "U")
  ∧ getitem m "relaxed" = Some (VBool false)
  ∧ getitem m "slabrepeat" = Some (VStr slabrepeat)
  ∧ getitem m "adsorption_site" = Some (VStr (site_str site)).
Proof.
  unfold site_tags. intros Hm.
  destruct (if bool_decide ("unrelaxed" ∈ keys p) then _ else _)
    as [[[shift top] miller]|]; [|done].
  simpl in Hm. by injection Hm as <-.
Qed.


Lemma GenerateSiteMarkers_run_keys p slabs bulk_pickle markers :
  GenerateSiteMarkers_run cell_norm find_adsorption_sites site_str marked_slab
    p slabs bulk_pickle = Some markers →
  Forall (λ m, keys m = marker_keys) markers.
Proof.
  unfold GenerateSiteMarkers_run. intros Hrun.
  destruct (head bulk_pickle) as [bulk|]; [|done]. simpl in Hrun.
  destruct (mapM _ slabs) as [per_slab|] eqn:Hslabs; [|done].
  simpl in Hrun. injection Hrun as <-.
  apply mapM_Some_1 in Hslabs. apply Forall_concat.
  induction Hslabs as [|slab saved slabs per_slab Hsaved _ IH];
    constructor; [|done].
  unfold mark_slab in Hsaved.
  destruct (getitem p "adsorption" ≫= as_dict) as [a|]; [|done].
  simpl in Hsaved.
  destruct (getitem a "min_xy" ≫= as_number) as [min_xy|]; [|done].
  simpl in Hsaved.
  destruct (repeats min_xy (cell_norm slab 0)) as [nx|]; [|done].
  simpl in Hsaved.
  destruct (repeats min_xy (cell_norm slab 1)) as [ny|]; [|done].
  simpl in Hsaved. apply mapM_Some_1 in Hsaved.
  induction Hsaved as [|site m sites saved Hm _ IHs]; constructor; [|done].
  by apply site_tags_marker in Hm as [? _].
Qed.

(** [GenerateAdslabs.run] keeps the keys of a configuration and names
    the adsorbate of the parameters. *)
Lemma replace_marker_keys p config adslab :
  replace_marker place_adsorbate p config = Some adslab →
  (∀ k, k ∈ keys config → k ∈ keys adslab)
  ∧ ∃ a adsorbate0 rest name,
      getitem p "adsorption" = Some (VDict a)
      ∧ getitem a "adsorbates" = Some (VList (VDict adsorbate0 :: rest))
      ∧ getitem adsorbate0 "name" = Some name
      ∧ getitem adslab "adsorbate" = Some name
      ∧ is_Some (getitem adslab "atoms").
Proof.
  unfold replace_marker. intros Hrun.
  destruct (getitem config "atoms") as [slab|]; [|done]. simpl in Hrun.
  destruct (getitem p "adsorption") as [[| | | | | |a]|] eqn:Ha; try done.
  simpl in Hrun.
  destruct (getitem a "adsorbates")
    as [[| | | | |[|[| | | | | |adsorbate0] rest]|]|] eqn:Hads; try done.
  simpl in Hrun.
  destruct (getitem adsorbate0 "atoms") as [hex|]; [|done]. simpl in Hrun.
  destruct (place_adsorbate slab hex) as [atoms|]; [|done]. simpl in Hrun.
  destruct (getitem adsorbate0 "name") as [name|] eqn:Hname; [|done].
  simpl in Hrun. injection Hrun as <-. split.
  - intros k Hk. apply (keys_setitem (λ _, None)). right.
    apply (keys_setitem (λ _, None)). by right.
  - exists a, adsorbate0, rest, name. split_and!; try done.
    + apply getitem_setitem_eq.
    + apply getitem_is_Some.
      apply (keys_setitem (λ _, None)). right.
      apply (keys_setitem (λ _, None)). by left.
Qed.

Lemma fingerprint_adslab_keys n adslab out :
  fingerprint_adslab fingerprint n adslab = Some out →
  (∀ k, k ∈ keys adslab → k ∈ keys out)
  ∧ ∀ adsorbate atoms,
      getitem adslab "adsorbate" = Some adsorbate →
      eq_str adsorbate "" = false →
      getitem adslab "atoms" = Some atoms →
      ∀ k, k ∈ keys (fingerprint atoms n) → k ∈ keys out.
Proof.
  unfold fingerprint_adslab. intros Hout.
  destruct (getitem adslab "adsorbate") as [adsorbate|]; [|done].
  simpl in Hout. destruct (eq_str adsorbate "") eqn:Hbare.
  - simpl in Hout. injection Hout as <-. split; [done|].
    intros ? ? [= <-]. congruence.
  - destruct (getitem adslab "atoms") as [atoms|]; [|done].
    simpl in Hout. injection Hout as <-. split.
    + intros k Hk. apply (foldl_setitem_keys (λ _, None)). by left.
    + intros ? ? _ _ [= <-] k Hk. apply (foldl_setitem_keys (λ _, None)).
      by right.
Qed.

Lemma length_remove_dups {A} `{EqDecision A} (l : list A) :
  length (remove_dups l) ≤ length l.
Proof.
  induction l as [|x l IH]; simpl; [done|]. case_decide; simpl; lia.
Qed.

Lemma write_site_is_Some p config sl miller bulk mpid a adsorbate0 rest name :
  getitem p "slab" = Some (VDict sl) → getitem sl "miller" = Some miller →
  getitem p "bulk" = Some (VDict bulk) → getitem bulk "mpid" = Some mpid →
  getitem p "adsorption" = Some (VDict a) →
  getitem a "adsorbates" = Some (VList (VDict adsorbate0 :: rest)) →
  getitem adsorbate0 "name" = Some name →
  (∀ k, k ∈ ["atoms"; "shift"; "top"; "adsorption_site"; "coordination";
             "neighborcoord"; "nextnearestcoordination"] →
        k ∈ keys config) →
  is_Some (write_site py_str p config).
Proof.
  intros Hsl Hmiller Hbulk Hmpid Ha Hads Hname Hkeys. unfold write_site.
  assert (∀ k, k ∈ ["atoms"; "shift"; "top"; "adsorption_site"; "coordination";
                    "neighborcoord"; "nextnearestcoordination"] →
               is_Some (getitem config k)) as Hget.
  { intros k Hk. apply getitem_is_Some. by apply Hkeys. }
  rewrite Hsl, Hbulk, Ha. simpl. rewrite Hmiller, Hmpid, Hads. simpl.
  rewrite Hname. simpl.
  destruct (Hget "atoms") as [? ->]; [set_solver|].
  destruct (Hget "shift") as [? ->]; [set_solver|].
  destruct (Hget "top") as [? ->]; [set_solver|].
  destruct (Hget "adsorption_site") as [? ->]; [set_solver|].
  destruct (Hget "coordination") as [? ->]; [set_solver|].
  destruct (Hget "neighborcoord") as [? ->]; [set_solver|].
  destruct (Hget "nextnearestcoordination") as [? ->]; [set_solver|].
  simpl. eauto.
Qed.


End SiteMarkersFacts.


